(** * BoFire design-of-experiments core: a shallow embedding

    The definitions below follow the Python sources
    - [bofire/strategies/doe/utils.py]  (formula builder, constraint
      transformer, optimality metrics, NChooseK-as-bounds),
    - [bofire/strategies/polytope.py]   (polytope sampler),
    - [bofire/utils/torch_tools.py]     (linear constraints in index form),
    - [bofire/domain/features.py]       (input features and their containers).

    Floating point numbers that are only compared or copied are modelled
    by rationals [Q]; a number that pydantic converts to a float goes
    through [PyFloat.to_float], the nearest double.  Where the constraint
    transformer divides or takes a norm the numeric operations are section
    variables; the one division of the sampler is exact, with the
    infinities and nan of a zero divisor kept apart.  Exceptions are an
    explicit result type, warnings a log that is threaded through the
    computation, and Python objects that are mutated in place live in an
    explicit store. *)

From Stdlib Require Import ZArith QArith Qabs Qround Bool Lia Permutation Sorted.
From Stdlib Require Import SetoidList SetoidPermutation.
From Stdlib Require Import Ascii String.
From stdpp Require Import base option list gmap strings.

Local Open Scope nat_scope.
Local Open Scope string_scope.
Local Open Scope list_scope.

(** ** Exceptions *)

Inductive exn : Type :=
| ValueError
| KeyError
| AttributeError
| IndexError
| AssertionError
| ZeroDivisionError
| NotImplementedError
| TypeError
| LinAlgError
| FormulaSyntaxError
| SamplingError
| OverflowError.

Inductive result (A : Type) : Type :=
| Ok (a : A)
| Raise (e : exn).
Arguments Ok {A} a.
Arguments Raise {A} e.

#[global] Instance result_ret : MRet result := @Ok.
#[global] Instance result_bind : MBind result := fun A B k m =>
  match m with
  | Ok a => k a
  | Raise e => Raise e
  end.

(** [for x in xs: body x], stopping at the first exception. *)
Fixpoint for_each {A} (xs : list A) (body : A -> result unit) : result unit :=
  match xs with
  | [] => Ok tt
  | x :: xs' => body x ;; for_each xs' body
  end.

(** a result of a check that either passes or raises [ValueError] *)
Definition benign (r : result unit) : Prop := r = Ok tt \/ r = Raise ValueError.

#[global] Instance exn_eq_dec : EqDecision exn.
Proof. solve_decision. Defined.

(** ** Features ([bofire/domain/features.py]) *)

Module Features.

(** The input feature classes the design engine distinguishes. *)
Inductive FeatureKind : Type :=
| ContinuousInput (bounds : Q * Q)
| DiscreteInput (values : list Q)
| CategoricalInput (categories : list string) (allowed : list bool).

Record Feature : Type := mkFeature {
  key : string;
  kind : FeatureKind
}.

(** [FEATURE_ORDER] *)
Definition FEATURE_ORDER (f : Feature) : nat :=
  match kind f with
  | ContinuousInput _ => 1
  | DiscreteInput _ => 3
  | CategoricalInput _ _ => 5
  end.

(** [Feature.__lt__] *)
Definition feature_lt (self other : Feature) : bool :=
  if Nat.eqb (FEATURE_ORDER self) (FEATURE_ORDER other)
  then String.ltb (key self) (key other)
  else Nat.ltb (FEATURE_ORDER self) (FEATURE_ORDER other).

(** Python's [sorted] is stable and compares with [<] only. *)
Fixpoint insert_sorted {A} (lt : A -> A -> bool) (x : A) (l : list A) : list A :=
  match l with
  | [] => [x]
  | y :: l' => if lt y x then y :: insert_sorted lt x l' else x :: l
  end.

Definition sorted {A} (lt : A -> A -> bool) (l : list A) : list A :=
  foldr (insert_sorted lt) [] l.

Definition is_continuous (f : Feature) : bool :=
  match kind f with ContinuousInput _ => true | _ => false end.

Definition is_categorical_or_discrete (f : Feature) : bool :=
  negb (is_continuous f).

(** [Features.get(includes)]: filter by class, then sort. *)
Definition get (includes : Feature -> bool) (features : list Feature) : list Feature :=
  sorted feature_lt (List.filter includes features).

(** [Features.get_keys(includes)] *)
Definition get_keys (includes : Feature -> bool) (features : list Feature) : list string :=
  List.map key (get includes features).

Definition any_feature (f : Feature) : bool := true.

(** [Features.get_by_key]: [{f.key: f for f in self.features}[key]]; a later
    feature with the same key wins, a missing key raises [KeyError]. *)
Fixpoint find_last (k : string) (features : list Feature) : option Feature :=
  match features with
  | [] => None
  | f :: fs =>
      match find_last k fs with
      | Some g => Some g
      | None => if String.eqb (key f) k then Some f else None
      end
  end.

Definition get_by_key (k : string) (features : list Feature) : result Feature :=
  match find_last k features with
  | Some f => Ok f
  | None => Raise KeyError
  end.

(** the [bounds] attribute, which only continuous inputs carry *)
Definition bounds_of (f : Feature) : result (Q * Q) :=
  match kind f with
  | ContinuousInput b => Ok b
  | _ => Raise AttributeError
  end.

End Features.

(** ** Constraints and domains ([bofire.data_models]) *)

Module Constraints.

(** The constraint classes; [F] is the type of floating point numbers.
    [features] of a nonlinear constraint may be unset ([None]). *)
Inductive Constraint (F : Type) : Type :=
| LinearEqualityConstraint (features : list string) (coefficients : list F) (rhs : F)
| LinearInequalityConstraint (features : list string) (coefficients : list F) (rhs : F)
| NonlinearEqualityConstraint (expression : string) (features : option (list string))
    (jacobian_expression : option string)
| NonlinearInequalityConstraint (expression : string) (features : option (list string))
    (jacobian_expression : option string)
| NChooseKConstraint (features : list string) (min_count max_count : Z)
    (none_also_valid : bool)
| InterpointEqualityConstraint (feature : string).

Arguments LinearEqualityConstraint {F}.
Arguments LinearInequalityConstraint {F}.
Arguments NonlinearEqualityConstraint {F}.
Arguments NonlinearInequalityConstraint {F}.
Arguments NChooseKConstraint {F}.
Arguments InterpointEqualityConstraint {F}.

Definition is_nchoosek {F} (c : Constraint F) : bool :=
  match c with NChooseKConstraint _ _ _ _ => true | _ => false end.

(** [c.features] of an NChooseK constraint *)
Definition nchoosek_features {F} (c : Constraint F) : list string :=
  match c with NChooseKConstraint fs _ _ _ => fs | _ => [] end.

Definition nchoosek_max_count {F} (c : Constraint F) : Z :=
  match c with NChooseKConstraint _ _ mx _ => mx | _ => 0%Z end.

Record Domain (F : Type) : Type := mkDomain {
  inputs : list Features.Feature;
  constraints : list (Constraint F)
}.
Arguments mkDomain {F}.
Arguments inputs {F}.
Arguments constraints {F}.

End Constraints.

#[global] Instance Q_eq_dec : EqDecision Q.
Proof. solve_decision. Defined.

#[global] Instance Constraint_eq_dec {F} `{EqDecision F} :
  EqDecision (Constraints.Constraint F).
Proof. solve_decision. Defined.

(** ** numpy and itertools helpers *)

Module Np.

(** duplicates removed, first occurrence kept *)
Fixpoint dedupe (l : list string) : list string :=
  match l with
  | [] => []
  | x :: l' => x :: List.filter (fun y => negb (String.eqb x y)) (dedupe l')
  end.

(** [np.unique] on an array of strings: the sorted distinct elements *)
Definition unique (l : list string) : list string :=
  Features.sorted String.ltb (dedupe l).

(** [itertools.combinations(l, r)], in itertools' order *)
Fixpoint combinations {A} (l : list A) (r : nat) : list (list A) :=
  match r with
  | O => [[]]
  | S r' =>
      match l with
      | [] => []
      | x :: l' => List.map (cons x) (combinations l' r') ++ combinations l' r
      end
  end.

(** [name in names] *)
Definition contains (names : list string) (name : string) : bool :=
  existsb (String.eqb name) names.

(** [[i for i, p in enumerate(keys) if p in names]] *)
Fixpoint indices_from (start : nat) (keys names : list string) : list nat :=
  match keys with
  | [] => []
  | p :: keys' =>
      if contains names p
      then start :: indices_from (S start) keys' names
      else indices_from (S start) keys' names
  end.

(** [arr[idx, :] = v] for an integer index array: every index is checked
    against the length first; one index out of range raises [IndexError]
    and nothing is written. *)
Definition set_rows {A} (arr : list A) (idx : list nat) (v : A) : result (list A) :=
  if forallb (fun k => Nat.ltb k (List.length arr)) idx
  then Ok (foldl (fun a k => <[k:=v]> a) arr idx)
  else Raise IndexError.

(** [l * n] for a Python list *)
Fixpoint list_times {A} (l : list A) (n : nat) : list A :=
  match n with
  | O => []
  | S n' => l ++ list_times l n'
  end.

End Np.

(** [for x in xs: state = body state x], stopping at the first exception. *)
Fixpoint fold_result {A S} (body : S -> A -> result S) (xs : list A) (s : S) : result S :=
  match xs with
  | [] => Ok s
  | x :: xs' => s' ← body s x; fold_result body xs' s'
  end.

(** [a > b] and [a < b] on floats *)
Definition Qgt_bool (a b : Q) : bool := negb (Qle_bool a b).
Definition Qlt_bool (a b : Q) : bool := negb (Qle_bool b a).

(** [[f(x) for x in l]], stopping at the first exception. *)
Fixpoint map_result {A B} (f : A -> result B) (l : list A) : result (list B) :=
  match l with
  | [] => Ok []
  | x :: l' => y ← f x; ys ← map_result f l'; Ok (y :: ys)
  end.

(** ** NChooseK constraints as bounds ([bofire/strategies/doe/utils.py]) *)

Module NChooseKBounds.
Import Features Constraints.

(** The body of the first pair of loops: 0 must lie within the bounds. *)
Definition check_zero_in_bounds (domain : Domain Q) (name : string) : result unit :=
  input ← get_by_key name (inputs domain);
  b ← bounds_of input;
  if Qgt_bool (fst b) 0 || Qgt_bool 0 (snd b) then Raise ValueError else Ok tt.

(** The body of the second group of loops: the names of two constraints
    that compare unequal must not overlap. *)
Definition check_disjoint (c _c : Constraint Q) : result unit :=
  if bool_decide (c ≠ _c)
  then for_each (nchoosek_features c) (fun name =>
         if Np.contains (nchoosek_features _c) name then Raise ValueError else Ok tt)
  else Ok tt.

Definition check_nchoosek_constraints_as_bounds (domain : Domain Q) : result unit :=
  if Nat.eqb (List.length (constraints domain)) 0 then Ok tt else
  let nchoosek_constraints := List.filter is_nchoosek (constraints domain) in
  if Nat.eqb (List.length nchoosek_constraints) 0 then Ok tt else
  for_each nchoosek_constraints (fun c =>
    for_each (Np.unique (nchoosek_features c)) (check_zero_in_bounds domain)) ;;
  for_each nchoosek_constraints (fun c =>
    for_each nchoosek_constraints (fun _c => check_disjoint c _c)).

Section WithShuffle.

(** [np.random.shuffle] draws from numpy's global generator: the state of
    the generator is threaded through, the permutation it picks is a
    parameter. *)
Variable rng : Type.
Variable shuffle : rng -> list (list nat) -> list (list nat) * rng.

(** One pass of [for i in range(n_experiments)].  [r] is [n_inactive]:
    [np.array] of a list of empty tuples is an array of floats, which numpy
    refuses as an index ([IndexError]). *)
Definition pin_experiment (ind : list (list nat)) (r D : nat)
    (bounds : list (Q * Q)) (i : nat) : result (list (Q * Q)) :=
  if Nat.eqb (List.length ind) 0 then Raise ZeroDivisionError else
  let ind_vanish := List.nth (i mod List.length ind) ind [] in
  if Nat.eqb r 0 then Raise IndexError
  else Np.set_rows bounds (List.map (fun k => k + i * D) ind_vanish) (0, 0)%Q.

(** The body of [for constraint in domain.constraints]. *)
Definition pin_constraint (domain : Domain Q) (n_experiments : nat)
    (st : rng * list (Q * Q)) (constraint : Constraint Q)
    : result (rng * list (Q * Q)) :=
  if is_nchoosek constraint then
    let n_inactive :=
      (Z.of_nat (List.length (nchoosek_features constraint))
       - nchoosek_max_count constraint)%Z in
    let ind := Np.indices_from 0 (get_keys any_feature (inputs domain))
                 (nchoosek_features constraint) in
    if (n_inactive <? 0)%Z then Raise ValueError else
    let r := Z.to_nat n_inactive in
    let '(ind, g) := shuffle (fst st) (Np.combinations ind r) in
    bounds ← fold_result (pin_experiment ind r (List.length (inputs domain)))
               (seq 0 n_experiments) (snd st);
    Ok (g, bounds)
  else Ok st.

Definition nchoosek_constraints_as_bounds (g : rng) (domain : Domain Q)
    (n_experiments : nat) : result (rng * list (Q * Q)) :=
  check_nchoosek_constraints_as_bounds domain ;;
  let bounds :=
    Np.list_times
      (omap (fun p => match kind p with ContinuousInput b => Some b | _ => None end)
         (get is_continuous (inputs domain)))
      n_experiments in
  if Nat.ltb 0 (List.length (constraints domain))
  then fold_result (pin_constraint domain n_experiments) (constraints domain) (g, bounds)
  else Ok (g, bounds).

End WithShuffle.

End NChooseKBounds.

(** ** Constraints as scipy constraints ([bofire/strategies/doe/utils.py]) *)

Module ScipyConstraints.
Import Features Constraints.

Section WithFloat.

(** Floating point numbers with the operations the transformer uses.
    [linalg_norm] is [np.linalg.norm], [searchsorted] is [np.searchsorted]. *)
Variable F : Type.
Variables zero one neg_inf : F.
Variables mul div : F -> F -> F.
Variable linalg_norm : list F -> F.
Variable searchsorted : list string -> list string -> list nat.

Definition np_ones (n : nat) : list F := replicate n one.
Definition np_zeros (n : nat) : list F := replicate n zero.

(** [class ConstraintWrapper], the attributes set by [__init__] *)
Record ConstraintWrapper : Type := mkWrapper {
  constraint : Constraint F;
  names : list string;
  D : nat;
  n_experiments : nat;
  constraint_feature_indices : list nat
}.

(** [c.features] as [ConstraintWrapper.__init__] reads it *)
Definition features_attr (c : Constraint F) : option (list string) :=
  match c with
  | LinearEqualityConstraint fs _ _ => Some fs
  | LinearInequalityConstraint fs _ _ => Some fs
  | NonlinearEqualityConstraint _ fs _ => fs
  | NonlinearInequalityConstraint _ fs _ => fs
  | NChooseKConstraint fs _ _ _ => Some fs
  | InterpointEqualityConstraint f => Some [f]
  end.

(** [ConstraintWrapper.__init__] *)
Definition new_wrapper (c : Constraint F) (domain : Domain F) (n : nat)
    : result ConstraintWrapper :=
  let names := get_keys any_feature (inputs domain) in
  match features_attr c with
  | None => Raise ValueError
  | Some fs =>
      Ok (mkWrapper c names (List.length (inputs domain)) n (searchsorted names fs))
  end.

(** What scipy's constructors are given. [jac] tells whether the wrapper's
    [jacobian] method was passed. *)
Inductive ScipyConstraint : Type :=
| LinearConstraint (A : list (list F)) (lb ub : list F)
| NonlinearConstraint (fn : ConstraintWrapper) (lb ub : list F) (jac : bool).

(** [{c.features[i]: c.coefficients[i] / norm for i in range(len(c.features))}]:
    a later entry for the same feature replaces an earlier one, a missing
    coefficient raises [IndexError]. *)
Fixpoint build_lhs (features : list string) (coefficients : list F) (nrm : F)
    (lhs : gmap string F) : result (gmap string F) :=
  match features with
  | [] => Ok lhs
  | name :: features' =>
      match coefficients with
      | [] => Raise IndexError
      | ci :: coefficients' =>
          build_lhs features' coefficients' nrm (<[name := div ci nrm]> lhs)
      end
  end.

(** [row = np.zeros(D)] followed by
    [for i, name in enumerate(keys): if name in lhs.keys(): row[i] = lhs[name]] *)
Definition build_row (D : nat) (keys : list string) (lhs : gmap string F) : list F :=
  foldl (fun row '(i, name) =>
           match lhs !! name with
           | Some v => <[i := v]> row
           | None => row
           end)
        (np_zeros D) (imap pair keys).

(** [r[lo:hi] = v] where [v] has [hi - lo] entries and [hi <= len(r)] *)
Definition assign_slice (r : list F) (lo hi : nat) (v : list F) : list F :=
  take lo r ++ v ++ drop hi r.

(** [A = np.zeros(shape=(n, D * n))] followed by
    [for i in range(n): A[i, i * D : (i + 1) * D] = row] *)
Definition build_A (n D : nat) (row : list F) : list (list F) :=
  foldl (fun A i => alter (fun r => assign_slice r (i * D) ((i + 1) * D) row) i A)
        (replicate n (np_zeros (D * n))) (seq 0 n).

(** The matrix of a linear constraint. *)
Definition linear_matrix (domain : Domain F) (n : nat)
    (features : list string) (coefficients : list F) : result (list (list F)) :=
  let D := List.length (inputs domain) in
  lhs ← build_lhs features coefficients (linalg_norm coefficients) ∅;
  let row := build_row D (get_keys any_feature (inputs domain)) lhs in
  Ok (build_A n D row).

(** The body of [for c in domain.constraints]; [None] when nothing is
    appended. *)
Definition transform_constraint (domain : Domain F) (n : nat) (ignore_nchoosek : bool)
    (c : Constraint F) : result (option ScipyConstraint) :=
  match c with
  | LinearEqualityConstraint features coefficients rhs =>
      let lb := List.map (fun o => mul o (div rhs (linalg_norm coefficients))) (np_ones n) in
      let ub := List.map (fun o => mul o (div rhs (linalg_norm coefficients))) (np_ones n) in
      A ← linear_matrix domain n features coefficients;
      Ok (Some (LinearConstraint A lb ub))
  | LinearInequalityConstraint features coefficients rhs =>
      let lb := List.map (mul neg_inf) (np_ones n) in
      let ub := List.map (fun o => div (mul o rhs) (linalg_norm coefficients)) (np_ones n) in
      A ← linear_matrix domain n features coefficients;
      Ok (Some (LinearConstraint A lb ub))
  | NonlinearEqualityConstraint _ _ jacobian_expression =>
      let lb := np_zeros n in
      let ub := np_zeros n in
      fn ← new_wrapper c domain n;
      Ok (Some (NonlinearConstraint fn lb ub (bool_decide (is_Some jacobian_expression))))
  | NonlinearInequalityConstraint _ _ jacobian_expression =>
      let lb := List.map (mul neg_inf) (np_ones n) in
      let ub := np_zeros n in
      fn ← new_wrapper c domain n;
      Ok (Some (NonlinearConstraint fn lb ub (bool_decide (is_Some jacobian_expression))))
  | NChooseKConstraint _ _ _ _ =>
      if ignore_nchoosek then Ok None
      else
        let lb := List.map (mul neg_inf) (np_ones n) in
        let ub := np_zeros n in
        fn ← new_wrapper c domain n;
        Ok (Some (NonlinearConstraint fn lb ub true))
  | InterpointEqualityConstraint _ => Raise NotImplementedError
  end.

Definition constraints_as_scipy_constraints (domain : Domain F) (n : nat)
    (ignore_nchoosek : bool) : result (list ScipyConstraint) :=
  if Nat.eqb (List.length (constraints domain)) 0 then Ok [] else
  fold_result (fun out c =>
                 o ← transform_constraint domain n ignore_nchoosek c;
                 Ok (match o with Some s => out ++ [s] | None => out end))
              (constraints domain) [].

End WithFloat.

End ScipyConstraints.

(** ** The wrapper for nonlinear constraints ([class ConstraintWrapper]) *)

Module Wrapper.
Import Constraints.

(** the rows of [x.reshape(nrows, D)] *)
Fixpoint reshape_rows (nrows D : nat) (x : list Q) : list (list Q) :=
  match nrows with
  | O => []
  | S k => take D x :: reshape_rows k D (drop D x)
  end.

(** [x.reshape(len(x) // D, D)] *)
Definition reshape (x : list Q) (D : nat) : result (list (list Q)) :=
  if Nat.eqb D 0 then Raise ZeroDivisionError else
  let nrows := List.length x / D in
  if Nat.eqb (nrows * D) (List.length x) then Ok (reshape_rows nrows D x)
  else Raise ValueError.

Section WithEvaluator.

(** [self.constraint(x)]: the constraint classes evaluate themselves on a
    data frame (column names and rows) and give one value per row; the
    evaluation of the user's expression may raise. *)
Variable constraint_call :
  Constraint Q -> list string -> list (list Q) -> result (list Q).

(** [violation[np.abs(violation) < 0] = 0] *)
Definition clip_violation (violation : list Q) : list Q :=
  List.map (fun v => if Qlt_bool (Qabs v) 0 then 0%Q else v) violation.

(** [ConstraintWrapper.__call__] *)
Definition call (self : ScipyConstraints.ConstraintWrapper Q) (x : list Q)
    : result (list Q) :=
  rows ← reshape x (ScipyConstraints.D Q self);
  violation ← constraint_call (ScipyConstraints.constraint Q self)
                 (ScipyConstraints.names Q self) rows;
  Ok (clip_violation violation).

(** The row-wise evaluation of the constraint on the reshaped design. *)
Definition raw_evaluation (self : ScipyConstraints.ConstraintWrapper Q) (x : list Q)
    : result (list Q) :=
  rows ← reshape x (ScipyConstraints.D Q self);
  constraint_call (ScipyConstraints.constraint Q self)
    (ScipyConstraints.names Q self) rows.

End WithEvaluator.

End Wrapper.

(** ** Optimality metrics ([bofire/strategies/doe/utils.py]) *)

Module Optimality.

(** A two-dimensional array as the list of its rows, all of one length;
    the arrays here have at least one row. *)
Definition matrix : Type := list (list Q).

Definition nrows (X : matrix) : nat := List.length X.
Definition ncols (X : matrix) : nat :=
  match X with
  | [] => 0
  | r :: _ => List.length r
  end.

Definition entry (X : matrix) (i j : nat) : Q := List.nth j (List.nth i X []) 0%Q.

Definition tabulate (r c : nat) (f : nat -> nat -> Q) : matrix :=
  List.map (fun i => List.map (f i) (seq 0 c)) (seq 0 r).

(** [X.T] *)
Definition transpose (X : matrix) : matrix :=
  tabulate (ncols X) (nrows X) (fun i j => entry X j i).

Definition dot (u v : list Q) : Q :=
  fold_right Qplus 0%Q (zip_with Qmult u v).

(** [A @ B]: the inner dimensions must agree. *)
Definition matmul (A B : matrix) : result matrix :=
  if Nat.eqb (ncols A) (nrows B)
  then Ok (tabulate (nrows A) (ncols B)
             (fun i j => dot (List.nth i A []) (List.map (fun r => List.nth j r 0%Q) B)))
  else Raise ValueError.

(** [np.eye(n)] *)
Definition eye (n : nat) : matrix :=
  tabulate n n (fun i j => if Nat.eqb i j then 1%Q else 0%Q).

(** [delta * A] *)
Definition scale (delta : Q) (A : matrix) : matrix :=
  List.map (List.map (Qmult delta)) A.

(** numpy's broadcasting of one dimension: equal, or one of them is 1 *)
Definition broadcast_dim (a b : nat) : option nat :=
  if Nat.eqb a b then Some a
  else if Nat.eqb a 1 then Some b
  else if Nat.eqb b 1 then Some a
  else None.

Definition broadcast_entry (A : matrix) (i j : nat) : Q :=
  entry A (if Nat.eqb (nrows A) 1 then 0 else i) (if Nat.eqb (ncols A) 1 then 0 else j).

(** [A + B] with broadcasting; shapes that cannot be broadcast together
    raise [ValueError]. *)
Definition add (A B : matrix) : result matrix :=
  match broadcast_dim (nrows A) (nrows B), broadcast_dim (ncols A) (ncols B) with
  | Some r, Some c =>
      Ok (tabulate r c (fun i j => (broadcast_entry A i j + broadcast_entry B i j)%Q))
  | _, _ => Raise ValueError
  end.

(** [np.diag(H)] *)
Definition diag (H : matrix) : list Q :=
  List.map (fun i => entry H i i) (seq 0 (Nat.min (nrows H) (ncols H))).

(** [np.max] of a one-dimensional array; an empty one raises [ValueError]. *)
Definition np_max (v : list Q) : result Q :=
  match v with
  | [] => Raise ValueError
  | x :: v' => Ok (fold_left (fun m y => if Qle_bool m y then y else m) v' x)
  end.

Section WithInverse.

(** [np.linalg.inv]; raises [LinAlgError] on a singular or non-square
    argument. *)
Variable linalg_inv : matrix -> result matrix.

(** [g_optimality]:
    [H = X @ np.linalg.inv(X.T @ X + delta * np.eye(len(X))) @ X.T] *)
Definition g_optimality (X : matrix) (delta : Q) : result Q :=
  XtX ← matmul (transpose X) X;
  M ← add XtX (scale delta (eye (List.length X)));
  Minv ← linalg_inv M;
  XM ← matmul X Minv;
  H ← matmul XM (transpose X);
  np_max (diag H).

(** The hat matrix of the specification: the identity has the dimension of
    [X.T @ X], the number of model terms. *)
Definition g_optimality_spec (X : matrix) (delta : Q) : result Q :=
  XtX ← matmul (transpose X) X;
  M ← add XtX (scale delta (eye (ncols X)));
  Minv ← linalg_inv M;
  XM ← matmul X Minv;
  H ← matmul XM (transpose X);
  np_max (diag H).

End WithInverse.

(** The inverse of a 2 x 2 matrix by its adjugate, used to evaluate the
    specification's formula on an example. *)
Definition inv2 (M : matrix) : result matrix :=
  match M with
  | [[a; b]; [c; d]] =>
      let det := (a * d - b * c)%Q in
      if Qeq_bool det 0 then Raise LinAlgError
      else Ok [[(d / det)%Q; (- b / det)%Q]; [(- c / det)%Q; (a / det)%Q]]
  | _ => Raise LinAlgError
  end.

End Optimality.

(** ** The formula builder ([get_formula_from_string] and its helpers) *)

Module Formulas.
Import Features Constraints.

(** the four model keywords *)
Definition KEYWORDS : list string :=
  ["linear"; "linear-and-quadratic"; "linear-and-interactions"; "fully-quadratic"].

(** [keys[i]] for an index within range *)
Definition key_at (keys : list string) (i : nat) : string := List.nth i keys "".

(** ["".join([input.key + " + " for input in domain.inputs])] *)
Definition main_effects (d : Domain Q) : string :=
  String.concat "" (List.map (fun input => key input +:+ " + ") (inputs d)).

(** ["".join(["{" + input.key + "**2} + " for input in domain.inputs])] *)
Definition squares (d : Domain Q) : string :=
  String.concat "" (List.map (fun input => "{" +:+ key input +:+ "**2} + ") (inputs d)).

(** the double loop [for i in range(len(domain.inputs)): for j in range(i)] *)
Definition interactions (d : Domain Q) : string :=
  let keys := get_keys any_feature (inputs d) in
  String.concat ""
    (List.flat_map
       (fun i => List.map (fun j => key_at keys j +:+ ":" +:+ key_at keys i +:+ " + ") (seq 0 i))
       (seq 0 (List.length (inputs d)))).

Definition linear_formula (domain : option (Domain Q)) : result string :=
  match domain with
  | None => Raise AssertionError
  | Some d => Ok (main_effects d)
  end.

Definition linear_and_quadratic_formula (domain : option (Domain Q)) : result string :=
  match domain with
  | None => Raise AssertionError
  | Some d => Ok (main_effects d +:+ squares d)
  end.

Definition linear_and_interactions_formula (domain : option (Domain Q)) : result string :=
  match domain with
  | None => Raise AssertionError
  | Some d => Ok (main_effects d +:+ interactions d)
  end.

Definition fully_quadratic_formula (domain : option (Domain Q)) : result string :=
  match domain with
  | None => Raise AssertionError
  | Some d => Ok (main_effects d +:+ interactions d +:+ squares d)
  end.

(** [formula[:-3]] *)
Definition drop_last3 (s : string) : string :=
  String.substring 0 (String.length s - 3) s.

Section WithFormulaic.

(** The [formulaic] library: [Formula(...)] parses a string and raises on
    one that is not a formula; [rhs_attr] is the [rhs] attribute where a
    formula has one. *)
Variable Formula : Type.
Variable parse : string -> result Formula.
Variable rhs_attr : Formula -> option Formula.

(** [Union[str, Formula]] *)
Inductive ModelType : Type :=
| Str (s : string)
| Obj (f : Formula).

Definition get_formula_from_string (model_type : ModelType)
    (domain : option (Domain Q)) (rhs_only : bool) : result Formula :=
  match model_type with
  | Obj f => Ok f
  | Str s =>
      formula ← (if String.eqb s "linear" then linear_formula domain
                 else if String.eqb s "linear-and-quadratic"
                      then linear_and_quadratic_formula domain
                 else if String.eqb s "linear-and-interactions"
                      then linear_and_interactions_formula domain
                 else if String.eqb s "fully-quadratic"
                      then fully_quadratic_formula domain
                 else Ok (s +:+ "   "));
      formula ← parse (drop_last3 formula);
      Ok (if rhs_only
          then match rhs_attr formula with Some r => r | None => formula end
          else formula)
  end.

End WithFormulaic.

End Formulas.

(** ** Conversion to float *)

Module PyFloat.

(** The exponent of the leading bit of a positive number:
    [2^k <= q < 2^(k+1)]. *)
Definition ilog2 (q : Q) : Z :=
  let k := (Z.log2 (Qnum q) - Z.log2 (Zpos (Qden q)))%Z in
  if Qle_bool (Qpower 2 k) q then k else (k - 1)%Z.

(** The nearest integer, a tie going to the even one. *)
Definition round_half_even (q : Q) : Z :=
  let f := Qfloor q in
  match Qcompare (q - inject_Z f) (1 # 2) with
  | Lt => f
  | Gt => (f + 1)%Z
  | Eq => if Z.even f then f else (f + 1)%Z
  end.

(** [float(v)] of an int, a float or a fraction: the nearest double (53
    bits of mantissa, exponents down to that of the subnormal numbers), a
    tie going to the even mantissa; a number that rounds beyond the largest
    double raises [OverflowError].  A double is its own image. *)
Definition to_float (v : Q) : result Q :=
  if Qeq_bool v 0 then Ok 0%Q else
  let a := Qabs v in
  let e := Z.max (ilog2 a - 52) (-1074) in
  let r := (inject_Z (round_half_even (a / Qpower 2 e)) * Qpower 2 e)%Q in
  if Qle_bool (Qpower 2 1024) r then Raise OverflowError
  else Ok (Qred (if Qlt_bool v 0 then - r else r)%Q).

End PyFloat.

(** ** Discrete inputs ([class DiscreteInput]) *)

Module Discrete.

(** the elements of [set(values)]: one representative of each number *)
Fixpoint distinct (values : list Q) : list Q :=
  match values with
  | [] => []
  | v :: values' => v :: List.filter (fun w => negb (Qeq_bool v w)) (distinct values')
  end.

(** [DiscreteInput.validate_values_unique] *)
Definition validate_values_unique (values : list Q) : result (list Q) :=
  if negb (Nat.eqb (List.length values) (List.length (distinct values)))
  then Raise ValueError
  else Ok (Features.sorted Qlt_bool values).

(** [DiscreteInput(key=..., values=...)]: the field type
    [conlist(item_type=float, min_items=1)] rejects an empty list (pydantic's
    validation error is a [ValueError]) and converts every item to a float,
    then the validator runs on the floats. *)
Definition new (key : string) (values : list Q) : result Features.Feature :=
  if Nat.eqb (List.length values) 0 then Raise ValueError else
  values ← map_result PyFloat.to_float values;
  values ← validate_values_unique values;
  Ok (Features.mkFeature key (Features.DiscreteInput values)).

End Discrete.

(** ** Python dicts and pandas data frames *)

Module Pandas.

(** A dict literal, comprehension or item assignment: a repeated key keeps
    its place and takes the later value. *)
Fixpoint dict_set {V} (d : list (string * V)) (k : string) (v : V) : list (string * V) :=
  match d with
  | [] => [(k, v)]
  | (k', v') :: d' => if String.eqb k' k then (k', v) :: d' else (k', v') :: dict_set d' k v
  end.

(** [k in d.keys()] *)
Definition dict_has {V} (d : list (string * V)) (k : string) : bool :=
  existsb (fun kv => String.eqb (fst kv) k) d.

(** A data frame with cells of type [C]: the length of its index and its
    labelled columns, in order. *)
Record DataFrame (C : Type) : Type := mkFrame {
  n_rows : nat;
  columns : list (string * list C)
}.
Arguments mkFrame {C}.
Arguments n_rows {C}.
Arguments columns {C}.

End Pandas.

(** ** One-hot encoding of categorical inputs ([class CategoricalInput]) *)

Module OneHot.
Import Pandas.

Definition _CAT_SEP : ascii := "_"%char.

(** [f"{self.key}{_CAT_SEP}{c}"] *)
Definition column_name (key c : string) : string :=
  key +:+ String _CAT_SEP c.

(** whether the separator occurs in a key or category *)
Fixpoint has_sep (s : string) : bool :=
  match s with
  | EmptyString => false
  | String a s' => Ascii.eqb a _CAT_SEP || has_sep s'
  end.

(** the column [values == c] as floats *)
Definition indicator (c : string) (values : list string) : list Q :=
  List.map (fun v => if String.eqb v c then 1%Q else 0%Q) values.

(** [CategoricalInput.to_onehot_encoding] *)
Definition to_onehot_encoding (key : string) (categories : list string)
    (values : list string) : DataFrame Q :=
  mkFrame (List.length values)
    (foldl (fun d c => dict_set d (column_name key c) (indicator c values))
           [] categories).

(** [label in values.columns] *)
Definition has_column (df : DataFrame Q) (label : string) : bool :=
  dict_has (columns df) label.

(** [values[label]] for a label that is present *)
Definition column (df : DataFrame Q) (label : string) : list Q :=
  match List.find (fun kv => String.eqb (fst kv) label) (columns df) with
  | Some kv => snd kv
  | None => []
  end.

(** One row of [idxmax(1)]: the label of the first column that holds the
    maximum of the row. *)
Fixpoint idxmax_from (best_label : string) (best : Q) (row : list (string * Q)) : string :=
  match row with
  | [] => best_label
  | (l, v) :: row' =>
      if Qle_bool v best then idxmax_from best_label best row'
      else idxmax_from l v row'
  end.

Definition idxmax (row : list (string * Q)) : result string :=
  match row with
  | [] => Raise ValueError
  | (l, v) :: row' => Ok (idxmax_from l v row')
  end.

(** [str.split(sep)] *)
Fixpoint split_acc (sep : ascii) (s : string) (piece : string) : list string :=
  match s with
  | EmptyString => [piece]
  | String a s' =>
      if Ascii.eqb a sep then piece :: split_acc sep s' ""
      else split_acc sep s' (piece +:+ String a "")
  end.

Definition split (sep : ascii) (s : string) : list string := split_acc sep s "".

(** [CategoricalInput.from_onehot_encoding].  Every selected label holds the
    separator, so the pieces of a label always have an entry 1; on a frame
    without rows [idxmax(1)] has nothing to take a maximum of and raises
    [ValueError]. *)
Definition from_onehot_encoding (key : string) (categories : list string)
    (values : DataFrame Q) : result (list string) :=
  let cat_cols := List.map (column_name key) categories in
  if existsb (fun c => negb (has_column values c)) cat_cols then Raise ValueError else
  if Nat.eqb (n_rows values) 0 then Raise ValueError else
  labels ← map_result
             (fun i => idxmax (List.map (fun c => (c, List.nth i (column values c) 0%Q)) cat_cols))
             (seq 0 (n_rows values));
  Ok (List.map (fun l => List.nth 1 (split _CAT_SEP l) "") labels).

End OneHot.

(** ** Linear constraints in index form ([bofire/utils/torch_tools.py]) *)

Module TorchTools.
Import Features Constraints.

(** [(indices, coefficients, rhs)] *)
Definition lin : Type := (list nat * list Q * Q)%type.

Definition list_min (vs : list Q) : Q :=
  match vs with
  | [] => 0%Q
  | v :: vs' => fold_left (fun m y => if Qle_bool y m then y else m) vs' v
  end.

Definition list_max (vs : list Q) : Q :=
  match vs with
  | [] => 0%Q
  | v :: vs' => fold_left (fun m y => if Qle_bool m y then y else m) vs' v
  end.

(** [feat.is_fixed()] *)
Definition is_fixed (f : Feature) : bool :=
  match kind f with
  | ContinuousInput (lo, hi) => Qeq_bool lo hi
  | DiscreteInput vs => Qeq_bool (list_min vs) (list_max vs)
  | CategoricalInput _ allowed => Nat.eqb (List.length (List.filter id allowed)) 1
  end.

(** [feat.lower_bound], which categorical inputs do not have *)
Definition lower_bound (f : Feature) : result Q :=
  match kind f with
  | ContinuousInput (lo, _) => Ok lo
  | DiscreteInput vs => Ok (list_min vs)
  | CategoricalInput _ _ => Raise AttributeError
  end.

Definition upper_bound (f : Feature) : result Q :=
  match kind f with
  | ContinuousInput (_, hi) => Ok hi
  | DiscreteInput vs => Ok (list_max vs)
  | CategoricalInput _ _ => Raise AttributeError
  end.

(** [feat.fixed_value() * coefficient] for a fixed feature; the fixed value
    of a categorical input is a string, which a float cannot multiply *)
Definition fixed_times (f : Feature) (coefficient : Q) : result Q :=
  match kind f with
  | CategoricalInput _ _ => Raise TypeError
  | _ => lo ← lower_bound f; Ok (lo * coefficient)%Q
  end.

(** [keys.index(k)] *)
Fixpoint index_of (k : string) (keys : list string) : result nat :=
  match keys with
  | [] => Raise ValueError
  | k' :: keys' => if String.eqb k' k then Ok 0 else i ← index_of k keys'; Ok (S i)
  end.

(** [l[i]] *)
Definition item {A} (l : list A) (i : nat) : result A :=
  match l !! i with
  | Some x => Ok x
  | None => Raise IndexError
  end.

(** The body of [for i, featkey in enumerate(c.features)]. *)
Definition lin_step (domain : Domain Q) (coefficients : list Q)
    (st : list nat * list Q * Q) (ik : nat * string) : result (list nat * list Q * Q) :=
  let '(indices, coeffs, rhs) := st in
  let '(i, featkey) := ik in
  idx ← index_of featkey (get_keys any_feature (inputs domain));
  feat ← get_by_key featkey (inputs domain);
  if is_fixed feat then
    ci ← item coefficients i;
    v ← fixed_times feat ci;
    Ok (indices, coeffs, (rhs - v)%Q)
  else
    _ ← lower_bound feat;
    _ ← upper_bound feat;
    ci ← item coefficients i;
    Ok (indices ++ [idx], coeffs ++ [ci], rhs).

(** the linear constraints of one class *)
Definition linear_parts (equality : bool) (c : Constraint Q)
    : option (list string * list Q * Q) :=
  match c with
  | LinearEqualityConstraint fs cs rhs => if equality then Some (fs, cs, rhs) else None
  | LinearInequalityConstraint fs cs rhs => if equality then None else Some (fs, cs, rhs)
  | _ => None
  end.

(** [get_linear_constraints(domain, constraint, unit_scaled=False)] *)
Definition get_linear_constraints (domain : Domain Q) (equality : bool) : result (list lin) :=
  fold_result
    (fun out c =>
       let '(fs, cs, c_rhs) := c in
       '(indices, coeffs, rhs) ← fold_result (lin_step domain cs) (imap pair fs) ([], [], 0%Q);
       Ok (out ++ [(indices, coeffs, (- (rhs + c_rhs))%Q)]))
    (omap (linear_parts equality) (constraints domain)) [].

End TorchTools.

(** ** The polytope sampler ([bofire/strategies/polytope.py]) *)

Module Polytope.
Import Features Constraints Pandas TorchTools.

(** the two [warnings.warn] calls of [_sample_from_polytope] *)
Inductive Warning : Type :=
| NothingToSample      (* "Nothing to sample, all is fixed. ..." *)
| CandidatesNotUnique. (* "Generated candidates are not unique!" *)

Inductive cell : Type :=
| Num (q : Q)
| Level (s : string)
| NaN
| Infinite (negative : bool).

(** A Python float that need not be finite. *)
Inductive number : Type :=
| Real (q : Q)
| Inf (negative : bool)
| Nan.

Definition cell_of (x : number) : cell :=
  match x with
  | Real q => Num q
  | Inf negative => Infinite negative
  | Nan => NaN
  end.

(** Python objects that are shared and mutated: features and domains live
    in a store and are referred to by their location. *)
Inductive object : Type :=
| FeatureObj (f : Feature)
| DomainObj (inputs : list positive) (constraints : list (Constraint Q)).

(** [class PolytopeSampler]: the attributes the sampler reads *)
Record Sampler : Type := mkSampler {
  domain : positive;
  n_burnin : nat;
  n_thinning : nat
}.

(** The domain at a location as a value: its features in order and its
    constraints. *)
Definition read_feature (h : gmap positive object) (l : positive) : option Feature :=
  match h !! l with
  | Some (FeatureObj f) => Some f
  | _ => None
  end.

Definition view (h : gmap positive object) (d : positive) : option (Domain Q) :=
  match h !! d with
  | Some (DomainObj ins cs) => fs ← mapM (read_feature h) ins; Some (mkDomain fs cs)
  | _ => None
  end.

(** The objects a domain consists of. *)
Definition footprint (h : gmap positive object) (d : positive) : list positive :=
  match h !! d with
  | Some (DomainObj ins _) => d :: ins
  | _ => [d]
  end.

(** [domain.inputs.get_by_key(key)] on the store: the location of the last
    input with that key. *)
Fixpoint find_loc (h : gmap positive object) (k : string) (ins : list positive)
    : option positive :=
  match ins with
  | [] => None
  | l :: ins' =>
      match find_loc h k ins' with
      | Some l' => Some l'
      | None =>
          match read_feature h l with
          | Some f => if String.eqb (key f) k then Some l else None
          | None => None
          end
      end
  end.

(** the number of distinct rows, [candidates.unique(dim=0).shape[0]] *)
Definition row_eqb (r1 r2 : list Q) : bool :=
  Nat.eqb (List.length r1) (List.length r2) && forallb id (zip_with Qeq_bool r1 r2).

Fixpoint unique_rows (rows : list (list Q)) : list (list Q) :=
  match rows with
  | [] => []
  | r :: rows' => r :: List.filter (fun r' => negb (row_eqb r r')) (unique_rows rows')
  end.

(** [pd.DataFrame(data=np.nan, index=range(n), columns=keys)] *)
Definition nan_frame (n : nat) (keys : list string) : DataFrame cell :=
  mkFrame n (foldl (fun d k => dict_set d k (replicate n NaN)) [] keys).

(** [pd.DataFrame(data=candidates, index=range(n), columns=labels)]; pandas
    raises [ValueError] when the shape of the data is not [(n, len(labels))]. *)
Definition frame_of_rows (n : nat) (labels : list string) (rows : list (list Q))
    : result (DataFrame cell) :=
  if Nat.eqb (List.length rows) n
     && forallb (fun r => Nat.eqb (List.length r) (List.length labels)) rows
  then Ok (mkFrame n
             (foldl (fun d jl => dict_set d (snd jl)
                                   (List.map (fun r => Num (List.nth (fst jl) r 0%Q)) rows))
                    [] (imap pair labels)))
  else Raise ValueError.

(** [samples[label] = column] *)
Definition set_column (samples : DataFrame cell) (label : string) (col : list cell)
    : DataFrame cell :=
  mkFrame (n_rows samples) (dict_set (columns samples) label col).

(** What [_sample_from_polytope] computes before it decides whether there is
    anything to sample. *)
Record Prepared : Type := mkPrepared {
  fixed_features : list (string * number);
  cleaned_eqs : list lin;
  fixed_features_indices : list (nat * number);
  ineqs : list lin;
  interpoints : list lin;
  lower : list Q;
  upper : list Q
}.

(** [{feat.key: feat.fixed_value()[0] for feat in inputs.get(ContinuousInput)
      if feat.is_fixed()}] *)
Definition fixed_by_bounds (d : Domain Q) : list (string * number) :=
  foldl (fun dict feat =>
           match kind feat with
           | ContinuousInput (lo, _) =>
               if is_fixed feat then dict_set dict (key feat) (Real lo) else dict
           | _ => dict
           end)
        [] (get is_continuous (inputs d)).

(** Modelled from the spec: [get_linear_constraints(domain, constraint,
    unit_scaled=False)] in the version that [polytope.py] imports next to
    [get_interpoint_constraints], which is not among the sources; the
    function of that name in [bofire/utils/torch_tools.py] reads the domain
    through the earlier interface.  A pseudo-fixed feature is a linear
    equality constraint reducing to a single free coefficient, which
    constrains exactly one variable to an exact value: the loop over the
    features is the one above, and the triple of a constraint holds the
    indices of its free features, their coefficients negated and
    [-(rhs + c.rhs)], so that [eq[2] / eq[1][0]] is the value the equality
    leaves to the feature. *)
Definition get_linear_constraints (domain : Domain Q) (equality : bool)
    : result (list lin) :=
  triples ← TorchTools.get_linear_constraints domain equality;
  Ok (List.map (fun t : lin => (fst (fst t), List.map Qopp (snd (fst t)), snd t)) triples).

(** [float(rhs / c)] on doubles.  A coefficient [0.0] arrives negated, as
    [-0.0]: the quotient is then the infinity of the sign opposite to [rhs],
    and [nan] where [rhs] is zero as well. *)
Definition divide (rhs c : Q) : number :=
  if Qeq_bool c 0 then
    if Qeq_bool rhs 0 then Nan else Inf (Qlt_bool 0 rhs)
  else Real (rhs / c)%Q.

(** The body of [for eq in eqs]: an equality with one coefficient left fixes
    its feature. *)
Definition fold_eq (d : Domain Q) (st : list (string * number) * list lin) (eq : lin)
    : result (list (string * number) * list lin) :=
  let '(fixed, cleaned) := st in
  let '(indices, coeffs, rhs) := eq in
  if Nat.eqb (List.length indices) 1 then
    i ← item indices 0;
    k ← item (get_keys is_continuous (inputs d)) i;
    c0 ← item coeffs 0;
    Ok (dict_set fixed k (divide rhs c0), cleaned)
  else Ok (fixed, cleaned ++ [eq]).

(** the features among the continuous ones whose key is not fixed *)
Definition free_features (d : Domain Q) (fixed : list (string * number)) : list Feature :=
  List.filter (fun feat => negb (dict_has fixed (key feat))) (get is_continuous (inputs d)).

Section WithSamplers.

(** The random generator of the strategy and the library calls. *)
Variable rng : Type.
(** [self._get_seed()] *)
Variable next_seed : rng -> nat * rng.
(** [self.rng.choice(population, size=size, replace=False)] *)
Variable rng_choice : rng -> nat -> nat -> list nat * rng.
(** [domain.inputs.sample(n, method, seed=seed)] *)
Variable inputs_sample : list Feature -> nat -> nat -> result (DataFrame cell).
(** [get_interpoint_constraints(domain, n_candidates)] *)
Variable get_interpoint_constraints : Domain Q -> nat -> list lin.
(** botorch's [_generate_unfixed_lin_constraints(constraints, eq, fixed_features, dimension)] *)
Variable generate_unfixed_lin_constraints :
  list lin -> bool -> list (nat * number) -> nat -> result (list lin).
(** botorch's [sample_q_batches_from_polytope(n=1, q, bounds, inequality_constraints,
    equality_constraints, n_burnin, thinning, seed).squeeze(dim=0)] *)
Variable sample_q_batches_from_polytope :
  nat -> list Q * list Q -> option (list lin) -> option (list lin) ->
  nat -> nat -> nat -> result (list (list Q)).
(** [feat.sample(n, seed=seed)] of a categorical or discrete input *)
Variable feat_sample : Feature -> nat -> nat -> list cell.
(** [domain.get_nchoosek_combinations()[1]], the unused features per combination *)
Variable get_nchoosek_combinations : Domain Q -> list (list string).
(** [pd.concat(samples, axis=0, ignore_index=True).sample(n=..., replace=False,
    ignore_index=True, random_state=seed)] *)
Variable concat_sample : list (DataFrame cell) -> nat -> nat -> result (DataFrame cell).

(** The state a call threads through: the store, the generator and the
    warnings issued so far. *)
Record state : Type := mkState {
  heap : gmap positive object;
  gen : rng;
  warnings : list Warning
}.

Definition M (A : Type) : Type := state -> state * result A.

Definition ret {A} (a : A) : M A := fun st => (st, Ok a).

Definition bind {A B} (m : M A) (k : A -> M B) : M B := fun st =>
  match m st with
  | (st', Ok a) => k a st'
  | (st', Raise e) => (st', Raise e)
  end.

#[local] Instance M_ret : MRet M := @ret.
#[local] Instance M_bind : MBind M := fun A B k m => bind m k.

Definition lift {A} (r : result A) : M A := fun st => (st, r).

Definition warn (w : Warning) : M unit := fun st =>
  (mkState (heap st) (gen st) (warnings st ++ [w]), Ok tt).

Definition _get_seed : M nat := fun st =>
  let '(seed, g) := next_seed (gen st) in
  (mkState (heap st) g (warnings st), Ok seed).

Definition choice (population size : nat) : M (list nat) := fun st =>
  let '(idx, g) := rng_choice (gen st) population size in
  (mkState (heap st) g (warnings st), Ok idx).

(** [self.domain] read as a value *)
Definition read_domain (d : positive) : M (Domain Q) := fun st =>
  match view (heap st) d with
  | Some v => (st, Ok v)
  | None => (st, Raise AttributeError)
  end.

Fixpoint fold_M {A S} (body : S -> A -> M S) (xs : list A) (s : S) : M S :=
  match xs with
  | [] => ret s
  | x :: xs' => s' ← body s x; fold_M body xs' s'
  end.

Fixpoint map_M {A B} (f : A -> M B) (xs : list A) : M (list B) :=
  match xs with
  | [] => ret []
  | x :: xs' => y ← f x; ys ← map_M f xs'; ret (y :: ys)
  end.

(** The statements of [_sample_from_polytope] from [eqs = ...] to
    [upper = ...]. *)
Definition prepare (d : Domain Q) (n : nat) : result Prepared :=
  eqs ← get_linear_constraints d true;
  '(fixed, cleaned) ← fold_result (fold_eq d) eqs (fixed_by_bounds d, []);
  idx ← map_result
          (fun kv => i ← index_of (fst kv) (get_keys is_continuous (inputs d)); Ok (i, snd kv))
          fixed;
  ineqs ← get_linear_constraints d false;
  let interpoints := get_interpoint_constraints d n in
  lower ← map_result lower_bound (free_features d fixed);
  upper ← map_result upper_bound (free_features d fixed);
  Ok (mkPrepared fixed cleaned idx ineqs interpoints lower upper).

(** The hit-and-run branch up to [candidates = ...]. *)
Definition draw_candidates (self : Sampler) (d : Domain Q) (p : Prepared) (n : nat)
    : M (list (list Q)) :=
  let dimension := List.length (get is_continuous (inputs d)) in
  unfixed_ineqs ← lift (generate_unfixed_lin_constraints (ineqs p) false
                          (fixed_features_indices p) dimension);
  unfixed_eqs ← lift (generate_unfixed_lin_constraints (cleaned_eqs p) true
                        (fixed_features_indices p) dimension);
  unfixed_interpoints ← lift (generate_unfixed_lin_constraints (interpoints p) true
                                (fixed_features_indices p) dimension);
  let combined_eqs := unfixed_eqs ++ unfixed_interpoints in
  seed ← _get_seed;
  lift (sample_q_batches_from_polytope n (lower p, upper p)
          (if Nat.ltb 0 (List.length unfixed_ineqs) then Some unfixed_ineqs else None)
          (if Nat.ltb 0 (List.length combined_eqs) then Some combined_eqs else None)
          (n_burnin self) (n_thinning self) seed).

(** The hit-and-run branch: the candidates, the check that they differ,
    the output frame. *)
Definition hit_and_run (self : Sampler) (d : Domain Q) (p : Prepared) (n : nat)
    : M (DataFrame cell) :=
  candidates ← draw_candidates self d p n;
  (if negb (Nat.eqb (List.length (unique_rows candidates)) n) && Nat.ltb 1 n
   then warn CandidatesNotUnique else ret tt) ;;
  let free_continuals := List.map key (free_features d (fixed_features p)) in
  lift (frame_of_rows n free_continuals candidates).

(** [PolytopeSampler._sample_from_polytope] *)
Definition _sample_from_polytope (self : Sampler) (n : nat) : M (DataFrame cell) :=
  d ← read_domain (domain self);
  if Nat.eqb (List.length (constraints d)) 0 then
    seed ← _get_seed;
    lift (inputs_sample (inputs d) n seed)
  else
    p ← lift (prepare d n);
    samples ← (if Nat.eqb (List.length (lower p)) 0
               then warn NothingToSample ;;
                    ret (nan_frame n (get_keys any_feature (inputs d)))
               else hit_and_run self d p n);
    samples ← fold_M (fun samples feat =>
                        seed ← _get_seed;
                        ret (set_column samples (key feat) (feat_sample feat n seed)))
                     (get is_categorical_or_discrete (inputs d)) samples;
    ret (foldl (fun samples kv => set_column samples (fst kv)
                                    (replicate n (cell_of (snd kv))))
               samples (fixed_features p)).

(** A computation that leaves the store as it is. *)
Definition read_only {A} (m : M A) : Prop :=
  forall st, heap (fst (m st)) = heap st.

(** A computation that leaves every object of the store [h0] as it is. *)
Definition preserves {A} (h0 : gmap positive object) (m : M A) : Prop :=
  forall st, h0 ⊆ heap st -> h0 ⊆ heap (fst (m st)).

(** What holds of the store while a copy at [d'] is prepared: the objects
    of [h0] are as they were, and the copy consists of other objects. *)
Definition separate (h0 : gmap positive object) (d' : positive) (st : state) : Prop :=
  h0 ⊆ heap st /\ (d' ∉ dom h0) /\
  forall ins cs, heap st !! d' = Some (DomainObj ins cs) ->
    forall l, l ∈ ins -> l ∉ dom h0.

(** [Strategy.ask] of the sampler that [duplicate] builds for a copy of the
    domain. *)
Variable strategy_ask : Sampler -> nat -> M (DataFrame cell).

(** a new object at a location the store does not use yet *)
Definition alloc (o : object) : M positive := fun st =>
  let l := fresh (dom (heap st)) in
  (mkState (<[l := o]> (heap st)) (gen st) (warnings st), Ok l).

Definition read_object (l : positive) : M object := fun st =>
  match heap st !! l with
  | Some o => (st, Ok o)
  | None => (st, Raise AttributeError)
  end.

Definition write (l : positive) (o : object) : M unit := fun st =>
  (mkState (<[l := o]> (heap st)) (gen st) (warnings st), Ok tt).

(** [deepcopy] of one element of the inputs; the memo keeps an object that
    occurs twice shared in the copy. *)
Definition copy_feature (acc : gmap positive positive * list positive) (l : positive)
    : M (gmap positive positive * list positive) :=
  let '(memo, out) := acc in
  match memo !! l with
  | Some l' => ret (memo, out ++ [l'])
  | None =>
      o ← read_object l;
      l' ← alloc o;
      ret (<[l := l']> memo, out ++ [l'])
  end.

(** [deepcopy(self.domain)] *)
Definition deepcopy (d : positive) : M positive :=
  o ← read_object d;
  match o with
  | DomainObj ins cs =>
      '(_, ins') ← fold_M copy_feature ins (∅, []);
      alloc (DomainObj ins' cs)
  | FeatureObj f => alloc (FeatureObj f)
  end.

(** [domain.constraints = domain.constraints.get(excludes=NChooseKConstraint)] *)
Definition drop_nchoosek (d : positive) : M unit :=
  o ← read_object d;
  match o with
  | DomainObj ins cs =>
      write d (DomainObj ins (List.filter (fun c => negb (is_nchoosek c)) cs))
  | FeatureObj _ => lift (Raise AttributeError)
  end.

(** [feat = domain.inputs.get_by_key(key=key)],
    [assert isinstance(feat, ContinuousInput)], [feat.bounds = (0, 0)] *)
Definition pin_feature (d : positive) (k : string) : M unit :=
  o ← read_object d;
  match o with
  | DomainObj ins _ =>
      fun st =>
        match find_loc (heap st) k ins with
        | None => (st, Raise KeyError)
        | Some l =>
            match read_feature (heap st) l with
            | Some (mkFeature k' (ContinuousInput _)) =>
                write l (FeatureObj (mkFeature k' (ContinuousInput (0, 0)%Q))) st
            | _ => (st, Raise AssertionError)
            end
        end
  | FeatureObj _ => lift (Raise AttributeError)
  end.

(** The body of [for u in sampled_combinations]. *)
Definition explore (self : Sampler) (num_samples_per_it : nat) (u : list string)
    : M (DataFrame cell) :=
  d ← deepcopy (domain self);
  drop_nchoosek d ;;
  fold_M (fun _ k => pin_feature d k) u tt ;;
  let sampler := mkSampler d (n_burnin self) (n_thinning self) in
  strategy_ask sampler num_samples_per_it.

(** [math.ceil(a / b)] for [b > 0] *)
Definition ceil_div (a b : nat) : nat := (a + b - 1) / b.

(** [PolytopeSampler._ask] *)
Definition _ask (self : Sampler) (candidate_count : nat) : M (DataFrame cell) :=
  d ← read_domain (domain self);
  if Nat.ltb 0 (List.length (List.filter is_nchoosek (constraints d))) then
    let unused := get_nchoosek_combinations d in
    '(sampled_combinations, num_samples_per_it) ←
      (if Nat.leb candidate_count (List.length unused) then
         idx ← choice (List.length unused) candidate_count;
         combos ← lift (map_result (item unused) idx);
         ret (combos, 1)
       else if Nat.eqb (List.length unused) 0 then lift (Raise ZeroDivisionError)
       else ret (unused, ceil_div candidate_count (List.length unused)));
    samples ← map_M (explore self num_samples_per_it) sampled_combinations;
    seed ← _get_seed;
    lift (concat_sample samples candidate_count seed)
  else _sample_from_polytope self candidate_count.

End WithSamplers.

End Polytope.

(** ** The vocabulary of the statements about linear constraints *)

Module Expected.

Section WithFloat.
Variable F : Type.
Variable zero : F.
Variable div : F -> F -> F.

(** The coefficient a linear constraint gives a key: the entry of
    [coefficients] at the last position of the key in [features]. *)
Fixpoint coefficient_of (name : string) (features : list string) (coefficients : list F)
    : option F :=
  match features, coefficients with
  | f :: features', c :: coefficients' =>
      match coefficient_of name features' coefficients' with
      | Some c' => Some c'
      | None => if String.eqb f name then Some c else None
      end
  | _, _ => None
  end.

(** The coefficient row of one experiment, scaled by [nrm]: one entry per
    input key, zero for a key the constraint does not name. *)
Definition normalized_row (keys features : list string) (coefficients : list F) (nrm : F)
    : list F :=
  List.map (fun name =>
              match coefficient_of name features coefficients with
              | Some c => div c nrm
              | None => zero
              end) keys.

(** [n] rows over [n * D] columns: row [i] holds [row] in the columns
    [i * D .. (i + 1) * D] and zero elsewhere. *)
Definition block_diagonal (n D : nat) (row : list F) : list (list F) :=
  List.map (fun i => replicate (i * D) zero ++ row ++ replicate ((n - S i) * D) zero)
           (seq 0 n).

End WithFloat.

(** The constraints [constraints_as_scipy_constraints] has a branch for and
    can wrap: linear ones with a coefficient per feature, nonlinear ones
    with their features set, NChooseK ones. *)
Definition supported {F} (c : Constraints.Constraint F) : Prop :=
  match c with
  | Constraints.LinearEqualityConstraint fs cs _ => List.length fs = List.length cs
  | Constraints.LinearInequalityConstraint fs cs _ => List.length fs = List.length cs
  | Constraints.NonlinearEqualityConstraint _ fs _ => is_Some fs
  | Constraints.NonlinearInequalityConstraint _ fs _ => is_Some fs
  | Constraints.NChooseKConstraint _ _ _ _ => True
  | Constraints.InterpointEqualityConstraint _ => False
  end.

End Expected.

(** * Example inputs *)

Module Examples.
Import Features Constraints.

(** A toy parser: it rejects strings that open a parenthesis first. *)
Definition toy_parse (s : string) : result string :=
  match s with
  | String "("%char _ => Raise FormulaSyntaxError
  | _ => Ok s
  end.

Definition continuous (k : string) (lo hi : Q) : Feature :=
  mkFeature k (ContinuousInput (lo, hi)).

(** Two inputs bounded by [0, 1] under one NChooseK constraint: 0 is a
    bound of both, not an interior point. *)
Definition d_boundary : Domain Q :=
  mkDomain [continuous "x1" 0 1; continuous "x2" 0 1]
           [NChooseKConstraint ["x1"; "x2"] 0 1 true].

(** The first input is bounded away from 0. *)
Definition d_outside : Domain Q :=
  mkDomain [continuous "x1" (1 # 2) 1; continuous "x2" 0 1]
           [NChooseKConstraint ["x1"; "x2"] 0 1 true].

(** A categorical input next to two continuous ones that an NChooseK
    constraint couples. *)
Definition d_mixed : Domain Q :=
  mkDomain [mkFeature "c" (CategoricalInput ["a"; "b"] [true; true]);
            continuous "x1" (-1) 1; continuous "x2" (-1) 1]
           [NChooseKConstraint ["x1"; "x2"] 0 1 true].

(** Three inputs bounded by [-1, 1], at most two of them active. *)
Definition d_three : Domain Q :=
  mkDomain [continuous "x1" (-1) 1; continuous "x2" (-1) 1; continuous "x3" (-1) 1]
           [NChooseKConstraint ["x1"; "x2"; "x3"] 0 2 true].

(** The same with all three allowed to be active. *)
Definition d_all_active : Domain Q :=
  mkDomain [continuous "x1" (-1) 1; continuous "x2" (-1) 1; continuous "x3" (-1) 1]
           [NChooseKConstraint ["x1"; "x2"; "x3"] 0 3 true].

(** a generator that leaves the order as it is *)
Definition keep_order (g : unit) (l : list (list nat)) : list (list nat) * unit := (l, g).

(** Floats for the examples of the constraint transformer: a rational or
    minus infinity.  Only products with 1 occur there. *)
Inductive xfloat : Type :=
| Finite (q : Q)
| MinusInf.

Definition xmul (x y : xfloat) : xfloat :=
  match x, y with
  | Finite a, Finite b => Finite (a * b)
  | _, _ => MinusInf
  end.

Definition xdiv (x y : xfloat) : xfloat :=
  match x, y with
  | Finite a, Finite b => Finite (a / b)
  | _, _ => MinusInf
  end.

(** the norm of the coefficient vector (3, 4) of the examples *)
Definition norm_3_4 (coefficients : list xfloat) : xfloat := Finite 5.

(** [np.searchsorted] is not looked at in the examples *)
Definition no_search (names features : list string) : list nat := [].

(** 3 x1 + 4 x2 = 10 over three inputs *)
Definition d_linear : Domain xfloat :=
  mkDomain [continuous "x1" 0 1; continuous "x2" 0 1; continuous "x3" 0 1]
           [LinearEqualityConstraint ["x1"; "x2"] [Finite 3; Finite 4] (Finite 10)].

(** the same with a constraint that couples the experiments *)
Definition d_interpoint : Domain xfloat :=
  mkDomain [continuous "x1" 0 1; continuous "x2" 0 1; continuous "x3" 0 1]
           [LinearEqualityConstraint ["x1"; "x2"] [Finite 3; Finite 4] (Finite 10);
            InterpointEqualityConstraint "x3"].

(** 3 x1 + 4 x2 = 10 next to a nonlinear constraint whose features are
    not set *)
Definition d_unset_features : Domain xfloat :=
  mkDomain [continuous "x1" 0 1; continuous "x2" 0 1; continuous "x3" 0 1]
           [LinearEqualityConstraint ["x1"; "x2"] [Finite 3; Finite 4] (Finite 10);
            NonlinearEqualityConstraint "x1**2 + x2**2 - 1" None None].

(** Stand-ins for the generator and the library calls of the sampler: a
    constant seed, the first indices, empty frames, no interpoint
    constraints, constraints left as they are, the lower bounds as every
    candidate, one level for every categorical value. *)
Definition ex_next_seed (g : unit) : nat * unit := (0, g).
Definition ex_choice (g : unit) (population size : nat) : list nat * unit := (seq 0 size, g).
Definition ex_inputs_sample (fs : list Feature) (n seed : nat)
    : result (Pandas.DataFrame Polytope.cell) := Ok (Pandas.mkFrame n []).
Definition ex_interpoint (d : Domain Q) (n : nat) : list TorchTools.lin := [].
Definition ex_unfixed (l : list TorchTools.lin) (eq : bool) (fixed : list (nat * Polytope.number))
    (dimension : nat) : result (list TorchTools.lin) := Ok l.
Definition ex_hit_and_run (q : nat) (bounds : list Q * list Q)
    (ineq eq : option (list TorchTools.lin)) (n_burnin thinning seed : nat)
    : result (list (list Q)) := Ok (replicate q (fst bounds)).
Definition ex_feat_sample (f : Feature) (n seed : nat) : list Polytope.cell :=
  replicate n (Polytope.Level "a").
(** a hit-and-run sampler that never delivers *)
Definition ex_no_hit_and_run (q : nat) (bounds : list Q * list Q)
    (ineq eq : option (list TorchTools.lin)) (n_burnin thinning seed : nat)
    : result (list (list Q)) := Raise SamplingError.

(** A store with a domain at location 3: both inputs are fixed by their
    bounds, one inequality constrains them. *)
Definition h_fixed : gmap positive Polytope.object :=
  <[3%positive := Polytope.DomainObj [1%positive; 2%positive]
                    [LinearInequalityConstraint ["x1"; "x2"] [1; 1]%Q 1%Q]]>
  (<[2%positive := Polytope.FeatureObj (continuous "x2" 1 1)]>
   (<[1%positive := Polytope.FeatureObj (continuous "x1" 0 0)]> ∅)).

(** The same with free inputs. *)
Definition h_free : gmap positive Polytope.object :=
  <[3%positive := Polytope.DomainObj [1%positive; 2%positive]
                    [LinearInequalityConstraint ["x1"; "x2"] [1; 1]%Q 1%Q]]>
  (<[2%positive := Polytope.FeatureObj (continuous "x2" 0 1)]>
   (<[1%positive := Polytope.FeatureObj (continuous "x1" 0 1)]> ∅)).

(** The same without constraints, inputs fixed. *)
Definition h_unconstrained : gmap positive Polytope.object :=
  <[3%positive := Polytope.DomainObj [1%positive; 2%positive] []]>
  (<[2%positive := Polytope.FeatureObj (continuous "x2" 1 1)]>
   (<[1%positive := Polytope.FeatureObj (continuous "x1" 0 0)]> ∅)).

(** The free inputs under an NChooseK constraint and an inequality. *)
Definition h_nchoosek : gmap positive Polytope.object :=
  <[3%positive := Polytope.DomainObj [1%positive; 2%positive]
                    [NChooseKConstraint ["x1"; "x2"] 0 1 true;
                     LinearInequalityConstraint ["x1"; "x2"] [1; 1]%Q 1%Q]]>
  (<[2%positive := Polytope.FeatureObj (continuous "x2" 0 1)]>
   (<[1%positive := Polytope.FeatureObj (continuous "x1" 0 1)]> ∅)).

Definition d_nchoosek : Domain Q :=
  mkDomain [continuous "x1" 0 1; continuous "x2" 0 1]
           [NChooseKConstraint ["x1"; "x2"] 0 1 true;
            LinearInequalityConstraint ["x1"; "x2"] [1; 1]%Q 1%Q].

Definition sampler_at_3 : Polytope.Sampler := Polytope.mkSampler 3%positive 10 2.

(** the unused features of the two combinations of [d_nchoosek] *)
Definition ex_combinations (d : Domain Q) : list (list string) := [["x1"]; ["x2"]].

Definition ex_concat_sample (l : list (Pandas.DataFrame Polytope.cell)) (n seed : nat)
    : result (Pandas.DataFrame Polytope.cell) :=
  Ok (Pandas.mkFrame n (flat_map Pandas.columns l)).

(** [ask] of a duplicated sampler: its domain has no NChooseK constraint
    left, so the polytope is sampled. *)
Definition ex_strategy_ask (s : Polytope.Sampler) (n : nat)
    : Polytope.M unit (Pandas.DataFrame Polytope.cell) :=
  Polytope._sample_from_polytope unit ex_next_seed ex_inputs_sample ex_interpoint
    ex_unfixed ex_hit_and_run ex_feat_sample s n.

Definition ex_ask (s : Polytope.Sampler) (n : nat)
    : Polytope.M unit (Pandas.DataFrame Polytope.cell) :=
  Polytope._ask unit ex_next_seed ex_choice ex_inputs_sample ex_interpoint ex_unfixed
    ex_hit_and_run ex_feat_sample ex_combinations ex_concat_sample ex_strategy_ask s n.

(** A model matrix with three experiments and two model terms. *)
Definition X_tall : Optimality.matrix := [[1; 0]; [0; 1]; [1; 1]]%Q.

End Examples.

(** * Further parts of the sources *)

(** ** Filtering by class ([bofire/domain/util.py]) *)

Module Util.

(** The feature classes of [bofire/domain/features.py], and [object]. *)
Inductive Class : Type :=
| object
| Feature
| InputFeature
| NumericalInput
| ContinuousInput
| ContinuousDescriptorInput
| DiscreteInput
| CategoricalInput
| CategoricalDescriptorInput
| OutputFeature
| ContinuousOutput.

#[global] Instance Class_eq_dec : EqDecision Class.
Proof. solve_decision. Defined.

(** The classes a class derives from, itself first (the part of its method
    resolution order within the classes above). *)
Definition mro (c : Class) : list Class :=
  match c with
  | object => [object]
  | Feature => [Feature; object]
  | InputFeature => [InputFeature; Feature; object]
  | NumericalInput => [NumericalInput; InputFeature; Feature; object]
  | ContinuousInput => [ContinuousInput; NumericalInput; InputFeature; Feature; object]
  | ContinuousDescriptorInput =>
      [ContinuousDescriptorInput; ContinuousInput; NumericalInput; InputFeature; Feature;
       object]
  | DiscreteInput => [DiscreteInput; NumericalInput; InputFeature; Feature; object]
  | CategoricalInput => [CategoricalInput; InputFeature; Feature; object]
  | CategoricalDescriptorInput =>
      [CategoricalDescriptorInput; CategoricalInput; InputFeature; Feature; object]
  | OutputFeature => [OutputFeature; Feature; object]
  | ContinuousOutput => [ContinuousOutput; OutputFeature; Feature; object]
  end.

(** [x in l] for classes *)
Definition class_in (c : Class) (l : list Class) : bool := bool_decide (c ∈ l).

(** [isinstance(x, tuple(classes))] for an [x] of type [t] *)
Definition isinstance (t : Class) (classes : list Class) : bool :=
  existsb (fun c => class_in c (mro t)) classes.

(** [Union[Type, List[Type]] = None] *)
Inductive TypeArg : Type :=
| NoTypes
| OneType (c : Class)
| TypeList (l : list Class).

(** [if x is None: x = []] then [if not isinstance(x, list): x = [x]] *)
Definition as_list (a : TypeArg) : list Class :=
  match a with
  | NoTypes => []
  | OneType c => [c]
  | TypeList l => l
  end.

(** [filter_by_class]; [type_of d] is [type(key(d))]. *)
Definition filter_by_class {A} (data : list A) (includes excludes : TypeArg)
    (exact : bool) (type_of : A -> Class) : result (list A) :=
  let includes := as_list includes in
  let excludes := as_list excludes in
  if Nat.eqb (List.length includes) (List.length excludes)
     && Nat.eqb (List.length excludes) 0
  then Raise ValueError else
  let includes := if Nat.eqb (List.length includes) 0 then [object] else includes in
  if Nat.ltb 0 (List.length (List.filter (fun x => class_in x excludes) includes))
  then Raise ValueError else
  if exact
  then Ok (List.filter
             (fun d => class_in (type_of d) includes && negb (class_in (type_of d) excludes))
             data)
  else Ok (List.filter
             (fun d => isinstance (type_of d) includes
                       && negb (isinstance (type_of d) excludes))
             data).

(** [filter_by_attribute]: the elements on which the getter raises
    [AttributeError] are left out, and the rest is filtered by the class of
    the attribute.  [attribute_type d] is the class of [attribute_getter(d)],
    or the exception the getter raises. *)
Fixpoint with_attr {A} (attribute_type : A -> result Class) (data : list A)
    : result (list (A * Class)) :=
  match data with
  | [] => Ok []
  | d :: data' =>
      match attribute_type d with
      | Ok t => rest ← with_attr attribute_type data'; Ok ((d, t) :: rest)
      | Raise AttributeError => with_attr attribute_type data'
      | Raise e => Raise e
      end
  end.

Definition filter_by_attribute {A} (data : list A) (attribute_type : A -> result Class)
    (includes excludes : TypeArg) (exact : bool) : result (list A) :=
  data_with_attr ← with_attr attribute_type data;
  filtered ← filter_by_class data_with_attr includes excludes exact snd;
  Ok (List.map fst filtered).

(** The class of an input feature of the embedding. *)
Definition class_of (f : Features.Feature) : Class :=
  match Features.kind f with
  | Features.ContinuousInput _ => ContinuousInput
  | Features.DiscreteInput _ => DiscreteInput
  | Features.CategoricalInput _ _ => CategoricalInput
  end.

(** [Features.get(includes, excludes, exact)] as the source has it:
    [sorted(filter_by_class(self.features, ...))]. *)
Definition get (features : list Features.Feature) (includes excludes : TypeArg)
    (exact : bool) : result (list Features.Feature) :=
  filtered ← filter_by_class features includes excludes exact class_of;
  Ok (Features.sorted Features.feature_lt filtered).

End Util.

(** ** Categorical inputs ([class CategoricalInput]) *)

Module Categorical.
Import Features.

(** [name2key] of [bofire/domain/util.py] *)
Definition name2key (name : string) : string := name.

(** The validator [validate_categories_unique]. *)
Definition validate_categories_unique (categories : list string) : result (list string) :=
  let categories := List.map name2key categories in
  if negb (Nat.eqb (List.length categories) (List.length (Np.dedupe categories)))
  then Raise ValueError
  else Ok categories.

(** The root validator [init_allowed] on validated categories. *)
Definition init_allowed (categories : list string) (allowed : option (list bool))
    : result (list bool) :=
  let allowed :=
    match allowed with
    | None => List.map (fun _ => true) categories
    | Some a => a
    end in
  if negb (Nat.eqb (List.length allowed) (List.length categories)) then Raise ValueError else
  if Nat.eqb (List.length (List.filter id allowed)) 0 then Raise ValueError else
  Ok allowed.

(** [CategoricalInput(key=..., categories=..., allowed=...)].  The field
    types [conlist(item_type=str, min_items=2)] and
    [Optional[conlist(item_type=bool, min_items=2)]] are checked with the
    validators; every failure ends in pydantic's validation error, a
    [ValueError]. *)
Definition new (key : string) (categories : list string) (allowed : option (list bool))
    : result Feature :=
  if Nat.ltb (List.length categories) 2 then Raise ValueError else
  categories ← validate_categories_unique categories;
  (match allowed with
   | Some a => if Nat.ltb (List.length a) 2 then Raise ValueError else Ok tt
   | None => Ok tt
   end) ;;
  allowed ← init_allowed categories allowed;
  Ok (mkFeature key (CategoricalInput categories allowed)).

(** [get_allowed_categories]: [[c for c, a in zip(categories, allowed) if a]] *)
Definition get_allowed_categories (categories : list string) (allowed : list bool)
    : list string :=
  List.map fst (List.filter snd (List.combine categories allowed)).

(** [is_fixed]: [sum(self.allowed) == 1] *)
Definition is_fixed (allowed : list bool) : bool :=
  Nat.eqb (List.length (List.filter id allowed)) 1.

(** [fixed_value]: the first allowed category of a fixed input, [None] for
    one that is not fixed. *)
Definition fixed_value (categories : list string) (allowed : list bool)
    : result (option string) :=
  if is_fixed allowed
  then match get_allowed_categories categories allowed with
       | c :: _ => Ok (Some c)
       | [] => Raise IndexError
       end
  else Ok None.

(** [get_possible_categories]:
    [sorted(list(set(list(set(values.tolist())) + self.get_allowed_categories())))] *)
Definition get_possible_categories (categories : list string) (allowed : list bool)
    (values : list string) : list string :=
  Np.unique (Np.dedupe values ++ get_allowed_categories categories allowed).

(** [sum(values.isin(names))] *)
Definition count_isin (values names : list string) : nat :=
  List.length (List.filter (Np.contains names) values).

(** [CategoricalInput.validate_experimental] *)
Definition validate_experimental (categories : list string) (allowed : list bool)
    (values : list string) (strict : bool) : result (list string) :=
  if negb (Nat.eqb (count_isin values categories) (List.length values))
  then Raise ValueError else
  if strict then
    let possible_categories := get_possible_categories categories allowed values in
    if negb (Nat.eqb (List.length possible_categories) (List.length categories))
    then Raise ValueError
    else Ok values
  else Ok values.

(** [CategoricalInput.validate_candidental] *)
Definition validate_candidental (categories : list string) (allowed : list bool)
    (values : list string) : result (list string) :=
  if negb (Nat.eqb (count_isin values (get_allowed_categories categories allowed))
             (List.length values))
  then Raise ValueError
  else Ok values.

End Categorical.

(** ** Ordinal and dummy encodings ([class CategoricalInput]) *)

Module Encodings.
Import Pandas.

(** the positions of a label in an index *)
Fixpoint positions_from (start : nat) (label : string) (index : list string) : list nat :=
  match index with
  | [] => []
  | l :: index' =>
      if String.eqb l label
      then start :: positions_from (S start) label index'
      else positions_from (S start) label index'
  end.

(** [CategoricalInput.to_ordinal_encoding]:
    [enc = pd.Series(range(len(categories)), index=list(categories))],
    [s = enc[values]], [s.index = values.index].  Selecting by a list of
    labels gives every row that carries the label and raises [KeyError] for
    a label the index does not have; setting an index of another length
    raises [ValueError]. *)
Definition to_ordinal_encoding (categories values : list string) : result (list Z) :=
  rows ← map_result
           (fun v =>
              match positions_from 0 v categories with
              | [] => Raise KeyError
              | ps => Ok ps
              end)
           values;
  let s := List.concat rows in
  if Nat.eqb (List.length s) (List.length values)
  then Ok (List.map Z.of_nat s)
  else Raise ValueError.

(** [arr[i]] for an integer [i] of an index array: a negative index counts
    from the end, one out of range raises [IndexError]. *)
Definition np_take {A} (arr : list A) (i : Z) : result A :=
  let n := Z.of_nat (List.length arr) in
  let j := if (i <? 0)%Z then (i + n)%Z else i in
  if ((0 <=? j)%Z && (j <? n)%Z)%bool
  then match arr !! Z.to_nat j with
       | Some x => Ok x
       | None => Raise IndexError
       end
  else Raise IndexError.

(** [CategoricalInput.from_ordinal_encoding]:
    [pd.Series(np.array(self.categories)[values], ...)] *)
Definition from_ordinal_encoding (categories : list string) (values : list Z)
    : result (list string) :=
  map_result (np_take categories) values.

(** [CategoricalInput.to_dummy_encoding]: the one-hot columns of all
    categories but the first. *)
Definition to_dummy_encoding (key : string) (categories : list string)
    (values : list string) : DataFrame Q :=
  mkFrame (List.length values)
    (foldl (fun d c => dict_set d (OneHot.column_name key c) (OneHot.indicator c values))
           [] (List.tl categories)).

(** [values[labels].sum(axis=1)] for labels that are present *)
Definition row_sums (df : DataFrame Q) (labels : list string) : list Q :=
  List.map (fun i => fold_left Qplus (List.map (fun c => List.nth i (OneHot.column df c) 0%Q)
                                         labels) 0%Q)
           (seq 0 (n_rows df)).

(** [CategoricalInput.from_dummy_encoding].  [cat_cols[0]] raises
    [IndexError] when there are no categories; the column of the first
    category is set in a copy of the frame; on a frame without rows
    [idxmax(1)] raises [ValueError]. *)
Definition from_dummy_encoding (key : string) (categories : list string)
    (values : DataFrame Q) : result (list string) :=
  let cat_cols := List.map (OneHot.column_name key) categories in
  if existsb (fun c => negb (OneHot.has_column values c)) (List.tl cat_cols)
  then Raise ValueError else
  match cat_cols with
  | [] => Raise IndexError
  | first :: rest =>
      let values :=
        mkFrame (n_rows values)
          (dict_set (columns values) first
             (List.map (fun s => (1 - s)%Q) (row_sums values rest))) in
      if Nat.eqb (n_rows values) 0 then Raise ValueError else
      labels ← map_result
                 (fun i => OneHot.idxmax
                             (List.map (fun c => (c, List.nth i (OneHot.column values c) 0%Q))
                                cat_cols))
                 (seq 0 (n_rows values));
      Ok (List.map (fun l => List.nth 1 (OneHot.split OneHot._CAT_SEP l) "") labels)
  end.

End Encodings.

(** ** Numerical inputs ([class NumericalInput] and its subclasses) *)

Module Numerical.
Import Features.

(** [min(values)] and [max(values)]; Python raises [ValueError] on an empty
    list. *)
Definition py_min (vs : list Q) : result Q :=
  match vs with
  | [] => Raise ValueError
  | v :: vs' => Ok (fold_left (fun m y => if Qlt_bool y m then y else m) vs' v)
  end.

Definition py_max (vs : list Q) : result Q :=
  match vs with
  | [] => Raise ValueError
  | v :: vs' => Ok (fold_left (fun m y => if Qlt_bool m y then y else m) vs' v)
  end.

(** [feat.lower_bound] and [feat.upper_bound]: fields of a continuous input,
    properties of a discrete one; a categorical input has neither. *)
Definition lower_bound (f : Feature) : result Q :=
  match kind f with
  | ContinuousInput (lo, _) => Ok lo
  | DiscreteInput vs => py_min vs
  | CategoricalInput _ _ => Raise AttributeError
  end.

Definition upper_bound (f : Feature) : result Q :=
  match kind f with
  | ContinuousInput (_, hi) => Ok hi
  | DiscreteInput vs => py_max vs
  | CategoricalInput _ _ => Raise AttributeError
  end.

(** [NumericalInput.is_fixed]: [self.lower_bound == self.upper_bound] *)
Definition is_fixed (f : Feature) : result bool :=
  lo ← lower_bound f;
  hi ← upper_bound f;
  Ok (Qeq_bool lo hi).

(** [NumericalInput.fixed_value] *)
Definition fixed_value (f : Feature) : result (option Q) :=
  b ← is_fixed f;
  if b : bool then (lo ← lower_bound f; Ok (Some lo)) else Ok None.

End Numerical.

(** ** Transformations of the inputs ([class InputFeatures]) *)

Module Transform.
Import Features Pandas.

(** [CategoricalEncodingEnum] *)
Inductive CategoricalEncodingEnum : Type :=
| ONE_HOT
| ORDINAL
| DUMMY
| DESCRIPTOR.

#[global] Instance CategoricalEncodingEnum_eq_dec : EqDecision CategoricalEncodingEnum.
Proof. solve_decision. Defined.

Definition is_categorical (f : Feature) : bool :=
  match kind f with CategoricalInput _ _ => true | _ => false end.

(** No input of the embedding is a [CategoricalDescriptorInput]. *)
Definition is_categorical_descriptor (f : Feature) : bool := false.

(** [len(set(keys) - set(names)) > 0] *)
Definition some_key_outside (keys names : list string) : bool :=
  existsb (fun k => negb (Np.contains names k)) keys.

(** [InputFeatures._validate_transform_specs]; the values of [specs] are of
    the enumeration by their type. *)
Definition _validate_transform_specs (features : list Feature)
    (specs : gmap string CategoricalEncodingEnum)
    : result (gmap string CategoricalEncodingEnum) :=
  if some_key_outside (List.map fst (map_to_list specs)) (get_keys is_categorical features)
  then Raise ValueError else
  let descriptor_keys :=
    List.map fst
      (List.filter (fun kv => bool_decide (snd kv = DESCRIPTOR)) (map_to_list specs)) in
  if some_key_outside descriptor_keys (get_keys is_categorical_descriptor features)
  then Raise ValueError else
  Ok specs.

(** [(np.array(range(n)) + counter).tolist()]; [range] of a negative number
    is empty. *)
Definition index_range (n counter : Z) : list Z :=
  List.map (fun i => (Z.of_nat i + counter)%Z) (seq 0 (Z.to_nat n)).

(** The body of the loop of [_get_transform_info]. *)
Definition transform_info_step (specs : gmap string CategoricalEncodingEnum)
    (st : list (string * list Z) * list (string * list string) * Z) (feat : Feature)
    : result (list (string * list Z) * list (string * list string) * Z) :=
  let '(features2idx, features2names, counter) := st in
  let single :=
    Ok (dict_set features2idx (key feat) [counter],
        dict_set features2names (key feat) [key feat],
        (counter + 1)%Z) in
  match specs !! key feat with
  | None => single
  | Some ONE_HOT =>
      match kind feat with
      | CategoricalInput categories _ =>
          let n := Z.of_nat (List.length categories) in
          Ok (dict_set features2idx (key feat) (index_range n counter),
              dict_set features2names (key feat)
                (List.map (OneHot.column_name (key feat)) categories),
              (counter + n)%Z)
      | _ => Raise AssertionError
      end
  | Some ORDINAL => single
  | Some DUMMY =>
      match kind feat with
      | CategoricalInput categories _ =>
          let n := (Z.of_nat (List.length categories) - 1)%Z in
          Ok (dict_set features2idx (key feat) (index_range n counter),
              dict_set features2names (key feat)
                (List.map (OneHot.column_name (key feat)) (List.tl categories)),
              (counter + n)%Z)
      | _ => Raise AssertionError
      end
  | Some DESCRIPTOR => Raise AssertionError
  end.

(** [InputFeatures._get_transform_info] *)
Definition _get_transform_info (features : list Feature)
    (specs : gmap string CategoricalEncodingEnum)
    : result (list (string * list Z) * list (string * list string)) :=
  _validate_transform_specs features specs ;;
  '(features2idx, features2names, _) ←
    fold_result (transform_info_step specs) (get any_feature features) ([], [], 0%Z);
  Ok (features2idx, features2names).

Section WithExperiments.

(** A data frame of experiments and what pandas computes on it:
    [feat.get_real_feature_bounds(experiments[feat.key])]. *)
Variable Experiments : Type.
Variable get_real_feature_bounds : Feature -> Experiments -> result (Q * Q).

(** [[1.0 if feat.allowed[i] is True else 0.0 for i, _ in enumerate(feat.categories)]] *)
Definition allowed_upper (categories : list string) (allowed : list bool)
    : result (list Q) :=
  map_result (fun i : nat =>
                match allowed !! i with
                | Some a => Ok (if a : bool then 1%Q else 0%Q)
                | None => Raise IndexError
                end)
             (seq 0 (List.length categories)).

(** The body of the loop of [get_bounds]. *)
Definition bounds_step (specs : gmap string CategoricalEncodingEnum)
    (experiments : option Experiments) (st : list Q * list Q) (feat : Feature)
    : result (list Q * list Q) :=
  let '(lower, upper) := st in
  match kind feat with
  | CategoricalInput categories allowed =>
      match specs !! key feat with
      | Some ORDINAL =>
          Ok (lower ++ [0%Q],
              upper ++ [inject_Z (Z.of_nat (List.length categories) - 1)])
      | Some ONE_HOT =>
          match experiments with
          | None =>
              up ← allowed_upper categories allowed;
              Ok (lower ++ List.map (fun _ => 0%Q) categories, upper ++ up)
          | Some _ =>
              Ok (lower ++ List.map (fun _ => 0%Q) categories,
                  upper ++ List.map (fun _ => 1%Q) categories)
          end
      | Some DUMMY =>
          let n := Z.to_nat (Z.of_nat (List.length categories) - 1) in
          Ok (lower ++ replicate n 0%Q, upper ++ replicate n 1%Q)
      | _ => Raise ValueError
      end
  | _ =>
      match experiments with
      | None =>
          lo ← Numerical.lower_bound feat;
          hi ← Numerical.upper_bound feat;
          Ok (lower ++ [lo], upper ++ [hi])
      | Some e =>
          '(lb, ub) ← get_real_feature_bounds feat e;
          Ok (lower ++ [lb], upper ++ [ub])
      end
  end.

(** [InputFeatures.get_bounds] *)
Definition get_bounds (features : list Feature)
    (specs : gmap string CategoricalEncodingEnum) (experiments : option Experiments)
    : result (list Q * list Q) :=
  _validate_transform_specs features specs ;;
  fold_result (bounds_step specs experiments) (get any_feature features) ([], []).

End WithExperiments.

(** [itertools.product] of the lists, in the order of itertools *)
Fixpoint product {A} (lists : list (list A)) : list (list A) :=
  match lists with
  | [] => [[]]
  | l :: lists' => List.flat_map (fun x => List.map (cons x) (product lists')) l
  end.

(** [InputFeatures.get_categorical_combinations]; [include] stands for the
    classes to include and to exclude. *)
Definition get_categorical_combinations (include : Feature -> bool)
    (features : list Feature) : list (list (string * string)) :=
  let features :=
    List.filter (fun f => is_categorical f && negb (TorchTools.is_fixed f))
      (get include features) in
  let list_of_lists :=
    List.map (fun f =>
                match kind f with
                | CategoricalInput categories allowed =>
                    List.map (pair (key f))
                      (Categorical.get_allowed_categories categories allowed)
                | _ => []
                end)
             features in
  product list_of_lists.

(** [InputFeatures.get_fixed] and [InputFeatures.get_free] *)
Definition get_fixed (features : list Feature) : list Feature :=
  List.filter TorchTools.is_fixed features.

Definition get_free (features : list Feature) : list Feature :=
  List.filter (fun feat => negb (TorchTools.is_fixed feat)) features.

(** The number of columns an input takes in the transformed frame. *)
Definition width (specs : gmap string CategoricalEncodingEnum) (feat : Feature) : nat :=
  match specs !! key feat, kind feat with
  | Some ONE_HOT, CategoricalInput categories _ => List.length categories
  | Some DUMMY, CategoricalInput categories _ => List.length categories - 1
  | _, _ => 1
  end.

End Transform.

(** ** The Jacobian of a wrapped constraint ([ConstraintWrapper.jacobian]) *)

Module Jacobian.
Import Constraints.

(** One assignment [jacobian[r, c] = x] within the bounds of the array. *)
Definition assign_at (jac : list (list Q)) (rcx : nat * nat * Q) : list (list Q) :=
  let '(r, c, x) := rcx in
  match jac !! r with
  | Some row => <[r := <[c := x]> row]> jac
  | None => jac
  end.

(** [jacobian[rows, cols] = values] for index arrays of one length on an
    array with [n_cols] columns: the values are broadcast to the indices (a
    length other than theirs or 1 raises [ValueError]), every index is
    checked ([IndexError]), then the entries are written in order, a later
    one over an earlier one. *)
Definition fancy_assign (jac : list (list Q)) (n_cols : nat) (rows cols : list nat)
    (values : list Q) : result (list (list Q)) :=
  let m := List.length rows in
  values ← (if Nat.eqb (List.length values) m then Ok values
            else if Nat.eqb (List.length values) 1
                 then Ok (replicate m (List.nth 0 values 0%Q))
                 else Raise ValueError);
  if forallb (fun r => Nat.ltb r (List.length jac)) rows
     && forallb (fun c => Nat.ltb c n_cols) cols
  then Ok (foldl assign_at jac (zip (zip rows cols) values))
  else Raise IndexError.

Section WithJacobian.

(** [self.constraint.jacobian(x).to_numpy()]: the gradient of the
    constraint with respect to its own features, one row per experiment;
    the evaluation of the user's expression may raise. *)
Variable constraint_jacobian :
  Constraint Q -> list string -> list (list Q) -> result (list (list Q)).

(** [ConstraintWrapper.jacobian].  The data frame needs one column name per
    column of the reshaped vector. *)
Definition jacobian (self : ScipyConstraints.ConstraintWrapper Q) (x : list Q)
    : result (list (list Q)) :=
  let D := ScipyConstraints.D Q self in
  let n := ScipyConstraints.n_experiments Q self in
  let indices := ScipyConstraints.constraint_feature_indices Q self in
  rows_x ← Wrapper.reshape x D;
  (if Nat.eqb (List.length (ScipyConstraints.names Q self)) D then Ok tt
   else Raise ValueError) ;;
  gradient_compressed ← constraint_jacobian (ScipyConstraints.constraint Q self)
                          (ScipyConstraints.names Q self) rows_x;
  let jac := replicate n (replicate (D * n) 0%Q) in
  let rows := List.flat_map (fun i => replicate (List.length indices) i) (seq 0 n) in
  let cols := List.flat_map (fun i => List.map (fun j => D * i + j) indices) (seq 0 n) in
  fancy_assign jac (D * n) rows cols (List.concat gradient_compressed).

End WithJacobian.

End Jacobian.

(** ** Groups of which some are picked, with quantities
    ([NChooseKGroup_with_quantity]) *)

Module QuantityGroup.
Import Features Constraints.

Section WithConstructors.

(** The constructors of the data models: each validates its arguments and
    may raise. *)
Variable ContinuousInput_new : string -> Q * Q -> result Feature.
Variable CategoricalInput_new : string -> list string -> result Feature.
Variable LinearInequalityConstraint_new :
  list string -> list Q -> Q -> result (Constraint Q).
Variable LinearEqualityConstraint_new :
  list string -> list Q -> Q -> result (Constraint Q).

(** The checks at the head of the function, in their order. *)
Definition check_arguments (keys : list string) (pick_at_least pick_at_most : Z)
    (quantity_if_picked : list (Q * Q)) : result unit :=
  if negb (Nat.eqb (List.length keys) (List.length quantity_if_picked))
  then Raise ValueError else
  if (pick_at_most <? pick_at_least)%Z then Raise ValueError else
  if (pick_at_least <? 0)%Z then Raise ValueError else
  if (Z.of_nat (List.length keys) <? pick_at_most)%Z then Raise ValueError else
  if Np.contains keys "pick_none" then Raise ValueError else
  if existsb (fun q => Qeq_bool 0 (fst q) || Qeq_bool 0 (snd q)) quantity_if_picked
  then Raise ValueError else
  if existsb OneHot.has_sep keys then Raise ValueError else
  Ok tt.

(** [combined_keys_as_tuple]: the combinations of 2 up to [pick_at_most]
    keys. *)
Definition combined_keys_as_tuple (keys : list string) (pick_at_most : Z)
    : list (list string) :=
  if (1 <? pick_at_most)%Z
  then List.flat_map (fun i => Np.combinations keys i) (seq 2 (Z.to_nat pick_at_most - 1))
  else [].

(** [unique_group_identifier + "_" + k + "_quantity"] *)
Definition quantity_key (unique_group_identifier k : string) : string :=
  unique_group_identifier +:+ "_" +:+ k +:+ "_quantity".

(** The constraints [quantity_constraints_lb] ([lower = true]) and
    [quantity_constraints_ub]: one for every key that occurs in more than
    one combination. *)
Definition quantity_constraints (lower : bool) (unique_group_identifier : string)
    (all_quantity_features : list (list string)) (keys : list string)
    (quantity_if_picked : list (Q * Q)) : result (list (Constraint Q)) :=
  map_result
    (fun ckq : list string * string * (Q * Q) =>
       let '(combi, k, q) := ckq in
       LinearInequalityConstraint_new
         (quantity_key unique_group_identifier k :: combi)
         (if lower
          then (-1)%Q :: List.map (fun _ => fst q) combi
          else 1%Q :: List.map (fun _ => (- snd q)%Q) combi)
         0%Q)
    (List.filter (fun ckq : list string * string * (Q * Q) =>
                    Nat.ltb 1 (List.length (fst (fst ckq))))
       (zip (zip all_quantity_features keys) quantity_if_picked)).

(** [NChooseKGroup_with_quantity].  The first component is the list the
    caller passed as [keys] after the call: [keys.extend(combined_keys)]
    changes it in place. *)
Definition NChooseKGroup_with_quantity (unique_group_identifier : string)
    (keys : list string) (pick_at_least pick_at_most : Z) (quantity_limit : Q)
    (quantity_if_picked : list (Q * Q)) (quantity_is_equality : bool)
    : list string * result (Feature * list Feature * list (Constraint Q)) :=
  let combined_keys_as_tuple := combined_keys_as_tuple keys pick_at_most in
  let combined_keys := List.map (String.concat "_") combined_keys_as_tuple in
  let before_extend :=
    check_arguments keys pick_at_least pick_at_most quantity_if_picked ;;
    quantity_var ← map_result
                     (fun kq : string * (Q * Q) =>
                        ContinuousInput_new (quantity_key unique_group_identifier (fst kq))
                          (0%Q, snd (snd kq)))
                     (zip keys quantity_if_picked);
    let all_quantity_features :=
      List.map (fun k =>
                  List.map fst
                    (List.filter (fun st : string * list string => Np.contains (snd st) k)
                       (zip combined_keys combined_keys_as_tuple)))
               keys in
    quantity_constraints_lb ← quantity_constraints true unique_group_identifier
                                all_quantity_features keys quantity_if_picked;
    quantity_constraints_ub ← quantity_constraints false unique_group_identifier
                                all_quantity_features keys quantity_if_picked;
    Ok (quantity_var, quantity_constraints_lb, quantity_constraints_ub) in
  match before_extend with
  | Raise e => (keys, Raise e)
  | Ok (quantity_var, quantity_constraints_lb, quantity_constraints_ub) =>
      let extended := keys ++ combined_keys in
      (extended,
       let keys := List.map (fun k => unique_group_identifier +:+ "_" +:+ k) extended in
       max_quantity_constraint ←
         (if quantity_is_equality then LinearEqualityConstraint_new
          else LinearInequalityConstraint_new)
           (List.map key quantity_var) (List.map (fun _ => 1%Q) quantity_var)
           quantity_limit;
       let keys :=
         if (pick_at_least =? 0)%Z
         then keys ++ [unique_group_identifier +:+ "_pick_none"]
         else keys in
       category ← CategoricalInput_new unique_group_identifier keys;
       Ok (category, quantity_var,
           [max_quantity_constraint] ++ quantity_constraints_lb
             ++ quantity_constraints_ub))
  end.

End WithConstructors.

End QuantityGroup.

(** ** The vocabulary of the statements about [get_linear_constraints] *)

Module LinearParts.
Import Features Constraints.

(** The input a constraint refers to by a key, as [get_feature] finds it. *)
Definition input_of (d : Domain Q) (k : string) : option Feature :=
  find_last k (inputs d).


(** A numerical input of the domain: one with bounds. *)
Definition is_numerical_input (d : Domain Q) (k : string) : bool :=
  match input_of d k with
  | Some feat => negb (Transform.is_categorical feat)
  | None => false
  end.



End LinearParts.

(** * Further example inputs *)

Module Examples2.
Import Features.

(** A continuous, a categorical and a discrete input. *)
Definition mixed_inputs : list Feature :=
  [Examples.continuous "x" 0 1;
   mkFeature "c" (CategoricalInput ["a"; "b"; "c"] [true; true; false]);
   mkFeature "d" (DiscreteInput [1; 2]%Q)].

(** The categorical input is one-hot encoded. *)
Definition one_hot_c : gmap string Transform.CategoricalEncodingEnum :=
  {[ "c" := Transform.ONE_HOT ]}.

(** no experiments are ever looked at *)
Definition no_real_bounds (f : Feature) (e : unit) : result (Q * Q) := Raise KeyError.

(** A wrapper over two inputs and two experiments whose constraint depends
    on the second input, and a gradient with one entry per experiment. *)
Definition wrapper_x2 : ScipyConstraints.ConstraintWrapper Q :=
  ScipyConstraints.mkWrapper Q
    (Constraints.NonlinearEqualityConstraint "x2**2 - 1" (Some ["x2"]) (Some "[2*x2]"))
    ["x1"; "x2"] 2 2 [1].

Definition gradient_5_6 (c : Constraints.Constraint Q) (names : list string)
    (rows : list (list Q)) : result (list (list Q)) := Ok [[5]; [6]]%Q.

(** Constructors that accept every argument. *)
Definition any_continuous (k : string) (b : Q * Q) : result Feature :=
  Ok (mkFeature k (ContinuousInput b)).
Definition any_categorical (k : string) (categories : list string) : result Feature :=
  Ok (mkFeature k (CategoricalInput categories (List.map (fun _ => true) categories))).
Definition any_inequality (fs : list string) (cs : list Q) (rhs : Q)
    : result (Constraints.Constraint Q) :=
  Ok (Constraints.LinearInequalityConstraint fs cs rhs).
Definition any_equality (fs : list string) (cs : list Q) (rhs : Q)
    : result (Constraints.Constraint Q) :=
  Ok (Constraints.LinearEqualityConstraint fs cs rhs).


(** x1 + c <= 1 where c is a categorical input. *)
Definition d_categorical_term : Constraints.Domain Q :=
  Constraints.mkDomain
    [Examples.continuous "x1" 0 1;
     mkFeature "c" (CategoricalInput ["a"; "b"] [true; true])]
    [Constraints.LinearInequalityConstraint ["x1"; "c"] [1; 1]%Q 1%Q].

(** A store with a domain at location 3: [x2] is fixed by its bounds and the
    equality [2 * x1 + x2 = 2] leaves one coefficient, which pins [x1]. *)
Definition h_pseudo_fixed : gmap positive Polytope.object :=
  <[3%positive := Polytope.DomainObj [1%positive; 2%positive]
                    [Constraints.LinearEqualityConstraint ["x1"; "x2"] [2; 1]%Q 2%Q]]>
  (<[2%positive := Polytope.FeatureObj (Examples.continuous "x2" 1 1)]>
   (<[1%positive := Polytope.FeatureObj (Examples.continuous "x1" 0 1)]> ∅)).

End Examples2.
(** * Properties *)

(** ** The constraint wrapper *)

Lemma Qabs_not_negative (v : Q) : Qlt_bool (Qabs v) 0 = false.
Proof.
  unfold Qlt_bool.
  assert (H : Qle_bool 0 (Qabs v) = true) by (apply Qle_bool_iff, Qabs_nonneg).
  rewrite H. reflexivity.
Qed.

Lemma clip_violation_id (violation : list Q) :
  Wrapper.clip_violation violation = violation.
Proof.
  induction violation as [|v vs IH]; simpl; [reflexivity|].
  rewrite Qabs_not_negative. f_equal. exact IH.
Qed.

(** C9. For every evaluator of constraints, every wrapper and every
    flattened vector [x], [ConstraintWrapper.__call__] gives exactly the
    row-wise evaluation of its constraint on the reshaped vector, values
    and exceptions alike: the assignment guarded by [np.abs(violation) < 0]
    never changes an entry. *)
Theorem call_is_raw_evaluation
    (constraint_call :
       Constraints.Constraint Q -> list string -> list (list Q) -> result (list Q))
    (self : ScipyConstraints.ConstraintWrapper Q) (x : list Q) :
  Wrapper.call constraint_call self x = Wrapper.raw_evaluation constraint_call self x.
Proof.
  unfold Wrapper.call, Wrapper.raw_evaluation.
  destruct (Wrapper.reshape x (ScipyConstraints.D Q self)) as [rows|e]; simpl; [|reflexivity].
  destruct (constraint_call _ _ rows) as [violation|e]; simpl; [|reflexivity].
  rewrite clip_violation_id. reflexivity.
Qed.

Lemma reshape_rows_length (n D : nat) (x : list Q) :
  List.length (Wrapper.reshape_rows n D x) = n.
Proof.
  revert x. induction n as [|n IH]; intros x; simpl; [reflexivity|].
  rewrite IH. reflexivity.
Qed.

(** On a vector of [n * D] numbers with [D > 0] the reshape succeeds, so the
    wrapper returns whenever the constraint evaluates. *)
Lemma call_on_flattened
    (constraint_call :
       Constraints.Constraint Q -> list string -> list (list Q) -> result (list Q))
    (self : ScipyConstraints.ConstraintWrapper Q) (x : list Q) (n : nat) :
  0 < ScipyConstraints.D Q self ->
  List.length x = n * ScipyConstraints.D Q self ->
  Wrapper.call constraint_call self x =
  constraint_call (ScipyConstraints.constraint Q self) (ScipyConstraints.names Q self)
    (Wrapper.reshape_rows n (ScipyConstraints.D Q self) x).
Proof.
  intros HD Hlen. unfold Wrapper.call, Wrapper.reshape.
  destruct (Nat.eqb_spec (ScipyConstraints.D Q self) 0) as [E|_]; [lia|].
  rewrite Hlen, Nat.div_mul by lia.
  rewrite Nat.eqb_refl. cbn [mbind result_bind].
  destruct (constraint_call _ _ _) as [violation|e]; simpl; [|reflexivity].
  rewrite clip_violation_id. reflexivity.
Qed.

(** ** The formula builder *)

Lemma substring_prefix (s t : string) :
  String.substring 0 (String.length s) (s +:+ t) = s.
Proof.
  induction s as [|a s IH]; simpl.
  - destruct t; reflexivity.
  - rewrite IH. reflexivity.
Qed.

Lemma length_append (s t : string) :
  String.length (s +:+ t) = String.length s + String.length t.
Proof. induction s as [|a s IH]; simpl; [reflexivity|]. rewrite IH. reflexivity. Qed.

Lemma drop_last3_padded (s : string) : Formulas.drop_last3 (s +:+ "   ") = s.
Proof.
  unfold Formulas.drop_last3. rewrite length_append. simpl.
  replace (String.length s + 3 - 3) with (String.length s) by lia.
  apply substring_prefix.
Qed.

(** A string that is none of the four keywords is handed to the parser as
    it is. *)
Lemma get_formula_from_string_other (Formula : Type)
    (parse : string -> result Formula) (rhs_attr : Formula -> option Formula)
    (s : string) (domain : option (Constraints.Domain Q)) (rhs_only : bool) :
  s ∉ Formulas.KEYWORDS ->
  Formulas.get_formula_from_string Formula parse rhs_attr (Formulas.Str Formula s)
    domain rhs_only =
  formula ← parse s;
  Ok (if rhs_only
      then match rhs_attr formula with Some r => r | None => formula end
      else formula).
Proof.
  intros Hs. unfold Formulas.get_formula_from_string, Formulas.KEYWORDS in *.
  repeat match goal with
  | |- context [String.eqb s ?k] =>
      destruct (String.eqb_spec s k) as [->|_]; [exfalso; apply Hs; set_solver|]
  end.
  simpl. rewrite drop_last3_padded. reflexivity.
Qed.

(** C6. For every parser, every string that is not one of the four
    keywords and that the parser rejects makes [get_formula_from_string]
    raise, with the parser's exception, instead of returning a formula. *)
Theorem get_formula_from_string_unparsable (Formula : Type)
    (parse : string -> result Formula) (rhs_attr : Formula -> option Formula)
    (s : string) (domain : option (Constraints.Domain Q)) (rhs_only : bool) (e : exn) :
  s ∉ Formulas.KEYWORDS ->
  parse s = Raise e ->
  Formulas.get_formula_from_string Formula parse rhs_attr (Formulas.Str Formula s)
    domain rhs_only = Raise e.
Proof.
  intros Hs Hp. rewrite get_formula_from_string_other by exact Hs.
  rewrite Hp. reflexivity.
Qed.

Lemma get_formula_from_string_unparsable_witness :
  Formulas.get_formula_from_string string Examples.toy_parse (fun _ => None)
    (Formulas.Str string "(x1") None true = Raise FormulaSyntaxError.
Proof.
  apply (get_formula_from_string_unparsable string Examples.toy_parse (fun _ => None) "(x1").
  - unfold Formulas.KEYWORDS. intros H. repeat (apply elem_of_cons in H as [H|H]; [discriminate H|]).
    by apply elem_of_nil in H.
  - reflexivity.
Defined.

(** ** Sorting *)

Section Sorting.
Context {A : Type} (lt : A -> A -> bool) (R : A -> A -> Prop).
Hypothesis lt_true : forall x y, lt x y = true -> R x y.
Hypothesis lt_false : forall x y, lt x y = false -> R y x.

Lemma insert_sorted_perm (x : A) (l : list A) :
  Permutation (x :: l) (Features.insert_sorted lt x l).
Proof.
  induction l as [|y l IH]; simpl; [reflexivity|].
  destruct (lt y x); [|reflexivity].
  rewrite perm_swap. constructor. exact IH.
Qed.

Lemma sorted_perm (l : list A) : Permutation l (Features.sorted lt l).
Proof.
  induction l as [|x l IH]; simpl; [reflexivity|].
  etransitivity; [|apply insert_sorted_perm]. constructor. exact IH.
Qed.

Lemma insert_sorted_HdRel (a x : A) (l : list A) :
  R a x -> HdRel R a l -> HdRel R a (Features.insert_sorted lt x l).
Proof.
  intros Hax Hl. destruct l as [|y l]; simpl.
  - constructor. exact Hax.
  - destruct (lt y x); constructor; [|exact Hax].
    inversion Hl; subst. assumption.
Qed.

Lemma insert_sorted_Sorted (x : A) (l : list A) :
  Sorted R l -> Sorted R (Features.insert_sorted lt x l).
Proof.
  induction l as [|y l IH]; intros Hs; simpl.
  - repeat constructor.
  - inversion Hs as [|? ? Hs' Hhd]; subst.
    destruct (lt y x) eqn:E.
    + constructor; [apply IH; exact Hs'|].
      apply insert_sorted_HdRel; [apply lt_true; exact E|exact Hhd].
    + constructor; [exact Hs|]. constructor. apply lt_false. exact E.
Qed.

Lemma sorted_Sorted (l : list A) : Sorted R (Features.sorted lt l).
Proof.
  induction l as [|x l IH]; simpl; [constructor|].
  apply insert_sorted_Sorted. exact IH.
Qed.

End Sorting.

Lemma sorted_length {A} (lt : A -> A -> bool) (l : list A) :
  List.length (Features.sorted lt l) = List.length l.
Proof. symmetry. apply Permutation_length, sorted_perm. Qed.

Lemma filter_any_feature (fs : list Features.Feature) :
  List.filter Features.any_feature fs = fs.
Proof. induction fs as [|f fs IH]; simpl; [reflexivity|]. rewrite IH. reflexivity. Qed.

Lemma get_keys_length (fs : list Features.Feature) :
  List.length (Features.get_keys Features.any_feature fs) = List.length fs.
Proof.
  unfold Features.get_keys, Features.get.
  rewrite List.length_map, sorted_length, filter_any_feature. reflexivity.
Qed.

(** ** Discrete inputs *)

Lemma Qlt_bool_true (x y : Q) : Qlt_bool x y = true -> (x <= y)%Q.
Proof.
  unfold Qlt_bool. intros H. apply negb_true_iff in H.
  destruct (Qlt_le_dec x y) as [Hlt|Hle]; [apply Qlt_le_weak; exact Hlt|].
  apply Qle_bool_iff in Hle. congruence.
Qed.

Lemma Qlt_bool_false (x y : Q) : Qlt_bool x y = false -> (y <= x)%Q.
Proof.
  unfold Qlt_bool. intros H. apply negb_false_iff in H.
  apply Qle_bool_iff. exact H.
Qed.

Lemma filter_length_le {A} (f : A -> bool) (l : list A) :
  List.length (List.filter f l) <= List.length l.
Proof. induction l as [|x l IH]; simpl; [lia|]. destruct (f x); simpl; lia. Qed.

Lemma filter_full {A} (f : A -> bool) (l : list A) :
  List.length (List.filter f l) = List.length l -> List.filter f l = l.
Proof.
  induction l as [|x l IH]; simpl; [reflexivity|].
  destruct (f x); simpl; intros H.
  - f_equal. apply IH. lia.
  - pose proof (filter_length_le f l). lia.
Qed.

Lemma distinct_length_le (l : list Q) :
  List.length (Discrete.distinct l) <= List.length l.
Proof.
  induction l as [|x l IH]; simpl; [lia|].
  pose proof (filter_length_le (fun w => negb (Qeq_bool x w)) (Discrete.distinct l)). lia.
Qed.

Lemma filter_all_iff (x : Q) (l : list Q) :
  List.filter (fun w => negb (Qeq_bool x w)) l = l <-> ~ InA Qeq x l.
Proof.
  induction l as [|y l IH]; simpl.
  - split; [intros _ H; inversion H|reflexivity].
  - destruct (Qeq_bool x y) eqn:E; simpl.
    + split.
      * intros H. exfalso.
        pose proof (filter_length_le (fun w => negb (Qeq_bool x w)) l) as Hle.
        rewrite H in Hle. simpl in Hle. lia.
      * intros H. exfalso. apply H. constructor. apply Qeq_bool_iff. exact E.
    + split.
      * intros H Hin. injection H as H. apply IH in H.
        inversion Hin as [? ? Heq|? ? Hin']; subst; [|exact (H Hin')].
        apply Qeq_bool_iff in Heq. congruence.
      * intros H. f_equal. apply IH. intros Hin. apply H. constructor 2. exact Hin.
Qed.

(** [len(values) == len(set(values))] says that no two values are equal. *)
Lemma distinct_length_iff (l : list Q) :
  List.length (Discrete.distinct l) = List.length l <-> NoDupA Qeq l.
Proof.
  induction l as [|x l IH]; simpl.
  - split; [constructor|reflexivity].
  - pose proof (filter_length_le (fun w => negb (Qeq_bool x w)) (Discrete.distinct l)) as H1.
    pose proof (distinct_length_le l) as H2.
    split.
    + intros H.
      assert (Hl : List.length (Discrete.distinct l) = List.length l) by lia.
      assert (Hf : List.filter (fun w => negb (Qeq_bool x w)) (Discrete.distinct l)
                   = Discrete.distinct l) by (apply filter_full; lia).
      pose proof (proj1 IH Hl) as Hnd.
      assert (Hd : Discrete.distinct l = l).
      { clear -Hl. induction l as [|y l IHl]; simpl in *; [reflexivity|].
        pose proof (filter_length_le (fun w => negb (Qeq_bool y w)) (Discrete.distinct l)).
        pose proof (distinct_length_le l).
        assert (E : Discrete.distinct l = l) by (apply IHl; lia).
        rewrite E in *. f_equal. apply filter_full. lia. }
      rewrite Hd in Hf. constructor; [apply filter_all_iff; exact Hf|exact Hnd].
    + intros H. inversion H as [|? ? Hx Hnd]; subst.
      assert (Hd : Discrete.distinct l = l).
      { clear -Hnd. induction Hnd as [|y l Hy Hnd IHl]; simpl; [reflexivity|].
        rewrite IHl. f_equal. apply filter_all_iff. exact Hy. }
      rewrite Hd. rewrite (proj2 (filter_all_iff x l) Hx). reflexivity.
Qed.

Lemma Sorted_Qle_distinct_Qlt (l : list Q) :
  Sorted Qle l -> NoDupA Qeq l -> StronglySorted Qlt l.
Proof.
  intros Hs Hnd. apply Sorted_StronglySorted in Hs; [|intros x y z; apply Qle_trans].
  induction Hs as [|x l Hs IH Hall]; [constructor|].
  inversion Hnd as [|? ? Hx Hnd']; subst.
  constructor; [apply IH; exact Hnd'|].
  rewrite List.Forall_forall in *. intros y Hy.
  specialize (Hall y Hy). apply Qle_lteq in Hall.
  destruct Hall as [Hlt|Heq]; [exact Hlt|].
  exfalso. apply Hx. apply InA_alt. exists y. split; [exact Heq|exact Hy].
Qed.

(** C5 (as the code has it). Let the given numbers convert to the floats
    [floats].  Constructing a [DiscreteInput] fails with a [ValueError]
    exactly when the list of values is empty or two of the floats are equal.
    On a non-empty list of numbers whose floats are pairwise different the
    construction succeeds and stores the floats in strictly increasing
    order: the stored list is a permutation of the floats. *)
Theorem discrete_input_unique_sorted (key : string) (values floats : list Q) :
  map_result PyFloat.to_float values = Ok floats ->
  (Discrete.new key values = Raise ValueError <-> values = [] \/ ~ NoDupA Qeq floats) /\
  (values <> [] -> NoDupA Qeq floats ->
   exists stored,
     Discrete.new key values
       = Ok (Features.mkFeature key (Features.DiscreteInput stored)) /\
     Permutation floats stored /\ StronglySorted Qlt stored).
Proof.
  intros Hfloats.
  assert (Hok : values <> [] -> NoDupA Qeq floats ->
    Discrete.new key values
    = Ok (Features.mkFeature key
            (Features.DiscreteInput (Features.sorted Qlt_bool floats)))).
  { intros Hne Hnd. unfold Discrete.new, Discrete.validate_values_unique.
    destruct values as [|v vs]; [congruence|].
    change (Nat.eqb (List.length (v :: vs)) 0) with false. cbv iota.
    rewrite Hfloats. cbn [mbind result_bind].
    apply distinct_length_iff in Hnd.
    rewrite Hnd, Nat.eqb_refl. reflexivity. }
  split.
  - split.
    + intros H. destruct values as [|v vs]; [left; reflexivity|right].
      intros Hnd. rewrite Hok in H by (congruence || exact Hnd). discriminate H.
    + intros [->|Hnd]; [reflexivity|].
      unfold Discrete.new, Discrete.validate_values_unique.
      destruct values as [|v vs]; [reflexivity|].
      change (Nat.eqb (List.length (v :: vs)) 0) with false. cbv iota.
      rewrite Hfloats. cbn [mbind result_bind].
      destruct (Nat.eqb_spec (List.length floats)
                  (List.length (Discrete.distinct floats))) as [E|E];
        [|reflexivity].
      exfalso. apply Hnd. apply distinct_length_iff. symmetry. exact E.
  - intros Hne Hnd. exists (Features.sorted Qlt_bool floats).
    split; [apply Hok; assumption|].
    pose proof (sorted_perm Qlt_bool floats) as Hp.
    split; [exact Hp|].
    apply Sorted_Qle_distinct_Qlt.
    + apply (sorted_Sorted Qlt_bool Qle).
      * intros x y. apply Qlt_bool_true.
      * intros x y. apply Qlt_bool_false.
    + eapply PermutationA_preserves_NoDupA; [apply Q_Setoid| |exact Hnd].
      apply Permutation_PermutationA; [apply Q_Setoid|exact Hp].
Qed.

Lemma discrete_input_unique_sorted_witness :
  exists stored,
    Discrete.new "d" [3; 1; 2]%Q
      = Ok (Features.mkFeature "d" (Features.DiscreteInput stored)) /\
    Permutation [3; 1; 2]%Q stored /\ StronglySorted Qlt stored.
Proof.
  apply (proj2 (discrete_input_unique_sorted "d" [3; 1; 2]%Q [3; 1; 2]%Q
                  ltac:(vm_compute; reflexivity))).
  - discriminate.
  - repeat constructor; intros H;
      repeat match goal with
      | H : InA _ _ _ |- _ => inversion H; subst; clear H
      end;
      match goal with H : (_ == _)%Q |- _ => vm_compute in H; discriminate H end.
Defined.

(** The claim as stated fails: a list with a repeated value is refused, not
    de-duplicated. *)
Lemma discrete_input_duplicates_refused :
  Discrete.new "d" [1; 1]%Q = Raise ValueError /\
  ~ (exists f, Discrete.new "d" [1; 1]%Q = Ok f).
Proof.
  split; [vm_compute; reflexivity|]. intros [f H]. vm_compute in H. discriminate H.
Qed.

(** Two integers that differ, but not as floats, are refused as well: both
    [2^53] and [2^53 + 1] convert to the double [2^53]. *)
Lemma discrete_input_equal_floats_refused :
  map_result PyFloat.to_float [9007199254740992; 9007199254740993]%Q
    = Ok [9007199254740992; 9007199254740992]%Q /\
  Discrete.new "d" [9007199254740992; 9007199254740993]%Q = Raise ValueError.
Proof. split; vm_compute; reflexivity. Qed.

(** ** G-optimality *)

Lemma tabulate_nrows (r c : nat) (f : nat -> nat -> Q) :
  Optimality.nrows (Optimality.tabulate r c f) = r.
Proof.
  unfold Optimality.nrows, Optimality.tabulate.
  rewrite List.length_map, List.length_seq. reflexivity.
Qed.

Lemma tabulate_ncols (r c : nat) (f : nat -> nat -> Q) :
  0 < r -> Optimality.ncols (Optimality.tabulate r c f) = c.
Proof.
  intros Hr. destruct r as [|r]; [lia|].
  unfold Optimality.ncols, Optimality.tabulate. simpl.
  rewrite List.length_map, List.length_seq. reflexivity.
Qed.

Lemma scale_nrows (delta : Q) (A : Optimality.matrix) :
  Optimality.nrows (Optimality.scale delta A) = Optimality.nrows A.
Proof. unfold Optimality.nrows, Optimality.scale. apply List.length_map. Qed.

Lemma scale_ncols (delta : Q) (A : Optimality.matrix) :
  Optimality.ncols (Optimality.scale delta A) = Optimality.ncols A.
Proof.
  destruct A as [|r A]; [reflexivity|].
  unfold Optimality.ncols, Optimality.scale. simpl. apply List.length_map.
Qed.

(** The code agrees with the specification's formula on square model
    matrices, where [len(X)] is also the number of model terms. *)
Lemma g_optimality_square (linalg_inv : Optimality.matrix -> result Optimality.matrix)
    (X : Optimality.matrix) (delta : Q) :
  Optimality.nrows X = Optimality.ncols X ->
  Optimality.g_optimality linalg_inv X delta
  = Optimality.g_optimality_spec linalg_inv X delta.
Proof.
  intros H. unfold Optimality.g_optimality, Optimality.g_optimality_spec.
  unfold Optimality.nrows in H. rewrite H. reflexivity.
Qed.

Lemma matmul_transpose_shape (X : Optimality.matrix) :
  0 < Optimality.ncols X ->
  exists M, Optimality.matmul (Optimality.transpose X) X = Ok M /\
            Optimality.nrows M = Optimality.ncols X.
Proof.
  intros Hp. unfold Optimality.matmul.
  assert (E : Optimality.ncols (Optimality.transpose X) = Optimality.nrows X)
    by (unfold Optimality.transpose; apply tabulate_ncols; exact Hp).
  rewrite E, Nat.eqb_refl. eexists. split; [reflexivity|].
  rewrite tabulate_nrows. unfold Optimality.transpose. apply tabulate_nrows.
Qed.

Lemma add_rows_incompatible (A B : Optimality.matrix) :
  Optimality.nrows A <> Optimality.nrows B ->
  Optimality.nrows A <> 1 -> Optimality.nrows B <> 1 ->
  Optimality.add A B = Raise ValueError.
Proof.
  intros Hne HA HB. unfold Optimality.add, Optimality.broadcast_dim.
  destruct (Nat.eqb_spec (Optimality.nrows A) (Optimality.nrows B)); [lia|].
  destruct (Nat.eqb_spec (Optimality.nrows A) 1); [lia|].
  destruct (Nat.eqb_spec (Optimality.nrows B) 1); [lia|].
  reflexivity.
Qed.

(** With [n] experiments and [p] model terms, [n <> p] and both above 1, the
    sum [X.T @ X + delta * np.eye(len(X))] cannot be broadcast. *)
Lemma g_optimality_not_square_raises
    (linalg_inv : Optimality.matrix -> result Optimality.matrix)
    (X : Optimality.matrix) (delta : Q) :
  1 < Optimality.nrows X -> 1 < Optimality.ncols X ->
  Optimality.nrows X <> Optimality.ncols X ->
  Optimality.g_optimality linalg_inv X delta = Raise ValueError.
Proof.
  intros Hn Hp Hne. unfold Optimality.g_optimality.
  destruct (matmul_transpose_shape X) as (M & -> & HM); [lia|].
  cbn [mbind result_bind].
  rewrite add_rows_incompatible; [reflexivity| | |];
    rewrite ?scale_nrows; unfold Optimality.eye; rewrite ?tabulate_nrows;
    fold (Optimality.nrows X); lia.
Qed.

(** C2 (where the code departs from it). On the model matrix of three
    experiments and two model terms [[1,0],[0,1],[1,1]], whatever
    [np.linalg.inv] does and for every [delta], [g_optimality] raises a
    [ValueError]: the identity it adds has the dimension of the rows of [X],
    3, and not that of [X.T @ X], 2. *)
Theorem g_optimality_tall_matrix_raises
    (linalg_inv : Optimality.matrix -> result Optimality.matrix) (delta : Q) :
  Optimality.g_optimality linalg_inv Examples.X_tall delta = Raise ValueError.
Proof.
  apply g_optimality_not_square_raises; vm_compute; lia.
Qed.

(** On the same matrix the hat matrix of the specification exists and its
    largest diagonal entry is 2/3 for [delta = 0]. *)
Lemma g_optimality_spec_tall_matrix :
  exists g, Optimality.g_optimality_spec Optimality.inv2 Examples.X_tall 0 = Ok g /\
            (g == 2 # 3)%Q.
Proof. eexists. split; [vm_compute; reflexivity|]. reflexivity. Qed.

(** With a single experiment the code returns, but not the leverage: the
    ridge term is added to every entry of [X.T @ X]. *)
Lemma g_optimality_one_row :
  exists g g', Optimality.g_optimality Optimality.inv2 [[1; 0]]%Q (1 # 10) = Ok g /\
     Optimality.g_optimality_spec Optimality.inv2 [[1; 0]]%Q (1 # 10) = Ok g' /\
     (g == 1)%Q /\ (g' == 10 # 11)%Q.
Proof.
  eexists. eexists. split; [vm_compute; reflexivity|].
  split; [vm_compute; reflexivity|]. split; reflexivity.
Qed.

(** ** One-hot encoding *)

(** C10 (where the code departs from it). For the categorical input with
    key ["a_b"] and categories ["x"], ["y"], decoding the one-hot encoding
    of the series [["x"]] gives [["b"]]: the label ["a_b_x"] is split at
    every separator and the second piece is taken, which is a part of the
    key. *)
Theorem onehot_roundtrip_key_with_separator :
  OneHot.from_onehot_encoding "a_b" ["x"; "y"]
    (OneHot.to_onehot_encoding "a_b" ["x"; "y"] ["x"]) = Ok ["b"].
Proof. vm_compute. reflexivity. Qed.

(** The same happens for a separator inside a category. *)
Lemma onehot_roundtrip_category_with_separator :
  OneHot.from_onehot_encoding "k" ["a_1"; "a_2"]
    (OneHot.to_onehot_encoding "k" ["a_1"; "a_2"] ["a_2"; "a_1"]) = Ok ["a"; "a"].
Proof. vm_compute. reflexivity. Qed.

(** Where neither the key nor a category holds the separator, the round
    trip does hold. *)

Lemma append_cons (a : ascii) (s t : string) : String a s +:+ t = String a (s +:+ t).
Proof. reflexivity. Qed.

Lemma append_nil_l (t : string) : "" +:+ t = t.
Proof. reflexivity. Qed.

Lemma append_nil_r (s : string) : s +:+ "" = s.
Proof.
  induction s as [|a s IH]; [reflexivity|]. rewrite append_cons, IH. reflexivity.
Qed.

Lemma append_inj_r (s t t' : string) : s +:+ t = s +:+ t' -> t = t'.
Proof.
  induction s as [|a s IH]; [rewrite !append_nil_l; auto|].
  rewrite !append_cons. intros [= H]. apply IH. exact H.
Qed.

Lemma string_app_assoc (s t u : string) : (s +:+ t) +:+ u = s +:+ (t +:+ u).
Proof.
  induction s as [|a s IH]; [reflexivity|]. rewrite !append_cons. f_equal. exact IH.
Qed.

Lemma column_name_inj (key c c' : string) :
  OneHot.column_name key c = OneHot.column_name key c' -> c = c'.
Proof.
  unfold OneHot.column_name. intros H. apply append_inj_r in H.
  injection H as H. exact H.
Qed.

Lemma split_acc_no_sep (s piece : string) :
  OneHot.has_sep s = false ->
  OneHot.split_acc OneHot._CAT_SEP s piece = [piece +:+ s].
Proof.
  revert piece. induction s as [|a s IH]; intros piece Hs.
  - simpl. rewrite append_nil_r. reflexivity.
  - cbn [OneHot.has_sep] in Hs. apply orb_false_iff in Hs. destruct Hs as [Ha Hs].
    cbn [OneHot.split_acc]. rewrite Ha.
    rewrite IH by exact Hs. rewrite string_app_assoc, append_cons, append_nil_l.
    reflexivity.
Qed.

Lemma split_acc_at_sep (s rest piece : string) :
  OneHot.has_sep s = false ->
  OneHot.split_acc OneHot._CAT_SEP (s +:+ String OneHot._CAT_SEP rest) piece
  = (piece +:+ s) :: OneHot.split_acc OneHot._CAT_SEP rest "".
Proof.
  revert piece. induction s as [|a s IH]; intros piece Hs.
  - rewrite append_nil_l, append_nil_r. cbn [OneHot.split_acc].
    rewrite Ascii.eqb_refl. reflexivity.
  - cbn [OneHot.has_sep] in Hs. apply orb_false_iff in Hs. destruct Hs as [Ha Hs].
    rewrite append_cons. cbn [OneHot.split_acc]. rewrite Ha.
    rewrite IH by exact Hs. rewrite string_app_assoc, append_cons, append_nil_l.
    reflexivity.
Qed.

Lemma split_column_name (key c : string) :
  OneHot.has_sep key = false -> OneHot.has_sep c = false ->
  List.nth 1 (OneHot.split OneHot._CAT_SEP (OneHot.column_name key c)) "" = c.
Proof.
  intros Hk Hc. unfold OneHot.split, OneHot.column_name.
  rewrite split_acc_at_sep by exact Hk. rewrite split_acc_no_sep by exact Hc.
  rewrite append_nil_l. reflexivity.
Qed.

Lemma dict_set_fresh {V} (d : list (string * V)) (k : string) (v : V) :
  Pandas.dict_has d k = false -> Pandas.dict_set d k v = d ++ [(k, v)].
Proof.
  induction d as [|[k' v'] d IH]; simpl; [reflexivity|].
  unfold Pandas.dict_has. simpl. intros H. apply orb_false_iff in H. destruct H as [H1 H2].
  rewrite H1. f_equal. apply IH. exact H2.
Qed.

Lemma dict_has_app {V} (d1 d2 : list (string * V)) (k : string) :
  Pandas.dict_has (d1 ++ d2) k = Pandas.dict_has d1 k || Pandas.dict_has d2 k.
Proof. unfold Pandas.dict_has. apply existsb_app. Qed.

Lemma dict_has_columns (key : string) (g : string -> list Q) (cats : list string) (c : string) :
  Pandas.dict_has (List.map (fun c' => (OneHot.column_name key c', g c')) cats)
    (OneHot.column_name key c) = true <-> In c cats.
Proof.
  unfold Pandas.dict_has. rewrite existsb_exists. split.
  - intros ([k v] & Hin & E). apply in_map_iff in Hin. destruct Hin as (c' & [= <- <-] & Hc').
    simpl in E. apply String.eqb_eq, column_name_inj in E. subst. exact Hc'.
  - intros H. exists (OneHot.column_name key c, g c). split.
    + apply in_map_iff. exists c. split; [reflexivity|exact H].
    + apply String.eqb_refl.
Qed.

Lemma onehot_columns (key : string) (g : string -> list Q) (cats : list string)
    (acc : list string) :
  List.NoDup (acc ++ cats) ->
  foldl (fun d c => Pandas.dict_set d (OneHot.column_name key c) (g c))
        (List.map (fun c => (OneHot.column_name key c, g c)) acc) cats
  = List.map (fun c => (OneHot.column_name key c, g c)) (acc ++ cats).
Proof.
  revert acc. induction cats as [|c cats IH]; intros acc Hnd; simpl.
  - rewrite app_nil_r. reflexivity.
  - rewrite dict_set_fresh.
    + replace (List.map (fun c0 => (OneHot.column_name key c0, g c0)) acc
                 ++ [(OneHot.column_name key c, g c)])
        with (List.map (fun c0 => (OneHot.column_name key c0, g c0)) (acc ++ [c]))
        by (rewrite List.map_app; reflexivity).
      rewrite IH; rewrite <- app_assoc; [reflexivity|exact Hnd].
    + destruct (Pandas.dict_has _ _) eqn:E; [|reflexivity].
      apply dict_has_columns in E. exfalso.
      apply List.NoDup_remove_2 in Hnd. apply Hnd. apply in_or_app. left. exact E.
Qed.

Lemma onehot_column (key : string) (g : string -> list Q) (cats : list string) (c : string) :
  In c cats ->
  OneHot.column (Pandas.mkFrame 0 (List.map (fun c => (OneHot.column_name key c, g c)) cats))
    (OneHot.column_name key c) = g c.
Proof.
  unfold OneHot.column. simpl. induction cats as [|c0 cats IH]; intros Hin; [destruct Hin|].
  simpl. destruct (String.eqb_spec (OneHot.column_name key c0) (OneHot.column_name key c))
    as [E|NE].
  - apply column_name_inj in E. subst. reflexivity.
  - destruct Hin as [->|Hin]; [congruence|]. apply IH. exact Hin.
Qed.

Lemma idxmax_from_one (l : string) (v : string) (key : string) (cats : list string) :
  OneHot.idxmax_from l 1
    (List.map (fun c => (OneHot.column_name key c, if String.eqb v c then 1%Q else 0%Q)) cats)
  = l.
Proof.
  induction cats as [|c cats IH]; simpl; [reflexivity|].
  destruct (String.eqb v c); simpl; exact IH.
Qed.

Lemma idxmax_from_zero (l : string) (v : string) (key : string) (cats : list string) :
  In v cats ->
  OneHot.idxmax_from l 0
    (List.map (fun c => (OneHot.column_name key c, if String.eqb v c then 1%Q else 0%Q)) cats)
  = OneHot.column_name key v.
Proof.
  induction cats as [|c cats IH]; intros Hin; [destruct Hin|]. simpl.
  destruct (String.eqb_spec v c) as [->|Hne]; simpl.
  - apply idxmax_from_one.
  - destruct Hin as [->|Hin]; [congruence|]. apply IH. exact Hin.
Qed.

Lemma idxmax_indicator (v : string) (key : string) (cats : list string) :
  In v cats ->
  OneHot.idxmax
    (List.map (fun c => (OneHot.column_name key c, if String.eqb v c then 1%Q else 0%Q)) cats)
  = Ok (OneHot.column_name key v).
Proof.
  destruct cats as [|c cats]; intros Hin; [destruct Hin|]. simpl.
  destruct (String.eqb_spec v c) as [->|Hne].
  - rewrite idxmax_from_one. reflexivity.
  - destruct Hin as [->|Hin]; [congruence|]. rewrite idxmax_from_zero by exact Hin.
    reflexivity.
Qed.

Lemma onehot_map_result {A B} (f : A -> result B) (g : A -> B) (l : list A) :
  (forall x, In x l -> f x = Ok (g x)) -> map_result f l = Ok (List.map g l).
Proof.
  induction l as [|x l IH]; intros H; simpl; [reflexivity|].
  rewrite (H x (or_introl eq_refl)). simpl. rewrite IH; [reflexivity|].
  intros y Hy. apply H. right. exact Hy.
Qed.

Lemma nth_map_in {A B} (f : A -> B) (l : list A) (i : nat) (d : B) (d' : A) :
  i < List.length l -> List.nth i (List.map f l) d = f (List.nth i l d').
Proof.
  revert i. induction l as [|x l IH]; intros [|i] H; simpl in *; try lia; [reflexivity|].
  apply IH. lia.
Qed.

Lemma map_nth_seq {A} (l : list A) (d : A) :
  List.map (fun i => List.nth i l d) (seq 0 (List.length l)) = l.
Proof.
  induction l as [|x l IH]; [reflexivity|]. simpl. f_equal.
  rewrite <- List.seq_shift, List.map_map. exact IH.
Qed.

(** For a key and categories without the separator, categories that differ
    from each other, and a non-empty series of categories, decoding the
    encoding gives the series back. *)
Lemma onehot_roundtrip_without_separator (key : string) (categories values : list string) :
  OneHot.has_sep key = false ->
  (forall c, In c categories -> OneHot.has_sep c = false) ->
  List.NoDup categories ->
  values <> [] ->
  (forall v, In v values -> In v categories) ->
  OneHot.from_onehot_encoding key categories
    (OneHot.to_onehot_encoding key categories values) = Ok values.
Proof.
  intros Hkey Hcats Hnd Hne Hvals.
  unfold OneHot.to_onehot_encoding.
  pose proof (onehot_columns key (fun c => OneHot.indicator c values) categories [] Hnd) as Hcols.
  simpl in Hcols. rewrite Hcols. clear Hcols.
  unfold OneHot.from_onehot_encoding.
  assert (Hall : existsb (fun c => negb (OneHot.has_column
             (Pandas.mkFrame (List.length values)
                (List.map (fun c0 => (OneHot.column_name key c0, OneHot.indicator c0 values))
                   categories)) c))
             (List.map (OneHot.column_name key) categories) = false).
  { destruct (existsb _ _) eqn:E; [|reflexivity]. exfalso.
    apply existsb_exists in E. destruct E as (name & Hin & E).
    apply in_map_iff in Hin. destruct Hin as (c & <- & Hc).
    apply negb_true_iff in E. unfold OneHot.has_column in E. cbn [Pandas.columns] in E.
    pose proof (proj2 (dict_has_columns key (fun c0 => OneHot.indicator c0 values)
                        categories c) Hc) as H. cbv beta in H. congruence. }
  rewrite Hall. cbn [Pandas.n_rows].
  rewrite (onehot_map_result _
             (fun i => OneHot.column_name key (List.nth i values ""))).
  - cbn [mbind result_bind].
    destruct values as [|v0 vs]; [congruence|].
    change (Nat.eqb (List.length (v0 :: vs)) 0) with false. cbv iota. f_equal.
    rewrite List.map_map.
    rewrite <- (map_nth_seq (v0 :: vs) "") at 2.
    apply List.map_ext_in. intros i Hi. apply in_seq in Hi.
    apply split_column_name; [exact Hkey|]. apply Hcats, Hvals.
    apply List.nth_In. lia.
  - intros i Hi. apply in_seq in Hi.
    assert (Hv : In (List.nth i values "") categories)
      by (apply Hvals, List.nth_In; lia).
    rewrite <- (idxmax_indicator (List.nth i values "") key categories Hv).
    f_equal. rewrite List.map_map. apply List.map_ext_in. intros c Hc. f_equal.
    unfold OneHot.column. cbn [Pandas.columns].
    pose proof (onehot_column key (fun c0 => OneHot.indicator c0 values) categories c Hc) as Hcol.
    unfold OneHot.column in Hcol. cbn [Pandas.columns] in Hcol. rewrite Hcol.
    unfold OneHot.indicator.
    apply (nth_map_in (fun v => if String.eqb v c then 1%Q else 0%Q) values i 0%Q ""). lia.
Qed.

(** ** Loops that may raise *)

Lemma for_each_benign {A} (xs : list A) (body : A -> result unit) :
  (forall x, In x xs -> benign (body x)) ->
  benign (for_each xs body) /\
  (for_each xs body = Raise ValueError <-> exists x, In x xs /\ body x = Raise ValueError).
Proof.
  induction xs as [|x xs IH]; intros Hb; simpl.
  - split; [left; reflexivity|]. split; [discriminate|intros (x & [] & _)].
  - destruct IH as [IHb IHr]; [intros y Hy; apply Hb; right; exact Hy|].
    destruct (Hb x (or_introl eq_refl)) as [E|E]; rewrite E; simpl.
    + split; [exact IHb|]. rewrite IHr. split.
      * intros (y & Hy & Hr). exists y. split; [right; exact Hy|exact Hr].
      * intros (y & [->|Hy] & Hr); [congruence|]. exists y. split; assumption.
    + split; [right; reflexivity|]. split; [|reflexivity].
      intros _. exists x. split; [left; reflexivity|exact E].
Qed.

Lemma benign_not_raise (r : result unit) :
  benign r -> (r = Ok tt <-> r <> Raise ValueError).
Proof. intros [->| ->]; split; congruence. Qed.

(** ** Checking NChooseK constraints *)

Lemma contains_In (names : list string) (name : string) :
  Np.contains names name = true <-> In name names.
Proof.
  unfold Np.contains. rewrite existsb_exists. split.
  - intros (x & Hx & E). apply String.eqb_eq in E. subst. exact Hx.
  - intros H. exists name. split; [exact H|apply String.eqb_refl].
Qed.

Lemma dedupe_In (l : list string) (x : string) : In x (Np.dedupe l) <-> In x l.
Proof.
  induction l as [|y l IH]; simpl; [reflexivity|].
  rewrite List.filter_In, IH. split.
  - intros [H|[H _]]; [left|right]; assumption.
  - intros [H|H]; [left; exact H|].
    destruct (String.eqb_spec y x) as [E|NE]; [left; exact E|right].
    split; [exact H|reflexivity].
Qed.

Lemma unique_In (l : list string) (x : string) : In x (Np.unique l) <-> In x l.
Proof.
  unfold Np.unique. split; intros H.
  - apply dedupe_In. eapply Permutation_in; [symmetry; apply sorted_perm|exact H].
  - apply dedupe_In in H. eapply Permutation_in; [apply sorted_perm|exact H].
Qed.

Lemma Qgt_bool_true (a b : Q) : Qgt_bool a b = true <-> (b < a)%Q.
Proof.
  unfold Qgt_bool. rewrite negb_true_iff. split.
  - intros H. apply Qnot_le_lt. intros Hle. apply Qle_bool_iff in Hle. congruence.
  - intros H. destruct (Qle_bool a b) eqn:E; [|reflexivity].
    apply Qle_bool_iff in E. exfalso. exact (Qlt_not_le _ _ H E).
Qed.

Lemma check_zero_in_bounds_continuous (d : Constraints.Domain Q) (name : string)
    (f : Features.Feature) (lo hi : Q) :
  Features.find_last name (Constraints.inputs d) = Some f ->
  Features.kind f = Features.ContinuousInput (lo, hi) ->
  benign (NChooseKBounds.check_zero_in_bounds d name) /\
  (NChooseKBounds.check_zero_in_bounds d name = Raise ValueError
   <-> (0 < lo)%Q \/ (hi < 0)%Q).
Proof.
  intros Hf Hk. unfold NChooseKBounds.check_zero_in_bounds, Features.get_by_key,
    Features.bounds_of.
  rewrite Hf. simpl. rewrite Hk. simpl.
  destruct (Qgt_bool lo 0) eqn:E1; simpl.
  - split; [right; reflexivity|]. split; [|reflexivity].
    intros _. left. apply Qgt_bool_true. exact E1.
  - destruct (Qgt_bool 0 hi) eqn:E2.
    + split; [right; reflexivity|]. split; [|reflexivity].
      intros _. right. apply Qgt_bool_true. exact E2.
    + split; [left; reflexivity|]. split; [discriminate|].
      intros [H|H]; apply Qgt_bool_true in H; congruence.
Qed.

Lemma check_disjoint_spec (c c' : Constraints.Constraint Q) :
  benign (NChooseKBounds.check_disjoint c c') /\
  (NChooseKBounds.check_disjoint c c' = Raise ValueError
   <-> c <> c' /\ exists name, In name (Constraints.nchoosek_features c) /\
                               In name (Constraints.nchoosek_features c')).
Proof.
  unfold NChooseKBounds.check_disjoint.
  destruct (decide (c = c')) as [->|Hne].
  - rewrite bool_decide_eq_false_2 by (intros H; apply H; reflexivity).
    split; [left; reflexivity|]. split; [discriminate|intros [H _]; congruence].
  - rewrite bool_decide_eq_true_2 by exact Hne.
    edestruct (for_each_benign (Constraints.nchoosek_features c)
      (fun name => if Np.contains (Constraints.nchoosek_features c') name
                   then Raise ValueError else Ok tt)) as [Hb Hr].
    { intros x _. destruct (Np.contains _ x); [right|left]; reflexivity. }
    split; [exact Hb|]. rewrite Hr. split.
    + intros (x & Hx & E). split; [exact Hne|]. exists x. split; [exact Hx|].
      apply contains_In. destruct (Np.contains _ x); [reflexivity|discriminate].
    + intros (_ & x & Hx & Hx'). exists x. split; [exact Hx|].
      apply contains_In in Hx'. rewrite Hx'. reflexivity.
Qed.

(** C3 (as the code has it). Let every feature named by an NChooseK
    constraint of the domain be a continuous input of the domain.  Then
    [check_nchoosek_constraints_as_bounds] raises a [ValueError] exactly
    when some feature named by an NChooseK constraint has 0 outside its
    closed interval of bounds (lower bound above 0 or upper bound below 0),
    or two NChooseK constraints that are not equal share a feature; in
    every other case it returns without an exception.  Zero on the boundary
    of the bounds is accepted.  [nchoosek_constraints_as_bounds] runs the
    check first and raises the [ValueError] whenever the check does. *)
Theorem check_nchoosek_constraints_as_bounds_spec (d : Constraints.Domain Q) :
  (forall c name,
     In c (List.filter Constraints.is_nchoosek (Constraints.constraints d)) ->
     In name (Constraints.nchoosek_features c) ->
     exists f b, Features.find_last name (Constraints.inputs d) = Some f /\
                 Features.kind f = Features.ContinuousInput b) ->
  let violated :=
    (exists c name f lo hi,
       In c (List.filter Constraints.is_nchoosek (Constraints.constraints d)) /\
       In name (Constraints.nchoosek_features c) /\
       Features.find_last name (Constraints.inputs d) = Some f /\
       Features.kind f = Features.ContinuousInput (lo, hi) /\
       ((0 < lo)%Q \/ (hi < 0)%Q)) \/
    (exists c c' name,
       In c (List.filter Constraints.is_nchoosek (Constraints.constraints d)) /\
       In c' (List.filter Constraints.is_nchoosek (Constraints.constraints d)) /\
       c <> c' /\
       In name (Constraints.nchoosek_features c) /\
       In name (Constraints.nchoosek_features c')) in
  (NChooseKBounds.check_nchoosek_constraints_as_bounds d = Raise ValueError <-> violated) /\
  (NChooseKBounds.check_nchoosek_constraints_as_bounds d = Ok tt <-> ~ violated) /\
  (violated ->
   forall (rng : Type) (shuffle : rng -> list (list nat) -> list (list nat) * rng)
          (g : rng) (n : nat),
     NChooseKBounds.nchoosek_constraints_as_bounds rng shuffle g d n = Raise ValueError).
Proof.
  intros Hwf violated.
  set (nck := List.filter Constraints.is_nchoosek (Constraints.constraints d)) in *.
  set (loop1 := for_each nck (fun c =>
     for_each (Np.unique (Constraints.nchoosek_features c))
       (NChooseKBounds.check_zero_in_bounds d))).
  set (loop2 := for_each nck (fun c =>
     for_each nck (fun _c => NChooseKBounds.check_disjoint c _c))).
  assert (H1 : benign loop1 /\
    (loop1 = Raise ValueError <->
     exists c name f lo hi, In c nck /\ In name (Constraints.nchoosek_features c) /\
       Features.find_last name (Constraints.inputs d) = Some f /\
       Features.kind f = Features.ContinuousInput (lo, hi) /\
       ((0 < lo)%Q \/ (hi < 0)%Q))).
  { assert (Hinner : forall c, In c nck ->
      benign (for_each (Np.unique (Constraints.nchoosek_features c))
                (NChooseKBounds.check_zero_in_bounds d)) /\
      (for_each (Np.unique (Constraints.nchoosek_features c))
         (NChooseKBounds.check_zero_in_bounds d) = Raise ValueError <->
       exists name f lo hi, In name (Constraints.nchoosek_features c) /\
         Features.find_last name (Constraints.inputs d) = Some f /\
         Features.kind f = Features.ContinuousInput (lo, hi) /\
         ((0 < lo)%Q \/ (hi < 0)%Q))).
    { intros c Hc.
      edestruct (for_each_benign (Np.unique (Constraints.nchoosek_features c))
        (NChooseKBounds.check_zero_in_bounds d)) as [Hb Hr].
      { intros name Hn. rewrite unique_In in Hn.
        destruct (Hwf c name Hc Hn) as (f & [lo hi] & Hf & Hk).
        apply (check_zero_in_bounds_continuous d name f lo hi Hf Hk). }
      split; [exact Hb|]. rewrite Hr. split.
      - intros (name & Hn & E). rewrite unique_In in Hn.
        destruct (Hwf c name Hc Hn) as (f & [lo hi] & Hf & Hk).
        exists name, f, lo, hi. repeat split; try assumption.
        apply (check_zero_in_bounds_continuous d name f lo hi Hf Hk). exact E.
      - intros (name & f & lo & hi & Hn & Hf & Hk & Hv).
        exists name. split; [apply unique_In; exact Hn|].
        apply (check_zero_in_bounds_continuous d name f lo hi Hf Hk). exact Hv. }
    edestruct (for_each_benign nck (fun c =>
      for_each (Np.unique (Constraints.nchoosek_features c))
        (NChooseKBounds.check_zero_in_bounds d))) as [Hb Hr].
    { intros c Hc. apply Hinner. exact Hc. }
    split; [exact Hb|]. fold loop1 in Hr. rewrite Hr. split.
    - intros (c & Hc & E). apply (Hinner c Hc) in E.
      destruct E as (name & f & lo & hi & E). exists c, name, f, lo, hi. tauto.
    - intros (c & name & f & lo & hi & Hc & E). exists c. split; [exact Hc|].
      apply (Hinner c Hc). exists name, f, lo, hi. exact E. }
  assert (H2 : benign loop2 /\
    (loop2 = Raise ValueError <->
     exists c c' name, In c nck /\ In c' nck /\ c <> c' /\
       In name (Constraints.nchoosek_features c) /\
       In name (Constraints.nchoosek_features c'))).
  { assert (Hinner : forall c,
      benign (for_each nck (fun _c => NChooseKBounds.check_disjoint c _c)) /\
      (for_each nck (fun _c => NChooseKBounds.check_disjoint c _c) = Raise ValueError <->
       exists c', In c' nck /\ NChooseKBounds.check_disjoint c c' = Raise ValueError)).
    { intros c. apply for_each_benign. intros c' _. apply check_disjoint_spec. }
    edestruct (for_each_benign nck (fun c =>
      for_each nck (fun _c => NChooseKBounds.check_disjoint c _c))) as [Hb Hr].
    { intros c _. apply Hinner. }
    split; [exact Hb|]. fold loop2 in Hr. rewrite Hr. split.
    - intros (c & Hc & E). apply Hinner in E. destruct E as (c' & Hc' & E).
      apply check_disjoint_spec in E. destruct E as (Hne & name & Hn & Hn').
      exists c, c', name. tauto.
    - intros (c & c' & name & Hc & Hc' & Hne & Hn & Hn').
      exists c. split; [exact Hc|]. apply Hinner. exists c'. split; [exact Hc'|].
      apply check_disjoint_spec. split; [exact Hne|]. exists name. tauto. }
  assert (Hcheck : NChooseKBounds.check_nchoosek_constraints_as_bounds d
                   = (loop1 ;; loop2)).
  { unfold NChooseKBounds.check_nchoosek_constraints_as_bounds.
    fold nck. fold loop1. fold loop2.
    destruct (Constraints.constraints d) as [|c0 cs] eqn:Ecs.
    - subst loop1 loop2 nck. simpl. reflexivity.
    - change (Nat.eqb (List.length (c0 :: cs)) 0) with false. cbv iota.
      destruct nck as [|c1 nck'] eqn:Enck.
      + subst loop1 loop2. simpl. reflexivity.
      + reflexivity. }
  assert (Hraise : NChooseKBounds.check_nchoosek_constraints_as_bounds d = Raise ValueError
                   <-> violated).
  { rewrite Hcheck. destruct H1 as [Hb1 Hr1], H2 as [Hb2 Hr2].
    unfold violated. rewrite <- Hr1, <- Hr2.
    destruct Hb1 as [E1|E1]; rewrite E1; simpl.
    - split; [intros H; right; exact H|intros [H|H]; [discriminate H|exact H]].
    - split; [intros _; left; reflexivity|reflexivity]. }
  split; [exact Hraise|]. split.
  - rewrite <- Hraise. apply benign_not_raise.
    rewrite Hcheck. destruct H1 as [[E1|E1] _], H2 as [Hb2 _]; rewrite E1; simpl.
    + exact Hb2.
    + right. reflexivity.
  - intros Hv rng shuffle g n. apply Hraise in Hv.
    unfold NChooseKBounds.nchoosek_constraints_as_bounds. rewrite Hv. reflexivity.
Qed.

Lemma check_nchoosek_constraints_as_bounds_spec_witness :
  NChooseKBounds.check_nchoosek_constraints_as_bounds Examples.d_outside = Raise ValueError /\
  NChooseKBounds.nchoosek_constraints_as_bounds unit Examples.keep_order tt
    Examples.d_outside 2 = Raise ValueError.
Proof.
  destruct (check_nchoosek_constraints_as_bounds_spec Examples.d_outside
    ltac:(intros c name [<-|[]] [<-|[<-|[]]]; eexists; eexists; split; reflexivity))
    as (Hcheck & _ & Hbounds).
  cut (exists c name f lo hi,
         In c (List.filter Constraints.is_nchoosek
                 (Constraints.constraints Examples.d_outside)) /\
         In name (Constraints.nchoosek_features c) /\
         Features.find_last name (Constraints.inputs Examples.d_outside) = Some f /\
         Features.kind f = Features.ContinuousInput (lo, hi) /\
         ((0 < lo)%Q \/ (hi < 0)%Q)).
  { intros Hv. split; [apply Hcheck|apply Hbounds]; left; exact Hv. }
  exists (Constraints.NChooseKConstraint ["x1"; "x2"] 0 1 true), "x1",
    (Examples.continuous "x1" (1 # 2) 1), (1 # 2)%Q, 1%Q.
  split; [left; reflexivity|]. split; [left; reflexivity|].
  split; [reflexivity|]. split; [reflexivity|]. left. reflexivity.
Defined.

(** The claim as stated fails: with bounds [0, 1], where 0 is not strictly
    inside, the check passes. *)
Lemma check_accepts_zero_on_boundary :
  NChooseKBounds.check_nchoosek_constraints_as_bounds Examples.d_boundary = Ok tt /\
  exists c name f lo hi,
    In c (Constraints.constraints Examples.d_boundary) /\
    In name (Constraints.nchoosek_features c) /\
    Features.find_last name (Constraints.inputs Examples.d_boundary) = Some f /\
    Features.kind f = Features.ContinuousInput (lo, hi) /\
    ~ ((lo < 0)%Q /\ (0 < hi)%Q).
Proof.
  split; [vm_compute; reflexivity|].
  exists (Constraints.NChooseKConstraint ["x1"; "x2"] 0 1 true), "x1",
    (Examples.continuous "x1" 0 1), 0%Q, 1%Q.
  split; [left; reflexivity|]. split; [left; reflexivity|].
  split; [reflexivity|]. split; [reflexivity|].
  intros [H _]. vm_compute in H. discriminate H.
Qed.

(** ** NChooseK constraints as bounds *)

(** C4 (where the code departs from it). Take the domain with a
    categorical input [c] and continuous inputs [x1], [x2] bounded by
    [-1, 1], the constraint NChooseK([x1, x2], max_count = 1) and two
    experiments.  The check passes; the bounds array holds the two
    continuous inputs per experiment, yet rows are addressed with
    [len(domain.inputs) = 3].  Whatever permutation the shuffle picks, the
    call either raises [IndexError] or returns bounds in which experiment 1
    has [x2] pinned although its combination, entry [1 % 2] of the shuffled
    list, is [x1]. *)
Theorem nchoosek_constraints_as_bounds_mixed_domain
    (rng : Type) (shuffle : rng -> list (list nat) -> list (list nat) * rng) (g : rng) :
  (forall g l, Permutation l (fst (shuffle g l))) ->
  NChooseKBounds.check_nchoosek_constraints_as_bounds Examples.d_mixed = Ok tt /\
  (NChooseKBounds.nchoosek_constraints_as_bounds rng shuffle g Examples.d_mixed 2
     = Raise IndexError \/
   (fst (shuffle g [[0]; [1]]) = [[1]; [0]] /\
    NChooseKBounds.nchoosek_constraints_as_bounds rng shuffle g Examples.d_mixed 2
      = Ok (snd (shuffle g [[0]; [1]]), [(-1, 1); (0, 0); (-1, 1); (0, 0)]%Q))).
Proof.
  intros Hperm. split; [vm_compute; reflexivity|].
  pose proof (Hperm g [[0]; [1]]) as Hp.
  cbv.
  destruct (shuffle g [[0]; [1]]) as [ind g']. cbn [fst] in Hp.
  apply Permutation_length_2_inv in Hp. destruct Hp as [-> | ->].
  - left. reflexivity.
  - right. split; reflexivity.
Qed.

Lemma nchoosek_constraints_as_bounds_mixed_domain_witness :
  NChooseKBounds.check_nchoosek_constraints_as_bounds Examples.d_mixed = Ok tt /\
  (NChooseKBounds.nchoosek_constraints_as_bounds unit Examples.keep_order tt
     Examples.d_mixed 2 = Raise IndexError \/
   (fst (Examples.keep_order tt [[0]; [1]]) = [[1]; [0]] /\
    NChooseKBounds.nchoosek_constraints_as_bounds unit Examples.keep_order tt
      Examples.d_mixed 2
      = Ok (snd (Examples.keep_order tt [[0]; [1]]), [(-1, 1); (0, 0); (-1, 1); (0, 0)]%Q))).
Proof.
  apply (nchoosek_constraints_as_bounds_mixed_domain unit Examples.keep_order tt).
  intros g l. reflexivity.
Defined.

(** ** NChooseK constraints as bounds on continuous domains *)

Lemma fold_result_app {A S} (body : S -> A -> result S) (xs ys : list A) (s : S) :
  fold_result body (xs ++ ys) s = (s' ← fold_result body xs s; fold_result body ys s').
Proof.
  revert s. induction xs as [|x xs IH]; intros s; simpl; [reflexivity|].
  destruct (body s x) as [s1|e]; simpl; [apply IH|reflexivity].
Qed.

Lemma foldl_insert_length {A} (idx : list nat) (arr : list A) (v : A) :
  List.length (foldl (fun a k => <[k := v]> a) arr idx) = List.length arr.
Proof.
  revert arr. induction idx as [|k idx IH]; intros arr; simpl; [reflexivity|].
  rewrite IH. apply length_insert.
Qed.

Lemma foldl_insert_hit {A} (idx : list nat) (arr : list A) (v : A) (p : nat) :
  In p idx \/ arr !! p = Some v -> p < List.length arr ->
  foldl (fun a k => <[k := v]> a) arr idx !! p = Some v.
Proof.
  revert arr. induction idx as [|k idx IH]; intros arr Hin Hp; simpl.
  - destruct Hin as [[]|H]. exact H.
  - apply IH; [|rewrite length_insert; exact Hp].
    destruct (decide (k = p)) as [->|Hne].
    + right. apply list_lookup_insert_eq. exact Hp.
    + destruct Hin as [[->|Hin]|H]; [congruence|left; exact Hin|].
      right. rewrite list_lookup_insert_ne by exact Hne. exact H.
Qed.

Lemma foldl_insert_miss {A} (idx : list nat) (arr : list A) (v : A) (p : nat) :
  ~ In p idx -> foldl (fun a k => <[k := v]> a) arr idx !! p = arr !! p.
Proof.
  revert arr. induction idx as [|k idx IH]; intros arr Hp; simpl; [reflexivity|].
  rewrite IH by (intros H; apply Hp; right; exact H).
  apply list_lookup_insert_ne. intros ->. apply Hp. left. reflexivity.
Qed.

Lemma set_rows_spec {A} (arr : list A) (idx : list nat) (v : A) :
  (forall k, In k idx -> k < List.length arr) ->
  exists arr', Np.set_rows arr idx v = Ok arr' /\
    List.length arr' = List.length arr /\
    (forall p, In p idx -> arr' !! p = Some v) /\
    (forall p, ~ In p idx -> arr' !! p = arr !! p).
Proof.
  intros Hidx. unfold Np.set_rows.
  assert (E : forallb (fun k => Nat.ltb k (List.length arr)) idx = true).
  { apply forallb_forall. intros k Hk. apply Nat.ltb_lt. apply Hidx. exact Hk. }
  rewrite E. eexists. split; [reflexivity|].
  split; [apply foldl_insert_length|]. split.
  - intros p Hp. apply foldl_insert_hit; [left; exact Hp|apply Hidx; exact Hp].
  - intros p Hp. apply foldl_insert_miss. exact Hp.
Qed.

(** The loop over the experiments: after [m] passes the rows of the chosen
    combinations of the experiments below [m] are zero, every other row is
    as before. *)
Lemma pin_experiments_spec (ind : list (list nat)) (r D n : nat) (bounds0 : list (Q * Q)) :
  0 < r -> ind <> [] ->
  (forall comb k, In comb ind -> In k comb -> k < D) ->
  List.length bounds0 = n * D ->
  forall m, m <= n ->
  exists bounds,
    fold_result (NChooseKBounds.pin_experiment ind r D) (seq 0 m) bounds0 = Ok bounds /\
    List.length bounds = n * D /\
    forall i j, i < n -> j < D ->
      bounds !! (i * D + j)
      = if bool_decide (i < m /\ j ∈ List.nth (i mod List.length ind) ind [])
        then Some (0, 0)%Q else bounds0 !! (i * D + j).
Proof.
  intros Hr Hind Hlt Hlen. induction m as [|m IH]; intros Hm.
  - exists bounds0. split; [reflexivity|]. split; [exact Hlen|].
    intros i j Hi Hj. rewrite bool_decide_eq_false_2 by lia. reflexivity.
  - destruct IH as (bounds & Hrun & Hblen & Hb); [lia|].
    rewrite seq_S, fold_result_app, Hrun. cbn [mbind result_bind Nat.add fold_result].
    unfold NChooseKBounds.pin_experiment.
    destruct (Nat.eqb_spec (List.length ind) 0) as [E|_];
      [destruct ind; [congruence|discriminate E]|].
    destruct (Nat.eqb_spec r 0) as [E|_]; [lia|].
    set (chosen := List.nth (m mod List.length ind) ind []).
    assert (Hchosen : forall k, In k chosen -> k < D).
    { intros k Hk. apply (Hlt chosen k); [|exact Hk].
      apply List.nth_In. apply Nat.mod_upper_bound. destruct ind; [congruence|simpl; lia]. }
    destruct (set_rows_spec bounds (List.map (fun k => k + m * D) chosen) (0, 0)%Q)
      as (bounds' & E & Hlen' & Hhit & Hmiss).
    { intros k Hk. apply in_map_iff in Hk. destruct Hk as (k0 & <- & Hk0).
      apply Hchosen in Hk0. rewrite Hblen. nia. }
    rewrite E. cbn [mbind result_bind]. exists bounds'.
    split; [reflexivity|]. split; [lia|].
    intros i j Hi Hj.
    destruct (decide (i = m)) as [->|Hne].
    + fold chosen. destruct (decide (j ∈ chosen)) as [Hin|Hnin].
      * rewrite bool_decide_eq_true_2 by (split; [lia|exact Hin]).
        apply Hhit. apply in_map_iff. exists j. split; [lia|].
        apply list_elem_of_In. exact Hin.
      * rewrite bool_decide_eq_false_2 by tauto.
        rewrite Hmiss.
        -- rewrite Hb by lia. rewrite bool_decide_eq_false_2 by lia. reflexivity.
        -- intros H. apply in_map_iff in H. destruct H as (k0 & Hk & Hk0).
           apply Hnin. apply list_elem_of_In. replace j with k0 by lia. exact Hk0.
    + rewrite Hmiss.
      * rewrite Hb by lia.
        destruct (bool_decide (i < m /\ _)) eqn:Eb.
        -- apply bool_decide_eq_true in Eb.
           rewrite bool_decide_eq_true_2 by (split; [lia|tauto]). reflexivity.
        -- apply bool_decide_eq_false in Eb.
           rewrite bool_decide_eq_false_2; [reflexivity|].
           intros [H1 H2]. apply Eb. split; [lia|exact H2].
      * intros H. apply in_map_iff in H. destruct H as (k0 & Hk & Hk0).
        apply Hchosen in Hk0. nia.
Qed.

Lemma combinations_In {A} (l : list A) (r : nat) (comb : list A) (k : A) :
  In comb (Np.combinations l r) -> In k comb -> In k l.
Proof.
  revert r comb. induction l as [|x l IH]; intros [|r] comb Hc Hk; simpl in Hc.
  - destruct Hc as [<-|[]]. destruct Hk.
  - destruct Hc.
  - destruct Hc as [<-|[]]. destruct Hk.
  - apply in_app_or in Hc. destruct Hc as [Hc|Hc].
    + apply in_map_iff in Hc. destruct Hc as (comb' & <- & Hc').
      destruct Hk as [->|Hk]; [left; reflexivity|right].
      apply (IH r comb' Hc' Hk).
    + right. apply (IH (S r) comb Hc Hk).
Qed.

Lemma combinations_nonempty {A} (l : list A) (r : nat) :
  r <= List.length l -> Np.combinations l r <> [].
Proof.
  revert r. induction l as [|x l IH]; intros [|r] Hr; simpl in *; try discriminate; [lia|].
  intros H. apply app_eq_nil in H. destruct H as [H _].
  apply map_eq_nil in H. apply (IH r); [lia|exact H].
Qed.

Lemma indices_from_bound (start : nat) (keys names : list string) (k : nat) :
  In k (Np.indices_from start keys names) -> start <= k < start + List.length keys.
Proof.
  revert start. induction keys as [|p keys IH]; intros start Hk; simpl in *; [destruct Hk|].
  destruct (Np.contains names p).
  - destruct Hk as [<-|Hk]; [lia|]. apply IH in Hk. lia.
  - apply IH in Hk. lia.
Qed.

Lemma list_times_length {A} (l : list A) (n : nat) :
  List.length (Np.list_times l n) = n * List.length l.
Proof. induction n as [|n IH]; simpl; [reflexivity|]. rewrite length_app, IH. reflexivity. Qed.

Lemma list_times_lookup {A} (l : list A) (n i j : nat) :
  i < n -> j < List.length l ->
  Np.list_times l n !! (i * List.length l + j) = l !! j.
Proof.
  revert i. induction n as [|n IH]; intros i Hi Hj; [lia|]. simpl.
  destruct i as [|i].
  - simpl. apply lookup_app_l. exact Hj.
  - rewrite lookup_app_r by (simpl; lia).
    replace (S i * List.length l + j - List.length l) with (i * List.length l + j)
      by (simpl; lia).
    apply IH; [lia|exact Hj].
Qed.

Lemma filter_all {A} (f : A -> bool) (l : list A) :
  forallb f l = true -> List.filter f l = l.
Proof.
  induction l as [|x l IH]; simpl; [reflexivity|].
  intros H. apply andb_true_iff in H. destruct H as [-> H]. f_equal. apply IH. exact H.
Qed.

Lemma continuous_bounds (L : list Features.Feature) :
  (forall f, In f L -> Features.is_continuous f = true) ->
  let bounds := omap (fun p => match Features.kind p with
                               | Features.ContinuousInput b => Some b
                               | _ => None
                               end) L in
  List.length bounds = List.length L /\
  forall j f b, L !! j = Some f -> Features.kind f = Features.ContinuousInput b ->
                bounds !! j = Some b.
Proof.
  induction L as [|f0 L IH]; intros Hc; simpl.
  - split; [reflexivity|]. intros j f b H. rewrite lookup_nil in H. discriminate H.
  - destruct IH as [IHlen IHlk]; [intros f Hf; apply Hc; right; exact Hf|].
    pose proof (Hc f0 (or_introl eq_refl)) as H0. unfold Features.is_continuous in H0.
    destruct (Features.kind f0) as [b0| |] eqn:Ek; try discriminate H0.
    simpl. split; [f_equal; exact IHlen|].
    intros [|j] f b Hl Hk; simpl in *.
    + injection Hl as <-. congruence.
    + apply (IHlk j f b Hl Hk).
Qed.

Lemma pin_constraint_skip (rng : Type)
    (shuffle : rng -> list (list nat) -> list (list nat) * rng)
    (d : Constraints.Domain Q) (n : nat) (cs : list (Constraints.Constraint Q))
    (st : rng * list (Q * Q)) :
  (forall c, In c cs -> Constraints.is_nchoosek c = false) ->
  fold_result (NChooseKBounds.pin_constraint rng shuffle d n) cs st = Ok st.
Proof.
  revert st. induction cs as [|c cs IH]; intros st H; [reflexivity|].
  cbn [fold_result].
  assert (E : NChooseKBounds.pin_constraint rng shuffle d n st c = Ok st).
  { unfold NChooseKBounds.pin_constraint. rewrite (H c (or_introl eq_refl)). reflexivity. }
  rewrite E. cbn [mbind result_bind].
  apply IH. intros c' Hc'. apply H. right. exact Hc'.
Qed.

(** On a domain whose inputs are all continuous, with one NChooseK
    constraint that leaves at least one feature inactive, the bounds are as
    C4 describes: experiment [i] gets the combination at position
    [i % len(ind)] of the shuffled list of all combinations of
    [len(features) - max_count] constrained inputs set to (0, 0), and every
    other input of that experiment keeps its bounds. *)
Lemma nchoosek_constraints_as_bounds_continuous (rng : Type)
    (shuffle : rng -> list (list nat) -> list (list nat) * rng) (g : rng)
    (d : Constraints.Domain Q) (n : nat)
    (pre post : list (Constraints.Constraint Q))
    (features : list string) (min_count max_count : Z) (none_also_valid : bool) :
  (forall g l, Permutation l (fst (shuffle g l))) ->
  forallb Features.is_continuous (Constraints.inputs d) = true ->
  Constraints.constraints d
    = pre ++ Constraints.NChooseKConstraint features min_count max_count none_also_valid
          :: post ->
  (forall c, In c (pre ++ post) -> Constraints.is_nchoosek c = false) ->
  NChooseKBounds.check_nchoosek_constraints_as_bounds d = Ok tt ->
  let L := Features.get Features.any_feature (Constraints.inputs d) in
  let D := List.length (Constraints.inputs d) in
  let positions := Np.indices_from 0 (List.map Features.key L) features in
  let r := Z.to_nat (Z.of_nat (List.length features) - max_count) in
  (0 < r <= List.length positions) ->
  let ind := fst (shuffle g (Np.combinations positions r)) in
  Permutation (Np.combinations positions r) ind /\
  exists bounds,
    NChooseKBounds.nchoosek_constraints_as_bounds rng shuffle g d n
      = Ok (snd (shuffle g (Np.combinations positions r)), bounds) /\
    List.length bounds = n * D /\
    forall i j f b, i < n -> L !! j = Some f ->
      Features.kind f = Features.ContinuousInput b ->
      bounds !! (i * D + j)
      = Some (if bool_decide (j ∈ List.nth (i mod List.length ind) ind [])
              then (0, 0)%Q else b).
Proof.
  intros Hperm Hcont Hcs Hother Hcheck L D positions r Hr ind.
  split; [apply Hperm|].
  assert (HL : Features.get Features.is_continuous (Constraints.inputs d) = L).
  { unfold L, Features.get. rewrite filter_all by exact Hcont.
    rewrite filter_any_feature. reflexivity. }
  assert (HLlen : List.length L = D).
  { unfold L, Features.get. rewrite sorted_length, filter_any_feature. reflexivity. }
  assert (HLc : forall f, In f L -> Features.is_continuous f = true).
  { intros f Hf. rewrite <- HL in Hf. unfold Features.get in Hf.
    eapply Permutation_in in Hf; [|symmetry; apply sorted_perm].
    apply List.filter_In in Hf. tauto. }
  destruct (continuous_bounds L HLc) as [Hblen Hblk].
  set (row := omap (fun p => match Features.kind p with
                             | Features.ContinuousInput b => Some b
                             | _ => None
                             end) L) in *.
  unfold NChooseKBounds.nchoosek_constraints_as_bounds.
  rewrite Hcheck. cbn [mbind result_bind]. rewrite HL. fold row.
  rewrite Hcs.
  assert (Hpos : Nat.ltb 0 (List.length (pre ++
            Constraints.NChooseKConstraint features min_count max_count none_also_valid
            :: post)) = true).
  { apply Nat.ltb_lt. rewrite length_app. simpl. lia. }
  rewrite Hpos. rewrite fold_result_app.
  rewrite pin_constraint_skip by (intros c Hc; apply Hother, in_or_app; left; exact Hc).
  cbn [mbind result_bind fold_result].
  pose proof (Hperm g (Np.combinations positions r)) as Hp. fold ind in Hp.
  destruct (pin_experiments_spec ind r D n (Np.list_times row n)) with (m := n)
    as (bounds & Hrun & Hlen & Hb).
  { lia. }
  { intros E. rewrite E in Hp. symmetry in Hp. apply Permutation_nil in Hp.
    apply (combinations_nonempty positions r); [lia|exact Hp]. }
  { intros comb k Hcomb Hk.
    eapply Permutation_in in Hcomb; [|symmetry; exact Hp].
    pose proof (combinations_In _ _ _ _ Hcomb Hk) as Hin.
    apply indices_from_bound in Hin. rewrite List.length_map, HLlen in Hin. lia. }
  { rewrite list_times_length, Hblen, HLlen. reflexivity. }
  { lia. }
  assert (Epin : NChooseKBounds.pin_constraint rng shuffle d n (g, Np.list_times row n)
             (Constraints.NChooseKConstraint features min_count max_count none_also_valid)
           = Ok (snd (shuffle g (Np.combinations positions r)), bounds)).
  { unfold NChooseKBounds.pin_constraint.
    cbn [Constraints.is_nchoosek Constraints.nchoosek_features
         Constraints.nchoosek_max_count fst snd].
    fold L. unfold Features.get_keys. fold L. fold positions.
    destruct (Z.ltb_spec (Z.of_nat (List.length features) - max_count) 0) as [Hneg|_].
    { exfalso. unfold r in Hr. rewrite Z2Nat.nonpos in Hr by lia. lia. }
    fold r. fold D. unfold ind in Hrun.
    destruct (shuffle g (Np.combinations positions r)) as [ind' g'].
    cbn [fst snd] in *. rewrite Hrun. reflexivity. }
  rewrite Epin. cbn [mbind result_bind].
  rewrite pin_constraint_skip by (intros c Hc; apply Hother, in_or_app; right; exact Hc).
  exists bounds. split; [reflexivity|]. split; [exact Hlen|].
  intros i j f b Hi Hj Hk.
  assert (HjD : j < D) by (rewrite <- HLlen; apply lookup_lt_Some in Hj; exact Hj).
  rewrite Hb by assumption.
  destruct (decide (j ∈ List.nth (i mod List.length ind) ind [])) as [Hin|Hnin].
  - rewrite !bool_decide_eq_true_2 by tauto. reflexivity.
  - rewrite !bool_decide_eq_false_2 by tauto.
    replace D with (List.length row) by (rewrite Hblen; exact HLlen).
    rewrite list_times_lookup by (rewrite ?Hblen, ?HLlen; assumption).
    apply (Hblk j f b Hj Hk).
Qed.

(** Three continuous inputs, at most two of them active, four experiments
    and a shuffle that keeps the order: the combinations [x1], [x2], [x3]
    are pinned in turn and the fourth experiment starts over. *)
Lemma nchoosek_constraints_as_bounds_round_robin :
  NChooseKBounds.nchoosek_constraints_as_bounds unit Examples.keep_order tt
    Examples.d_three 4
  = Ok (tt, [(0, 0); (-1, 1); (-1, 1);
             (-1, 1); (0, 0); (-1, 1);
             (-1, 1); (-1, 1); (0, 0);
             (0, 0); (-1, 1); (-1, 1)]%Q).
Proof. vm_compute. reflexivity. Qed.

(** With [max_count = len(features)] the combinations are empty tuples, the
    index array is an array of floats and the assignment raises. *)
Lemma nchoosek_constraints_as_bounds_nothing_inactive :
  NChooseKBounds.nchoosek_constraints_as_bounds unit Examples.keep_order tt
    Examples.d_all_active 1 = Raise IndexError.
Proof. vm_compute. reflexivity. Qed.

(** ** Linear constraints as scipy constraints *)

Section LinearBlocks.

Variable F : Type.
Variables zero one neg_inf : F.
Variables mul div : F -> F -> F.
Variable linalg_norm : list F -> F.
Variable searchsorted : list string -> list string -> list nat.

(** Multiplying by the float 1.0 is exact. *)
Hypothesis mul_one_l : forall x, mul one x = x.
Hypothesis mul_one_r : forall x, mul x one = x.

Lemma build_lhs_lookup (features : list string) (coefficients : list F) (nrm : F)
    (lhs : gmap string F) :
  List.length features = List.length coefficients ->
  exists m, ScipyConstraints.build_lhs F div features coefficients nrm lhs = Ok m /\
    forall name,
      m !! name = match Expected.coefficient_of F name features coefficients with
                  | Some c => Some (div c nrm)
                  | None => lhs !! name
                  end.
Proof.
  revert coefficients lhs.
  induction features as [|f fs IH]; intros [|c cs] lhs Hlen; simpl in Hlen; try lia.
  - exists lhs. split; reflexivity.
  - simpl. destruct (IH cs (<[f := div c nrm]> lhs)) as (m & Hm & Hlk); [lia|].
    exists m. split; [exact Hm|]. intros name. rewrite Hlk.
    destruct (Expected.coefficient_of F name fs cs); [reflexivity|].
    destruct (String.eqb_spec f name) as [->|Hne].
    + apply lookup_insert_eq.
    + apply lookup_insert_ne. exact Hne.
Qed.

Lemma build_row_aux (lhs : gmap string F) (keys : list string) (pre : list F) :
  foldl (fun row '(i, name) =>
           match lhs !! name with
           | Some v => <[i := v]> row
           | None => row
           end)
        (pre ++ replicate (List.length keys) zero)
        (imap (fun i name => (List.length pre + i, name)) keys)
  = pre ++ List.map (fun name => match lhs !! name with Some v => v | None => zero end) keys.
Proof.
  revert pre. induction keys as [|name keys IH]; intros pre; [reflexivity|].
  rewrite imap_cons. cbn [foldl List.length replicate List.map].
  assert (E : (match lhs !! name with
               | Some v => <[List.length pre + 0 := v]> (pre ++ zero :: replicate (List.length keys) zero)
               | None => pre ++ zero :: replicate (List.length keys) zero
               end)
              = (pre ++ [match lhs !! name with Some v => v | None => zero end])
                  ++ replicate (List.length keys) zero).
  { rewrite <- app_assoc. simpl. destruct (lhs !! name) as [v|]; [|reflexivity].
    rewrite insert_app_r_alt by lia.
    replace (List.length pre + 0 - List.length pre) with 0 by lia. reflexivity. }
  rewrite E.
  rewrite (imap_ext _ (fun i name0 =>
             (List.length (pre ++ [match lhs !! name with Some v => v | None => zero end]) + i,
              name0))).
  - rewrite IH, <- app_assoc. reflexivity.
  - intros i x _. simpl. rewrite length_app. simpl. f_equal. lia.
Qed.

Lemma build_row_spec (keys : list string) (lhs : gmap string F) :
  ScipyConstraints.build_row F zero (List.length keys) keys lhs
  = List.map (fun name => match lhs !! name with Some v => v | None => zero end) keys.
Proof.
  unfold ScipyConstraints.build_row, ScipyConstraints.np_zeros.
  pose proof (build_row_aux lhs keys []) as H. simpl in H. exact H.
Qed.

Lemma alter_rows_aux (h : nat -> list F -> list F) (m : nat) :
  forall (pre A : list (list F)),
    List.length A = m ->
    foldl (fun A i => alter (h i) i A) (pre ++ A) (seq (List.length pre) m)
    = pre ++ imap (fun i r => h (List.length pre + i) r) A.
Proof.
  induction m as [|m IH]; intros pre A Hlen.
  - destruct A; [reflexivity|discriminate Hlen].
  - destruct A as [|r A]; [discriminate Hlen|]. simpl in Hlen.
    cbn [seq foldl]. rewrite imap_cons.
    rewrite alter_app_r_alt by lia.
    replace (List.length pre - List.length pre) with 0 by lia. cbn [alter list_alter].
    replace (pre ++ h (List.length pre) r :: A)
      with ((pre ++ [h (List.length pre) r]) ++ A) by (rewrite <- app_assoc; reflexivity).
    replace (S (List.length pre)) with (List.length (pre ++ [h (List.length pre) r]))
      by (rewrite length_app; simpl; lia).
    rewrite IH by lia. rewrite <- app_assoc. simpl.
    replace (List.length pre + 0) with (List.length pre) by lia.
    do 2 f_equal. apply imap_ext. intros i x _. simpl.
    rewrite length_app. simpl. f_equal. lia.
Qed.

Lemma build_A_spec (n D : nat) (row : list F) :
  ScipyConstraints.build_A F zero n D row = Expected.block_diagonal F zero n D row.
Proof.
  unfold ScipyConstraints.build_A, Expected.block_diagonal.
  pose proof (alter_rows_aux
    (fun i r => ScipyConstraints.assign_slice F r (i * D) ((i + 1) * D) row) n []
    (replicate n (ScipyConstraints.np_zeros F zero (D * n)))) as H.
  simpl in H. rewrite H by apply length_replicate. clear H.
  apply list_eq. intros i.
  rewrite list_lookup_imap, list_lookup_fmap.
  destruct (Nat.lt_ge_cases i n) as [Hi|Hi].
  - rewrite lookup_replicate_2 by exact Hi. rewrite lookup_seq_lt by exact Hi. simpl.
    f_equal. unfold ScipyConstraints.assign_slice, ScipyConstraints.np_zeros.
    rewrite take_replicate, drop_replicate. f_equal; [f_equal; nia|].
    f_equal. f_equal. nia.
  - rewrite (proj1 (lookup_replicate_None _ _ _)) by exact Hi.
    rewrite lookup_seq_ge by exact Hi. reflexivity.
Qed.

Lemma linear_matrix_spec (domain : Constraints.Domain F) (n : nat)
    (features : list string) (coefficients : list F) :
  List.length features = List.length coefficients ->
  ScipyConstraints.linear_matrix F zero div linalg_norm domain n features coefficients
  = Ok (Expected.block_diagonal F zero n (List.length (Constraints.inputs domain))
          (Expected.normalized_row F zero div
             (Features.get_keys Features.any_feature (Constraints.inputs domain))
             features coefficients (linalg_norm coefficients))).
Proof.
  intros Hlen. unfold ScipyConstraints.linear_matrix.
  destruct (build_lhs_lookup features coefficients (linalg_norm coefficients) ∅ Hlen)
    as (m & -> & Hlk).
  cbn [mbind result_bind]. f_equal. rewrite build_A_spec. f_equal.
  rewrite <- (get_keys_length (Constraints.inputs domain)).
  rewrite build_row_spec. unfold Expected.normalized_row.
  apply List.map_ext. intros name. rewrite Hlk.
  destruct (Expected.coefficient_of F name features coefficients); [reflexivity|].
  rewrite lookup_empty. reflexivity.
Qed.

Lemma scaled_ones (n : nat) (f : F -> F) (y : F) :
  f one = y -> List.map f (ScipyConstraints.np_ones F one n) = replicate n y.
Proof.
  intros H. unfold ScipyConstraints.np_ones.
  induction n as [|n IH]; simpl; [reflexivity|]. rewrite H, IH. reflexivity.
Qed.

Lemma transform_linear_equality (domain : Constraints.Domain F) (n : nat) (ignore : bool)
    (features : list string) (coefficients : list F) (rhs : F) :
  List.length features = List.length coefficients ->
  ScipyConstraints.transform_constraint F zero one neg_inf mul div linalg_norm searchsorted
    domain n ignore (Constraints.LinearEqualityConstraint features coefficients rhs)
  = Ok (Some (ScipyConstraints.LinearConstraint F
         (Expected.block_diagonal F zero n (List.length (Constraints.inputs domain))
            (Expected.normalized_row F zero div
               (Features.get_keys Features.any_feature (Constraints.inputs domain))
               features coefficients (linalg_norm coefficients)))
         (replicate n (div rhs (linalg_norm coefficients)))
         (replicate n (div rhs (linalg_norm coefficients))))).
Proof.
  intros Hlen. unfold ScipyConstraints.transform_constraint.
  rewrite linear_matrix_spec by exact Hlen. cbn [mbind result_bind].
  rewrite (scaled_ones n _ (div rhs (linalg_norm coefficients))) by apply mul_one_l.
  reflexivity.
Qed.

Lemma transform_linear_inequality (domain : Constraints.Domain F) (n : nat) (ignore : bool)
    (features : list string) (coefficients : list F) (rhs : F) :
  List.length features = List.length coefficients ->
  ScipyConstraints.transform_constraint F zero one neg_inf mul div linalg_norm searchsorted
    domain n ignore (Constraints.LinearInequalityConstraint features coefficients rhs)
  = Ok (Some (ScipyConstraints.LinearConstraint F
         (Expected.block_diagonal F zero n (List.length (Constraints.inputs domain))
            (Expected.normalized_row F zero div
               (Features.get_keys Features.any_feature (Constraints.inputs domain))
               features coefficients (linalg_norm coefficients)))
         (replicate n neg_inf)
         (replicate n (div rhs (linalg_norm coefficients))))).
Proof.
  intros Hlen. unfold ScipyConstraints.transform_constraint.
  rewrite linear_matrix_spec by exact Hlen. cbn [mbind result_bind].
  rewrite (scaled_ones n (mul neg_inf) neg_inf) by apply mul_one_r.
  rewrite (scaled_ones n _ (div rhs (linalg_norm coefficients)))
    by (rewrite mul_one_l; reflexivity).
  reflexivity.
Qed.

Lemma transform_supported (domain : Constraints.Domain F) (n : nat) (ignore : bool)
    (c : Constraints.Constraint F) :
  Expected.supported c ->
  exists o, ScipyConstraints.transform_constraint F zero one neg_inf mul div linalg_norm
              searchsorted domain n ignore c = Ok o.
Proof.
  destruct c as [fs cs rhs|fs cs rhs|e fs j|e fs j|fs mn mx nv|f]; simpl; intros Hs.
  - eexists. apply (transform_linear_equality domain n ignore fs cs rhs Hs).
  - eexists. apply (transform_linear_inequality domain n ignore fs cs rhs Hs).
  - destruct Hs as [fs' ->]. eexists. reflexivity.
  - destruct Hs as [fs' ->]. eexists. reflexivity.
  - destruct ignore; eexists; reflexivity.
  - destruct Hs.
Qed.

Lemma transform_loop (domain : Constraints.Domain F) (n : nat) (ignore : bool)
    (cs : list (Constraints.Constraint F)) (out0 : list (ScipyConstraints.ScipyConstraint F)) :
  (forall c, In c cs -> Expected.supported c) ->
  exists out,
    fold_result
      (fun out c =>
         o ← ScipyConstraints.transform_constraint F zero one neg_inf mul div linalg_norm
               searchsorted domain n ignore c;
         Ok (match o with Some s => out ++ [s] | None => out end)) cs out0 = Ok out /\
    (forall s, In s out0 -> In s out) /\
    (forall c s, In c cs ->
       ScipyConstraints.transform_constraint F zero one neg_inf mul div linalg_norm
         searchsorted domain n ignore c = Ok (Some s) -> In s out).
Proof.
  revert out0. induction cs as [|c cs IH]; intros out0 Hs.
  - exists out0. split; [reflexivity|]. split; [auto|]. intros c s [].
  - destruct (transform_supported domain n ignore c (Hs c (or_introl eq_refl))) as [o Ho].
    cbn [fold_result]. rewrite Ho. cbn [mbind result_bind].
    destruct (IH (match o with Some s => out0 ++ [s] | None => out0 end)) as (out & E & Hmono & Hin).
    { intros c' Hc'. apply Hs. right. exact Hc'. }
    exists out. split; [exact E|]. split.
    + intros s Hs0. apply Hmono. destruct o; [apply in_or_app; left|]; exact Hs0.
    + intros c' s [<-|Hc'] Ht.
      * rewrite Ho in Ht. injection Ht as ->. apply Hmono. apply in_or_app. right. left. reflexivity.
      * apply (Hin c' s Hc' Ht).
Qed.

(** C1 (as the code has it). Let every constraint of the domain be one the
    transformer has a branch for (linear with one coefficient per feature,
    nonlinear with its features set, NChooseK).  Then for every
    [n_experiments], [constraints_as_scipy_constraints] returns, and for
    each linear constraint of the domain the returned list holds a linear
    constraint whose matrix is block diagonal: row [i] carries the
    per-experiment coefficient row, each coefficient divided by the norm of
    the coefficient vector, in the columns [i * D .. (i + 1) * D] and zero
    elsewhere.  For an equality both bound vectors are [rhs / norm] repeated
    [n_experiments] times; for an inequality the upper bound is that vector
    and the lower bound is minus infinity throughout. *)
Theorem constraints_as_scipy_constraints_linear (domain : Constraints.Domain F)
    (n : nat) (ignore : bool) :
  (forall c, In c (Constraints.constraints domain) -> Expected.supported c) ->
  exists out,
    ScipyConstraints.constraints_as_scipy_constraints F zero one neg_inf mul div
      linalg_norm searchsorted domain n ignore = Ok out /\
    forall features coefficients rhs,
      let A := Expected.block_diagonal F zero n (List.length (Constraints.inputs domain))
                 (Expected.normalized_row F zero div
                    (Features.get_keys Features.any_feature (Constraints.inputs domain))
                    features coefficients (linalg_norm coefficients)) in
      let bound := replicate n (div rhs (linalg_norm coefficients)) in
      (In (Constraints.LinearEqualityConstraint features coefficients rhs)
          (Constraints.constraints domain) ->
       In (ScipyConstraints.LinearConstraint F A bound bound) out) /\
      (In (Constraints.LinearInequalityConstraint features coefficients rhs)
          (Constraints.constraints domain) ->
       In (ScipyConstraints.LinearConstraint F A (replicate n neg_inf) bound) out).
Proof.
  intros Hs. unfold ScipyConstraints.constraints_as_scipy_constraints.
  destruct (Constraints.constraints domain) as [|c0 cs] eqn:Ecs.
  - exists []. split; [reflexivity|]. intros fs coeffs rhs. cbv zeta. split; intros [].
  - change (Nat.eqb (List.length (c0 :: cs)) 0) with false. cbv iota.
    destruct (transform_loop domain n ignore (c0 :: cs) [] Hs) as (out & E & _ & Hin).
    exists out. split; [exact E|]. intros fs coeffs rhs. cbv zeta. split; intros Hc.
    + apply (Hin _ _ Hc). apply transform_linear_equality.
      apply (Hs _ Hc).
    + apply (Hin _ _ Hc). apply transform_linear_inequality.
      apply (Hs _ Hc).
Qed.

End LinearBlocks.

(** The entries of a block diagonal matrix: row [i] has [n * D] columns and
    holds [row] between the columns [i * D] and [(i + 1) * D]. *)
Lemma block_diagonal_entry (F : Type) (zero : F) (n D : nat) (row : list F) (i j : nat) :
  List.length row = D -> i < n -> j < n * D ->
  exists r, Expected.block_diagonal F zero n D row !! i = Some r /\
    List.length r = n * D /\
    r !! j = Some (if bool_decide (i * D <= j < (i + 1) * D)
                   then default zero (row !! (j - i * D)) else zero).
Proof.
  intros Hrow Hi Hj. unfold Expected.block_diagonal.
  eexists. split.
  { rewrite list_lookup_fmap, lookup_seq_lt by exact Hi. reflexivity. }
  cbn [Nat.add]. split.
  { rewrite !length_app, !length_replicate, Hrow. nia. }
  case_bool_decide as Hc.
  - rewrite lookup_app_r by (rewrite length_replicate; lia).
    rewrite length_replicate. rewrite lookup_app_l by lia.
    destruct (row !! (j - i * D)) eqn:E; [reflexivity|].
    apply lookup_ge_None in E. lia.
  - destruct (Nat.lt_ge_cases j (i * D)) as [Hlt|Hge].
    + rewrite lookup_app_l by (rewrite length_replicate; lia).
      apply lookup_replicate_2. exact Hlt.
    + rewrite lookup_app_r by (rewrite length_replicate; lia).
      rewrite length_replicate. rewrite lookup_app_r by lia.
      apply lookup_replicate_2. rewrite Hrow. nia.
Qed.

Lemma xmul_one_l (x : Examples.xfloat) : Examples.xmul (Examples.Finite 1) x = x.
Proof.
  destruct x as [[a b]|]; [|reflexivity]. unfold Examples.xmul, Qmult. simpl.
  destruct a; reflexivity.
Defined.

Lemma xmul_one_r (x : Examples.xfloat) : Examples.xmul x (Examples.Finite 1) = x.
Proof.
  destruct x as [[a b]|]; [|reflexivity]. unfold Examples.xmul, Qmult. simpl.
  rewrite Z.mul_1_r, Pos.mul_1_r. reflexivity.
Defined.

Lemma constraints_as_scipy_constraints_linear_witness :
  exists out,
    ScipyConstraints.constraints_as_scipy_constraints Examples.xfloat
      (Examples.Finite 0) (Examples.Finite 1) Examples.MinusInf Examples.xmul Examples.xdiv
      Examples.norm_3_4 Examples.no_search Examples.d_linear 2 true = Ok out /\
    In (ScipyConstraints.LinearConstraint Examples.xfloat
          [[Examples.Finite (3 # 5); Examples.Finite (4 # 5); Examples.Finite 0;
            Examples.Finite 0; Examples.Finite 0; Examples.Finite 0];
           [Examples.Finite 0; Examples.Finite 0; Examples.Finite 0;
            Examples.Finite (3 # 5); Examples.Finite (4 # 5); Examples.Finite 0]]
          [Examples.Finite (10 # 5); Examples.Finite (10 # 5)]
          [Examples.Finite (10 # 5); Examples.Finite (10 # 5)]) out.
Proof.
  destruct (constraints_as_scipy_constraints_linear Examples.xfloat
              (Examples.Finite 0) (Examples.Finite 1) Examples.MinusInf
              Examples.xmul Examples.xdiv Examples.norm_3_4 Examples.no_search
              xmul_one_l xmul_one_r Examples.d_linear 2 true) as (out & E & Hin).
  - intros c [<-|[]]. reflexivity.
  - exists out. split; [exact E|].
    exact (proj1 (Hin ["x1"; "x2"] [Examples.Finite 3; Examples.Finite 4]
                    (Examples.Finite 10)) (or_introl eq_refl)).
Defined.

(** The claim as stated fails: a domain that holds a linear equality next
    to a nonlinear constraint whose features are not set gets no linear
    constraint, [ConstraintWrapper.__init__] raises [ValueError]. *)
Lemma constraints_as_scipy_constraints_unset_features :
  In (Constraints.LinearEqualityConstraint ["x1"; "x2"]
        [Examples.Finite 3; Examples.Finite 4] (Examples.Finite 10))
     (Constraints.constraints Examples.d_unset_features) /\
  ScipyConstraints.constraints_as_scipy_constraints Examples.xfloat
    (Examples.Finite 0) (Examples.Finite 1) Examples.MinusInf Examples.xmul Examples.xdiv
    Examples.norm_3_4 Examples.no_search Examples.d_unset_features 2 true
  = Raise ValueError.
Proof. split; [left; reflexivity|]. vm_compute. reflexivity. Qed.

(** Likewise next to a constraint of a class without a branch: the
    transformer raises [NotImplementedError]. *)
Lemma constraints_as_scipy_constraints_unsupported :
  In (Constraints.LinearEqualityConstraint ["x1"; "x2"]
        [Examples.Finite 3; Examples.Finite 4] (Examples.Finite 10))
     (Constraints.constraints Examples.d_interpoint) /\
  ScipyConstraints.constraints_as_scipy_constraints Examples.xfloat
    (Examples.Finite 0) (Examples.Finite 1) Examples.MinusInf Examples.xmul Examples.xdiv
    Examples.norm_3_4 Examples.no_search Examples.d_interpoint 2 true
  = Raise NotImplementedError.
Proof. split; [left; reflexivity|]. vm_compute. reflexivity. Qed.

(** ** The warnings of the polytope sampler *)

Lemma polytope_map_result_length {A B} (f : A -> result B) (l : list A) (out : list B) :
  map_result f l = Ok out -> List.length out = List.length l.
Proof.
  revert out. induction l as [|x l IH]; intros out; simpl.
  - intros [= <-]. reflexivity.
  - destruct (f x) as [y|e]; simpl; [|discriminate].
    destruct (map_result f l) as [ys|e]; simpl; [|discriminate].
    intros [= <-]. simpl. f_equal. apply IH. reflexivity.
Qed.

Section SamplerWarnings.

Variable rng : Type.
Variable next_seed : rng -> nat * rng.
Variable inputs_sample :
  list Features.Feature -> nat -> nat -> result (Pandas.DataFrame Polytope.cell).
Variable get_interpoint_constraints : Constraints.Domain Q -> nat -> list TorchTools.lin.
Variable generate_unfixed_lin_constraints :
  list TorchTools.lin -> bool -> list (nat * Polytope.number) -> nat ->
  result (list TorchTools.lin).
Variable sample_q_batches_from_polytope :
  nat -> list Q * list Q -> option (list TorchTools.lin) -> option (list TorchTools.lin) ->
  nat -> nat -> nat -> result (list (list Q)).
Variable feat_sample : Features.Feature -> nat -> nat -> list Polytope.cell.

(** botorch returns [q] points of the dimension of the bounds. *)
Hypothesis sample_shape : forall q lo hi ineq eq nb nt seed candidates,
  sample_q_batches_from_polytope q (lo, hi) ineq eq nb nt seed = Ok candidates ->
  List.length candidates = q /\
  forall r, In r candidates -> List.length r = List.length lo.

#[local] Existing Instance Polytope.M_bind.

Local Abbreviation state := (Polytope.state rng).
Local Abbreviation prepare := (Polytope.prepare get_interpoint_constraints).
Local Abbreviation draw_candidates :=
  (Polytope.draw_candidates rng next_seed generate_unfixed_lin_constraints
     sample_q_batches_from_polytope).
Local Abbreviation _sample_from_polytope :=
  (Polytope._sample_from_polytope rng next_seed inputs_sample get_interpoint_constraints
     generate_unfixed_lin_constraints sample_q_batches_from_polytope feat_sample).

Lemma get_seed_frame (st : state) :
  exists seed g, Polytope._get_seed rng next_seed st
                 = (Polytope.mkState rng (Polytope.heap rng st) g (Polytope.warnings rng st),
                    Ok seed).
Proof.
  unfold Polytope._get_seed. destruct (next_seed (Polytope.gen rng st)) as [seed g].
  exists seed, g. reflexivity.
Qed.

Lemma sample_columns_frame (n : nat) (feats : list Features.Feature)
    (samples : Pandas.DataFrame Polytope.cell) (st : state) :
  exists st' table,
    Polytope.fold_M rng
      (fun samples feat =>
         seed ← Polytope._get_seed rng next_seed;
         Polytope.ret rng
           (Polytope.set_column samples (Features.key feat) (feat_sample feat n seed)))
      feats samples st = (st', Ok table) /\
    Polytope.warnings rng st' = Polytope.warnings rng st /\
    Polytope.heap rng st' = Polytope.heap rng st.
Proof.
  revert samples st. induction feats as [|feat feats IH]; intros samples st.
  - exists st, samples. split; [reflexivity|]. split; reflexivity.
  - cbn [Polytope.fold_M]. unfold mbind, Polytope.M_bind, Polytope.bind.
    destruct (get_seed_frame st) as (seed & g & ->). unfold Polytope.ret at 1.
    destruct (IH (Polytope.set_column samples (Features.key feat) (feat_sample feat n seed))
                 (Polytope.mkState rng (Polytope.heap rng st) g (Polytope.warnings rng st)))
      as (st' & table & E & Hw & Hh).
    exists st', table. split; [exact E|]. split; [exact Hw|exact Hh].
Qed.

Lemma draw_candidates_frame (self : Polytope.Sampler) (d : Constraints.Domain Q)
    (p : Polytope.Prepared) (n : nat) (st st1 : state) (r : result (list (list Q))) :
  draw_candidates self d p n st = (st1, r) ->
  Polytope.warnings rng st1 = Polytope.warnings rng st /\
  Polytope.heap rng st1 = Polytope.heap rng st /\
  forall candidates, r = Ok candidates ->
    List.length candidates = n /\
    forall row, In row candidates -> List.length row = List.length (Polytope.lower p).
Proof.
  unfold Polytope.draw_candidates, mbind, Polytope.M_bind, Polytope.bind, Polytope.lift.
  destruct (generate_unfixed_lin_constraints (Polytope.ineqs p) _ _ _) as [ui|e];
    [|intros [= <- <-]; repeat split; discriminate].
  destruct (generate_unfixed_lin_constraints (Polytope.cleaned_eqs p) _ _ _) as [ue|e];
    [|intros [= <- <-]; repeat split; discriminate].
  destruct (generate_unfixed_lin_constraints (Polytope.interpoints p) _ _ _) as [up|e];
    [|intros [= <- <-]; repeat split; discriminate].
  destruct (get_seed_frame st) as (seed & g & ->).
  intros [= <- <-]. split; [reflexivity|]. split; [reflexivity|].
  intros candidates Hc. apply sample_shape in Hc. exact Hc.
Qed.

Lemma frame_of_rows_ok (n : nat) (labels : list string) (rows : list (list Q)) :
  List.length rows = n ->
  (forall r, In r rows -> List.length r = List.length labels) ->
  exists table, Polytope.frame_of_rows n labels rows = Ok table.
Proof.
  intros Hn Hr. unfold Polytope.frame_of_rows.
  rewrite Hn, Nat.eqb_refl. simpl.
  assert (E : forallb (fun r => Nat.eqb (List.length r) (List.length labels)) rows = true).
  { apply forallb_forall. intros r Hin. apply Nat.eqb_eq. apply Hr. exact Hin. }
  rewrite E. eexists. reflexivity.
Qed.

Lemma prepare_lower_length (d : Constraints.Domain Q) (n : nat) (p : Polytope.Prepared) :
  prepare d n = Ok p ->
  List.length (Polytope.lower p)
  = List.length (Polytope.free_features d (Polytope.fixed_features p)).
Proof.
  unfold Polytope.prepare.
  destruct (Polytope.get_linear_constraints d true) as [eqs|e]; simpl; [|discriminate].
  destruct (fold_result _ eqs _) as [[fixed cleaned]|e]; simpl; [|discriminate].
  destruct (map_result _ fixed) as [idx|e]; simpl; [|discriminate].
  destruct (Polytope.get_linear_constraints d false) as [ineqs|e]; simpl; [|discriminate].
  destruct (map_result TorchTools.lower_bound _) as [lo|e] eqn:Elo; simpl;
    [|discriminate].
  destruct (map_result TorchTools.upper_bound _) as [hi|e]; simpl; [|discriminate].
  intros [= <-]. simpl. apply (polytope_map_result_length _ _ _ Elo).
Qed.

Lemma filter_nil_iff {A} (f : A -> bool) (l : list A) :
  List.filter f l = [] <-> forall x, In x l -> f x = false.
Proof.
  induction l as [|x l IH]; simpl.
  - split; [intros _ y []|reflexivity].
  - destruct (f x) eqn:E; split.
    + discriminate.
    + intros H. specialize (H x (or_introl eq_refl)). congruence.
    + intros H y [<-|Hy]; [exact E|]. apply IH; assumption.
    + intros H. apply IH. intros y Hy. apply H. right. exact Hy.
Qed.

(** Nothing is left to sample exactly when every continuous input is fixed,
    by its bounds or by an equality with a single coefficient. *)
Lemma prepare_nothing_to_sample (d : Constraints.Domain Q) (n : nat) (p : Polytope.Prepared) :
  prepare d n = Ok p ->
  (List.length (Polytope.lower p) = 0 <->
   forall feat, In feat (Features.get Features.is_continuous (Constraints.inputs d)) ->
                Pandas.dict_has (Polytope.fixed_features p) (Features.key feat) = true).
Proof.
  intros Hp. rewrite (prepare_lower_length d n p Hp).
  unfold Polytope.free_features. rewrite length_zero_iff_nil, filter_nil_iff.
  split; intros H feat Hin; specialize (H feat Hin).
  - apply negb_false_iff in H. exact H.
  - rewrite H. reflexivity.
Qed.

(** The part of [_sample_from_polytope] after the frame of the continuous
    inputs is set up never raises and issues no warning. *)
Lemma finish_frame (n : nat) (d : Constraints.Domain Q) (p : Polytope.Prepared)
    (samples : Pandas.DataFrame Polytope.cell) (st : state) :
  exists st' table,
    (samples ← Polytope.fold_M rng
                 (fun samples feat =>
                    seed ← Polytope._get_seed rng next_seed;
                    Polytope.ret rng
                      (Polytope.set_column samples (Features.key feat)
                         (feat_sample feat n seed)))
                 (Features.get Features.is_categorical_or_discrete (Constraints.inputs d))
                 samples;
     Polytope.ret rng
       (foldl (fun samples kv =>
                 Polytope.set_column samples (fst kv) (replicate n (Polytope.cell_of (snd kv))))
              samples (Polytope.fixed_features p))) st = (st', Ok table) /\
    Polytope.warnings rng st' = Polytope.warnings rng st.
Proof.
  destruct (sample_columns_frame n
              (Features.get Features.is_categorical_or_discrete (Constraints.inputs d))
              samples st) as (st' & table & E & Hw & _).
  unfold mbind at 1. unfold Polytope.M_bind at 1. unfold Polytope.bind at 1.
  rewrite E. eexists. eexists. split; [reflexivity|exact Hw].
Qed.

(** C7 (as the code has it). Let the store hold the sampler's domain.
    [_sample_from_polytope] issues the warning "nothing to sample" exactly
    when the domain has a constraint and every continuous input is fixed,
    whatever [n] is; it issues the warning "candidates are not unique"
    exactly when the domain has a constraint, some continuous input is
    free, the hit-and-run sampler has returned its candidates, [n > 1] and
    the candidates are not pairwise different.  No other warning is issued,
    and whenever one is issued the call still returns a table. *)
Theorem sample_from_polytope_warnings (self : Polytope.Sampler) (n : nat) (st : state)
    (d : Constraints.Domain Q) :
  Polytope.view (Polytope.heap rng st) (Polytope.domain self) = Some d ->
  let run := _sample_from_polytope self n st in
  exists issued,
    Polytope.warnings rng (fst run) = Polytope.warnings rng st ++ issued /\
    (issued = [] \/ issued = [Polytope.NothingToSample]
     \/ issued = [Polytope.CandidatesNotUnique]) /\
    (In Polytope.NothingToSample issued <->
     Constraints.constraints d <> [] /\
     exists p, prepare d n = Ok p /\
       forall feat, In feat (Features.get Features.is_continuous (Constraints.inputs d)) ->
                    Pandas.dict_has (Polytope.fixed_features p) (Features.key feat) = true) /\
    (In Polytope.CandidatesNotUnique issued <->
     Constraints.constraints d <> [] /\
     exists p st1 candidates,
       prepare d n = Ok p /\
       List.length (Polytope.lower p) <> 0 /\
       draw_candidates self d p n st = (st1, Ok candidates) /\
       1 < n /\ List.length (Polytope.unique_rows candidates) <> n) /\
    (issued <> [] -> exists table, snd run = Ok table).
Proof.
  intros Hview run. subst run.
  destruct (_sample_from_polytope self n st) as [stf res] eqn:Erun. cbn [fst snd].
  unfold Polytope._sample_from_polytope in Erun.
  unfold mbind at 1 in Erun. unfold Polytope.M_bind at 1 in Erun.
  unfold Polytope.bind at 1 in Erun.
  unfold Polytope.read_domain in Erun. rewrite Hview in Erun.
  destruct (Constraints.constraints d) as [|c0 cs] eqn:Ecs.
  { (* no constraints: the fallback sampler *)
    change (Nat.eqb (List.length (@nil (Constraints.Constraint Q))) 0) with true in Erun.
    cbv iota in Erun.
    unfold mbind, Polytope.M_bind, Polytope.bind, Polytope.lift in Erun.
    destruct (get_seed_frame st) as (seed & g & Es). rewrite Es in Erun.
    injection Erun as <- <-. cbn [Polytope.warnings].
    exists []. rewrite app_nil_r. split; [reflexivity|]. split; [left; reflexivity|].
    split; [split; [intros []|intros [H _]; congruence]|].
    split; [split; [intros []|intros [H _]; congruence]|].
    intros H. congruence. }
  change (Nat.eqb (List.length (c0 :: cs)) 0) with false in Erun. cbv iota in Erun.
  unfold mbind at 1 in Erun. unfold Polytope.M_bind at 1 in Erun.
  unfold Polytope.bind at 1 in Erun. unfold Polytope.lift at 1 in Erun.
  destruct (prepare d n) as [p|e] eqn:Ep.
  2:{ injection Erun as <- <-. exists []. rewrite app_nil_r. split; [reflexivity|].
      split; [left; reflexivity|].
      split; [split; [intros []|intros (_ & p & Hp & _); discriminate Hp]|].
      split; [split; [intros []|intros (_ & p & ? & ? & Hp & _); discriminate Hp]|].
      intros H. congruence. }
  unfold mbind at 1 in Erun. unfold Polytope.M_bind at 1 in Erun.
  unfold Polytope.bind at 1 in Erun.
  destruct (Nat.eqb_spec (List.length (Polytope.lower p)) 0) as [Hlow|Hlow].
  { (* nothing to sample *)
    unfold mbind at 1 in Erun. unfold Polytope.M_bind at 1 in Erun.
    unfold Polytope.bind at 1 in Erun.
    unfold Polytope.warn at 1 in Erun. unfold Polytope.ret at 1 in Erun.
    match type of Erun with context [Polytope.nan_frame ?a ?b] =>
      set (frame := Polytope.nan_frame a b) in Erun end.
    destruct (finish_frame n d p frame
      (Polytope.mkState rng (Polytope.heap rng st) (Polytope.gen rng st)
         (Polytope.warnings rng st ++ [Polytope.NothingToSample])))
      as (st' & table & E & Hw).
    rewrite E in Erun. injection Erun as <- <-.
    exists [Polytope.NothingToSample]. split; [exact Hw|].
    split; [right; left; reflexivity|].
    split.
    { split; [|intros _; left; reflexivity].
      intros _. split; [discriminate|]. exists p. split; [reflexivity|].
      apply (prepare_nothing_to_sample d n p Ep). exact Hlow. }
    split.
    { split; [intros [H|[]]; discriminate H|].
      intros (_ & p' & st1 & cand & Hp' & Hne & _). injection Hp' as <-. contradiction. }
    intros _. exists table. reflexivity. }
  (* hit and run *)
  unfold Polytope.hit_and_run in Erun.
  unfold mbind at 1 in Erun. unfold Polytope.M_bind at 1 in Erun.
  unfold Polytope.bind at 1 in Erun.
  destruct (draw_candidates self d p n st) as [st1 [candidates|e]] eqn:Ed.
  2:{ injection Erun as <- <-.
      destruct (draw_candidates_frame self d p n st st1 _ Ed) as (Hw & _).
      exists []. rewrite app_nil_r. split; [exact Hw|]. split; [left; reflexivity|].
      split; [split; [intros []|]|].
      { intros (_ & p' & Hp' & Hall). injection Hp' as <-.
        apply (prepare_nothing_to_sample d n p Ep) in Hall. contradiction. }
      split; [split; [intros []|]|intros H; congruence].
      intros (_ & p' & st1' & cand & Hp' & _ & Hd & _). injection Hp' as <-.
      rewrite Ed in Hd. discriminate Hd. }
  destruct (draw_candidates_frame self d p n st st1 _ Ed) as (Hw1 & _ & Hshape).
  destruct (Hshape candidates eq_refl) as [Hlen Hrows].
  destruct (frame_of_rows_ok n
              (List.map Features.key (Polytope.free_features d (Polytope.fixed_features p)))
              candidates Hlen) as [frame Hframe].
  { intros r Hr. rewrite List.length_map, <- (prepare_lower_length d n p Ep).
    apply Hrows. exact Hr. }
  unfold mbind at 1 in Erun. unfold Polytope.M_bind at 1 in Erun.
  unfold Polytope.bind at 1 in Erun.
  destruct (negb (Nat.eqb (List.length (Polytope.unique_rows candidates)) n) && Nat.ltb 1 n)
    eqn:Econd.
  - (* the candidates are not unique *)
    unfold Polytope.warn at 1 in Erun. unfold Polytope.lift at 1 in Erun.
    rewrite Hframe in Erun.
    destruct (finish_frame n d p frame
      (Polytope.mkState rng (Polytope.heap rng st1) (Polytope.gen rng st1)
         (Polytope.warnings rng st1 ++ [Polytope.CandidatesNotUnique])))
      as (st' & table & E & Hw).
    rewrite E in Erun. injection Erun as <- <-.
    exists [Polytope.CandidatesNotUnique]. split; [rewrite Hw, Hw1; reflexivity|].
    split; [right; right; reflexivity|].
    apply andb_true_iff in Econd. destruct Econd as [Hu Hn].
    apply negb_true_iff, Nat.eqb_neq in Hu. apply Nat.ltb_lt in Hn.
    split.
    { split; [intros [H|[]]; discriminate H|].
      intros (_ & p' & Hp' & Hall). injection Hp' as <-.
      apply (prepare_nothing_to_sample d n p Ep) in Hall. contradiction. }
    split.
    { split; [|intros _; left; reflexivity].
      intros _. split; [discriminate|]. exists p, st1, candidates.
      repeat split; assumption || reflexivity. }
    intros _. exists table. reflexivity.
  - (* the candidates differ, or there is just one *)
    unfold Polytope.ret at 1 in Erun. unfold Polytope.lift at 1 in Erun.
    rewrite Hframe in Erun.
    destruct (finish_frame n d p frame st1) as (st' & table & E & Hw).
    rewrite E in Erun. injection Erun as <- <-.
    exists []. rewrite app_nil_r. split; [rewrite Hw, Hw1; reflexivity|].
    split; [left; reflexivity|].
    split; [split; [intros []|]|].
    { intros (_ & p' & Hp' & Hall). injection Hp' as <-.
      apply (prepare_nothing_to_sample d n p Ep) in Hall. contradiction. }
    split; [split; [intros []|]|intros H; congruence].
    intros (_ & p' & st1' & cand & Hp' & _ & Hd & Hn & Hu). injection Hp' as <-.
    rewrite Ed in Hd. injection Hd as <- <-.
    apply andb_false_iff in Econd. destruct Econd as [H|H].
    + apply negb_false_iff, Nat.eqb_eq in H. contradiction.
    + apply Nat.ltb_ge in H. lia.
Qed.

End SamplerWarnings.

Lemma ex_hit_and_run_shape q lo hi ineq eq nb nt seed candidates :
  Examples.ex_hit_and_run q (lo, hi) ineq eq nb nt seed = Ok candidates ->
  List.length candidates = q /\
  forall r, In r candidates -> List.length r = List.length lo.
Proof.
  unfold Examples.ex_hit_and_run. intros [= <-]. simpl. split.
  - apply length_replicate.
  - intros r Hr. apply list_elem_of_In, elem_of_replicate in Hr. destruct Hr as [-> _].
    reflexivity.
Defined.

Lemma sample_from_polytope_warnings_witness :
  let run := Polytope._sample_from_polytope unit Examples.ex_next_seed
               Examples.ex_inputs_sample Examples.ex_interpoint Examples.ex_unfixed
               Examples.ex_hit_and_run Examples.ex_feat_sample Examples.sampler_at_3 3
               (Polytope.mkState unit Examples.h_free tt []) in
  exists issued,
    Polytope.warnings unit (fst run) = [] ++ issued /\
    (issued <> [] -> exists table, snd run = Ok table).
Proof.
  intros run.
  destruct (sample_from_polytope_warnings unit Examples.ex_next_seed
              Examples.ex_inputs_sample Examples.ex_interpoint Examples.ex_unfixed
              Examples.ex_hit_and_run Examples.ex_feat_sample ex_hit_and_run_shape
              Examples.sampler_at_3 3 (Polytope.mkState unit Examples.h_free tt [])
              (Constraints.mkDomain
                 [Examples.continuous "x1" 0 1; Examples.continuous "x2" 0 1]
                 [Constraints.LinearInequalityConstraint ["x1"; "x2"] [1; 1]%Q 1%Q])
              eq_refl) as (issued & Hw & _ & _ & _ & Hret).
  exists issued. split; [exact Hw|exact Hret].
Defined.

(** The claim as stated fails: with two samples asked for, both continuous
    inputs fixed and one constraint, the warning "nothing to sample" is
    issued although [n] is not 1, and no hit-and-run samples exist that
    could fail to be distinct (the hit-and-run sampler of this run never
    delivers). *)
Lemma sample_from_polytope_warns_for_two :
  let run := Polytope._sample_from_polytope unit Examples.ex_next_seed
               Examples.ex_inputs_sample Examples.ex_interpoint Examples.ex_unfixed
               Examples.ex_no_hit_and_run Examples.ex_feat_sample Examples.sampler_at_3 2
               (Polytope.mkState unit Examples.h_fixed tt []) in
  Polytope.warnings unit (fst run) = [Polytope.NothingToSample] /\
  (exists table, snd run = Ok table) /\
  2 <> 1.
Proof.
  cbv zeta. split; [vm_compute; reflexivity|]. split; [|discriminate].
  eexists. vm_compute. reflexivity.
Qed.

(** Conversely, a single sample of a domain without constraints whose
    continuous inputs are all fixed raises no warning: the fallback sampler
    answers. *)
Lemma sample_unconstrained_fixed_silent :
  let run := Polytope._sample_from_polytope unit Examples.ex_next_seed
               Examples.ex_inputs_sample Examples.ex_interpoint Examples.ex_unfixed
               Examples.ex_hit_and_run Examples.ex_feat_sample Examples.sampler_at_3 1
               (Polytope.mkState unit Examples.h_unconstrained tt []) in
  Polytope.warnings unit (fst run) = [].
Proof. vm_compute. reflexivity. Qed.

(** ** The sampler and the store *)

Section SamplerStore.

Variable rng : Type.
Variable next_seed : rng -> nat * rng.
Variable rng_choice : rng -> nat -> nat -> list nat * rng.
Variable inputs_sample :
  list Features.Feature -> nat -> nat -> result (Pandas.DataFrame Polytope.cell).
Variable get_interpoint_constraints : Constraints.Domain Q -> nat -> list TorchTools.lin.
Variable generate_unfixed_lin_constraints :
  list TorchTools.lin -> bool -> list (nat * Polytope.number) -> nat ->
  result (list TorchTools.lin).
Variable sample_q_batches_from_polytope :
  nat -> list Q * list Q -> option (list TorchTools.lin) -> option (list TorchTools.lin) ->
  nat -> nat -> nat -> result (list (list Q)).
Variable feat_sample : Features.Feature -> nat -> nat -> list Polytope.cell.
Variable get_nchoosek_combinations : Constraints.Domain Q -> list (list string).
Variable concat_sample :
  list (Pandas.DataFrame Polytope.cell) -> nat -> nat -> result (Pandas.DataFrame Polytope.cell).
Variable strategy_ask :
  Polytope.Sampler -> nat -> Polytope.M rng (Pandas.DataFrame Polytope.cell).

#[local] Existing Instance Polytope.M_bind.

Local Abbreviation state := (Polytope.state rng).
Local Abbreviation heap := (Polytope.heap rng).
Local Abbreviation read_only := (Polytope.read_only rng).
Local Abbreviation preserves := (Polytope.preserves rng).

Lemma read_only_ret {A} (a : A) : read_only (Polytope.ret rng a).
Proof. intros st. reflexivity. Qed.

Lemma read_only_lift {A} (r : result A) : read_only (Polytope.lift rng r).
Proof. intros st. reflexivity. Qed.

Lemma read_only_warn (w : Polytope.Warning) : read_only (Polytope.warn rng w).
Proof. intros st. reflexivity. Qed.

Lemma read_only_get_seed : read_only (Polytope._get_seed rng next_seed).
Proof.
  intros st. unfold Polytope._get_seed.
  destruct (next_seed (Polytope.gen rng st)). reflexivity.
Qed.

Lemma read_only_choice (population size : nat) :
  read_only (Polytope.choice rng rng_choice population size).
Proof.
  intros st. unfold Polytope.choice.
  destruct (rng_choice (Polytope.gen rng st) population size). reflexivity.
Qed.

Lemma read_only_read_domain (d : positive) : read_only (Polytope.read_domain rng d).
Proof.
  intros st. unfold Polytope.read_domain.
  destruct (Polytope.view (heap st) d); reflexivity.
Qed.

Lemma read_only_bind {A B} (m : Polytope.M rng A) (k : A -> Polytope.M rng B) :
  read_only m -> (forall a, read_only (k a)) -> read_only (m ≫= k).
Proof.
  intros Hm Hk st. unfold mbind, Polytope.M_bind, Polytope.bind.
  specialize (Hm st). destruct (m st) as [st1 [a|e]]; simpl in *.
  - rewrite Hk. exact Hm.
  - exact Hm.
Qed.

Lemma read_only_fold_M {A S} (body : S -> A -> Polytope.M rng S) (xs : list A) (s : S) :
  (forall s x, read_only (body s x)) -> read_only (Polytope.fold_M rng body xs s).
Proof.
  intros Hb. revert s. induction xs as [|x xs IH]; intros s; simpl.
  - apply read_only_ret.
  - apply read_only_bind; [apply Hb|]. intros s'. apply IH.
Qed.

Create HintDb read_only.
#[local] Hint Resolve read_only_ret read_only_lift read_only_warn read_only_get_seed
  read_only_choice read_only_read_domain : read_only.

Ltac read_only_step :=
  first [ apply read_only_bind; [|intros ?]
        | apply read_only_fold_M; intros ? ?
        | solve [auto with read_only]
        | match goal with |- Polytope.read_only _ (if ?b then _ else _) => destruct b end
        | match goal with |- Polytope.read_only _ (let '(_, _) := ?p in _) => destruct p end ].

(** [_sample_from_polytope] only reads the store. *)
Lemma sample_from_polytope_read_only (self : Polytope.Sampler) (n : nat) :
  read_only (Polytope._sample_from_polytope rng next_seed inputs_sample
               get_interpoint_constraints generate_unfixed_lin_constraints
               sample_q_batches_from_polytope feat_sample self n).
Proof.
  unfold Polytope._sample_from_polytope, Polytope.hit_and_run, Polytope.draw_candidates.
  repeat read_only_step.
Qed.

Lemma read_only_preserves {A} (h0 : gmap positive Polytope.object) (m : Polytope.M rng A) :
  read_only m -> preserves h0 m.
Proof. intros Hm st H. rewrite Hm. exact H. Qed.

Lemma preserves_bind {A B} (h0 : gmap positive Polytope.object)
    (m : Polytope.M rng A) (k : A -> Polytope.M rng B) :
  preserves h0 m -> (forall a, preserves h0 (k a)) -> preserves h0 (m ≫= k).
Proof.
  intros Hm Hk st H. unfold mbind, Polytope.M_bind, Polytope.bind.
  specialize (Hm st H). destruct (m st) as [st1 [a|e]]; simpl in *.
  - apply Hk. exact Hm.
  - exact Hm.
Qed.

Lemma preserves_map_M {A B} (h0 : gmap positive Polytope.object)
    (f : A -> Polytope.M rng B) (xs : list A) :
  (forall x, preserves h0 (f x)) -> preserves h0 (Polytope.map_M rng f xs).
Proof.
  intros Hf. induction xs as [|x xs IH]; simpl.
  - apply read_only_preserves, read_only_ret.
  - apply preserves_bind; [apply Hf|]. intros y.
    apply preserves_bind; [exact IH|]. intros ys.
    apply read_only_preserves, read_only_ret.
Qed.

(** [Strategy.ask] of a sampler touches no object outside the domain the
    sampler was built for. *)
Hypothesis strategy_ask_frame : forall sampler n (st : state) l o,
  heap st !! l = Some o ->
  l ∉ Polytope.footprint (heap st) (Polytope.domain sampler) ->
  heap (fst (strategy_ask sampler n st)) !! l = Some o.

Lemma alloc_spec (o : Polytope.object) (st : state) :
  exists l, Polytope.alloc rng o st
            = (Polytope.mkState rng (<[l := o]> (heap st)) (Polytope.gen rng st)
                 (Polytope.warnings rng st), Ok l) /\
            (l ∉ dom (heap st)) /\ heap st ⊆ (<[l := o]> (heap st)).
Proof.
  exists (fresh (dom (heap st))). split; [reflexivity|].
  assert (H : fresh (dom (heap st)) ∉ dom (heap st)) by apply is_fresh.
  split; [exact H|]. apply insert_subseteq, not_elem_of_dom. exact H.
Qed.

Lemma read_object_spec (l : positive) (st : state) :
  exists r, Polytope.read_object rng l st = (st, r) /\
            forall o, r = Ok o -> heap st !! l = Some o.
Proof.
  unfold Polytope.read_object. destruct (heap st !! l) as [o|] eqn:E.
  - eexists. split; [reflexivity|]. intros o' [= <-]. reflexivity.
  - eexists. split; [reflexivity|]. discriminate.
Qed.

(** Copying the inputs only adds objects, at locations the store did not
    use before. *)
Lemma copy_features_spec (hb : gmap positive Polytope.object) (ins : list positive) :
  forall (memo : gmap positive positive) (out : list positive) (st st1 : state) r,
    Polytope.fold_M rng (Polytope.copy_feature rng) ins (memo, out) st = (st1, r) ->
    hb ⊆ heap st ->
    (forall l l', memo !! l = Some l' -> l' ∉ dom hb) ->
    (forall l, l ∈ out -> l ∉ dom hb) ->
    hb ⊆ heap st1 /\
    forall memo' out', r = Ok (memo', out') -> forall l, l ∈ out' -> l ∉ dom hb.
Proof.
  induction ins as [|l0 ins IH]; intros memo out st st1 r Hrun Hsub Hmemo Hout.
  - simpl in Hrun. injection Hrun as <- <-.
    split; [exact Hsub|]. intros memo' out' [= <- <-]. exact Hout.
  - cbn [Polytope.fold_M] in Hrun.
    unfold mbind at 1 in Hrun. unfold Polytope.M_bind at 1 in Hrun.
    unfold Polytope.bind at 1 in Hrun.
    unfold Polytope.copy_feature at 1 in Hrun.
    destruct (memo !! l0) as [l'|] eqn:Em.
    + unfold Polytope.ret at 1 in Hrun.
      apply (IH _ _ _ _ _ Hrun Hsub Hmemo).
      intros l Hl. apply elem_of_app in Hl. destruct Hl as [Hl|Hl]; [apply Hout; exact Hl|].
      apply list_elem_of_singleton in Hl. subst l. apply (Hmemo l0 l' Em).
    + unfold mbind at 1 in Hrun. unfold Polytope.M_bind at 1 in Hrun.
      unfold Polytope.bind at 1 in Hrun.
      destruct (read_object_spec l0 st) as (ro & Ero & _). rewrite Ero in Hrun.
      destruct ro as [o|e].
      2:{ injection Hrun as <- <-. split; [exact Hsub|discriminate]. }
      unfold mbind at 1 in Hrun. unfold Polytope.M_bind at 1 in Hrun.
      unfold Polytope.bind at 1 in Hrun.
      destruct (alloc_spec o st) as (l' & Eal & Hfresh & Hgrow). rewrite Eal in Hrun.
      unfold Polytope.ret at 1 in Hrun.
      assert (Hl' : l' ∉ dom hb).
      { intros Hin. apply Hfresh. apply (subseteq_dom _ _ Hsub). exact Hin. }
      apply (IH _ _ _ _ _ Hrun).
      * simpl. etransitivity; [exact Hsub|exact Hgrow].
      * intros l l'' Hlk. destruct (decide (l0 = l)) as [->|Hne].
        -- rewrite lookup_insert_eq in Hlk. injection Hlk as <-. exact Hl'.
        -- rewrite lookup_insert_ne in Hlk by exact Hne. apply (Hmemo l l'' Hlk).
      * intros l Hl. apply elem_of_app in Hl. destruct Hl as [Hl|Hl]; [apply Hout; exact Hl|].
        apply list_elem_of_singleton in Hl. subst l. exact Hl'.
Qed.

(** The copy that [deepcopy] returns is made of new objects. *)
Lemma deepcopy_spec (d : positive) (st st1 : state) (r : result positive) :
  Polytope.deepcopy rng d st = (st1, r) ->
  heap st ⊆ heap st1 /\
  forall d', r = Ok d' ->
    (d' ∉ dom (heap st)) /\
    forall ins cs, heap st1 !! d' = Some (Polytope.DomainObj ins cs) ->
      forall l, l ∈ ins -> l ∉ dom (heap st).
Proof.
  intros Hrun. unfold Polytope.deepcopy in Hrun.
  unfold mbind at 1 in Hrun. unfold Polytope.M_bind at 1 in Hrun.
  unfold Polytope.bind at 1 in Hrun.
  destruct (read_object_spec d st) as (ro & Ero & _). rewrite Ero in Hrun.
  destruct ro as [[f|ins cs]|e].
  - destruct (alloc_spec (Polytope.FeatureObj f) st) as (l & Eal & Hfresh & Hgrow).
    rewrite Eal in Hrun. injection Hrun as <- <-.
    simpl. split; [exact Hgrow|]. intros d' [= <-]. split; [exact Hfresh|].
    intros ins cs Hlk. rewrite lookup_insert_eq in Hlk. discriminate Hlk.
  - unfold mbind at 1 in Hrun. unfold Polytope.M_bind at 1 in Hrun.
    unfold Polytope.bind at 1 in Hrun.
    destruct (Polytope.fold_M rng (Polytope.copy_feature rng) ins (∅, []) st)
      as [st2 r2] eqn:Ecopy.
    destruct (copy_features_spec (heap st) ins ∅ [] st st2 r2 Ecopy) as [Hsub Hout].
    { reflexivity. }
    { intros l l' H. rewrite lookup_empty in H. discriminate H. }
    { intros l H. apply elem_of_nil in H. destruct H. }
    destruct r2 as [[memo' ins']|e].
    2:{ injection Hrun as <- <-. split; [exact Hsub|discriminate]. }
    destruct (alloc_spec (Polytope.DomainObj ins' cs) st2) as (l & Eal & Hfresh & Hgrow).
    rewrite Eal in Hrun. injection Hrun as <- <-.
    simpl. split; [etransitivity; [exact Hsub|exact Hgrow]|].
    intros d' [= <-]. split.
    + intros Hin. apply Hfresh. apply (subseteq_dom _ _ Hsub). exact Hin.
    + intros ins0 cs0 Hlk. rewrite lookup_insert_eq in Hlk. injection Hlk as <- <-.
      apply (Hout memo' ins' eq_refl).
  - injection Hrun as <- <-. split; [reflexivity|discriminate].
Qed.

Lemma find_loc_In (h : gmap positive Polytope.object) (k : string) (ins : list positive)
    (l : positive) :
  Polytope.find_loc h k ins = Some l -> l ∈ ins.
Proof.
  induction ins as [|l0 ins IH]; simpl; [discriminate|].
  destruct (Polytope.find_loc h k ins) as [l'|].
  - intros [= <-]. right. apply IH. reflexivity.
  - destruct (Polytope.read_feature h l0) as [f|]; [|discriminate].
    destruct (String.eqb (Features.key f) k); [|discriminate].
    intros [= <-]. left.
Qed.

Lemma find_loc_feature (h : gmap positive Polytope.object) (k : string) (ins : list positive)
    (l : positive) :
  Polytope.find_loc h k ins = Some l -> exists f, h !! l = Some (Polytope.FeatureObj f).
Proof.
  induction ins as [|l0 ins IH]; simpl; [discriminate|].
  destruct (Polytope.find_loc h k ins) as [l'|].
  - intros [= <-]. apply IH. reflexivity.
  - unfold Polytope.read_feature.
    destruct (h !! l0) as [[f|? ?]|] eqn:E; try discriminate.
    destruct (String.eqb (Features.key f) k); [|discriminate].
    intros [= <-]. exists f. exact E.
Qed.

Section Copy.

Variable h0 : gmap positive Polytope.object.
Variable d' : positive.

Local Abbreviation separate := (Polytope.separate rng h0 d').

Lemma drop_nchoosek_separate (st : state) :
  separate st -> separate (fst (Polytope.drop_nchoosek rng d' st)).
Proof.
  intros (Hsub & Hd & Hins). unfold Polytope.separate, Polytope.drop_nchoosek.
  unfold mbind, Polytope.M_bind, Polytope.bind.
  destruct (read_object_spec d' st) as (ro & -> & Hro).
  destruct ro as [[f|ins cs]|e]; unfold Polytope.write, Polytope.lift;
    cbn [fst Polytope.heap]; [repeat split; assumption| |repeat split; assumption].
  split; [|split; [exact Hd|]].
  - apply insert_subseteq_r; [apply not_elem_of_dom; exact Hd|exact Hsub].
  - intros ins0 cs0 Hlk. rewrite lookup_insert_eq in Hlk. injection Hlk as <- _.
    apply (Hins ins cs). apply Hro. reflexivity.
Qed.

Lemma pin_feature_separate (k : string) (st : state) :
  separate st -> separate (fst (Polytope.pin_feature rng d' k st)).
Proof.
  intros (Hsub & Hd & Hins). unfold Polytope.separate, Polytope.pin_feature.
  unfold mbind, Polytope.M_bind, Polytope.bind.
  destruct (read_object_spec d' st) as (ro & -> & Hro).
  destruct ro as [[f|ins cs]|e]; unfold Polytope.lift;
    cbn [fst Polytope.heap]; [repeat split; assumption| |repeat split; assumption].
  specialize (Hins ins cs (Hro _ eq_refl)).
  assert (Hsame : h0 ⊆ heap st /\ (d' ∉ dom h0) /\
    forall ins cs, heap st !! d' = Some (Polytope.DomainObj ins cs) ->
      forall l, l ∈ ins -> l ∉ dom h0).
  { split; [exact Hsub|split; [exact Hd|]].
    intros ins0 cs0 Hlk. rewrite (Hro _ eq_refl) in Hlk. injection Hlk as <- _.
    exact Hins. }
  destruct (Polytope.find_loc (heap st) k ins) as [l|] eqn:Efind; [|exact Hsame].
  pose proof (find_loc_In _ _ _ _ Efind) as Hl.
  destruct (find_loc_feature _ _ _ _ Efind) as [f Hf].
  unfold Polytope.read_feature. rewrite Hf.
  destruct f as [k' [b|vs|cats allowed]]; try exact Hsame.
  unfold Polytope.write. cbn [fst Polytope.heap].
  split; [|split; [exact Hd|]].
  - apply insert_subseteq_r; [apply not_elem_of_dom, Hins; exact Hl|exact Hsub].
  - intros ins0 cs0 Hlk. destruct (decide (l = d')) as [->|Hne].
    + rewrite lookup_insert_eq in Hlk. discriminate Hlk.
    + rewrite lookup_insert_ne in Hlk by exact Hne.
      rewrite (Hro _ eq_refl) in Hlk. injection Hlk as <- _. exact Hins.
Qed.

Lemma pin_features_separate (u : list string) (st : state) :
  separate st ->
  separate (fst (Polytope.fold_M rng (fun _ k => Polytope.pin_feature rng d' k) u tt st)).
Proof.
  revert st. induction u as [|k u IH]; intros st Hst; simpl; [exact Hst|].
  unfold mbind, Polytope.M_bind, Polytope.bind.
  pose proof (pin_feature_separate k st Hst) as H1.
  destruct (Polytope.pin_feature rng d' k st) as [st1 [[]|e]]; simpl in *.
  - apply IH. exact H1.
  - exact H1.
Qed.

Lemma strategy_ask_separate (sampler : Polytope.Sampler) (n : nat) (st : state) :
  Polytope.domain sampler = d' ->
  separate st -> h0 ⊆ heap (fst (strategy_ask sampler n st)).
Proof.
  intros Hdom (Hsub & Hd & Hins). apply map_subseteq_spec. intros l o Hl.
  apply strategy_ask_frame.
  - apply (lookup_weaken _ _ _ _ Hl Hsub).
  - rewrite Hdom. unfold Polytope.footprint.
    assert (Hne : l <> d').
    { intros ->. apply Hd. apply (elem_of_dom_2 _ _ _ Hl). }
    destruct (heap st !! d') as [[f|ins cs]|] eqn:E.
    + intros H. apply list_elem_of_singleton in H. contradiction.
    + intros H. apply elem_of_cons in H. destruct H as [H|H]; [contradiction|].
      apply (Hins ins cs eq_refl l H). apply (elem_of_dom_2 _ _ _ Hl).
    + intros H. apply list_elem_of_singleton in H. contradiction.
Qed.

End Copy.

(** Exploring one combination leaves the objects of [h0] alone. *)
Lemma explore_preserves (h0 : gmap positive Polytope.object) (self : Polytope.Sampler)
    (num_samples_per_it : nat) (u : list string) :
  preserves h0 (Polytope.explore rng strategy_ask self num_samples_per_it u).
Proof.
  intros st Hsub. unfold Polytope.explore.
  unfold mbind at 1. unfold Polytope.M_bind at 1. unfold Polytope.bind at 1.
  destruct (Polytope.deepcopy rng (Polytope.domain self) st) as [st1 r1] eqn:Ecopy.
  destruct (deepcopy_spec _ _ _ _ Ecopy) as [Hgrow Hnew].
  destruct r1 as [d'|e]; [|simpl; etransitivity; [exact Hsub|exact Hgrow]].
  destruct (Hnew d' eq_refl) as [Hd Hins].
  assert (Hsep1 : h0 ⊆ heap st1 /\ (d' ∉ dom h0) /\
    forall ins cs, heap st1 !! d' = Some (Polytope.DomainObj ins cs) ->
      forall l, l ∈ ins -> l ∉ dom h0).
  { split; [etransitivity; [exact Hsub|exact Hgrow]|]. split.
    - intros Hin. apply Hd. apply (subseteq_dom _ _ Hsub). exact Hin.
    - intros ins cs Hlk l Hl Hin. apply (Hins ins cs Hlk l Hl).
      apply (subseteq_dom _ _ Hsub). exact Hin. }
  unfold mbind at 1. unfold Polytope.M_bind at 1. unfold Polytope.bind at 1.
  pose proof (drop_nchoosek_separate h0 d' st1 Hsep1) as Hsep2.
  destruct (Polytope.drop_nchoosek rng d' st1) as [st2 [[]|e]]; cbn [fst] in Hsep2;
    [|simpl; apply Hsep2].
  unfold mbind at 1. unfold Polytope.M_bind at 1. unfold Polytope.bind at 1.
  pose proof (pin_features_separate h0 d' u st2 Hsep2) as Hsep3.
  destruct (Polytope.fold_M rng (fun _ k => Polytope.pin_feature rng d' k) u tt st2)
    as [st3 [[]|e]]; cbn [fst] in Hsep3; [|simpl; apply Hsep3].
  apply (strategy_ask_separate h0 d'); [reflexivity|exact Hsep3].
Qed.

Lemma view_weaken (h h' : gmap positive Polytope.object) (d : positive)
    (v : Constraints.Domain Q) :
  h ⊆ h' -> Polytope.view h d = Some v -> Polytope.view h' d = Some v.
Proof.
  intros Hsub. unfold Polytope.view.
  destruct (h !! d) as [[f|ins cs]|] eqn:E; try discriminate.
  rewrite (lookup_weaken _ _ _ _ E Hsub).
  destruct (mapM (Polytope.read_feature h) ins) as [fs|] eqn:Efs; [|discriminate].
  intros H. assert (E' : mapM (Polytope.read_feature h') ins = Some fs); [|rewrite E'; exact H].
  apply mapM_Some. apply mapM_Some in Efs.
  eapply Forall2_impl; [exact Efs|].
  intros l f. unfold Polytope.read_feature.
  destruct (h !! l) as [[f'|? ?]|] eqn:El; try discriminate.
  rewrite (lookup_weaken _ _ _ _ El Hsub). auto.
Qed.

(** C8. Whatever the generator, the library calls and the Domain
    collaborator return, and provided the [ask] of a duplicated sampler
    touches only the domain it was built for: a call of
    [PolytopeSampler._ask] leaves every object of the store it started from
    as it was, whether it returns or raises.  In particular the sampler's
    own domain reads as before: the same constraints, NChooseK constraints
    included, and the same input features with the same bounds.  The
    pinning to (0, 0) happens in the deep copies. *)
Theorem ask_leaves_domain_unchanged (self : Polytope.Sampler) (candidate_count : nat)
    (st : state) :
  let st' := fst (Polytope._ask rng next_seed rng_choice inputs_sample
                    get_interpoint_constraints generate_unfixed_lin_constraints
                    sample_q_batches_from_polytope feat_sample get_nchoosek_combinations
                    concat_sample strategy_ask self candidate_count st) in
  heap st ⊆ heap st' /\
  forall d, Polytope.view (heap st) (Polytope.domain self) = Some d ->
            Polytope.view (heap st') (Polytope.domain self) = Some d.
Proof.
  intros st'.
  assert (H : heap st ⊆ heap st').
  { subst st'.
    assert (Hp : preserves (heap st)
      (Polytope._ask rng next_seed rng_choice inputs_sample
         get_interpoint_constraints generate_unfixed_lin_constraints
         sample_q_batches_from_polytope feat_sample get_nchoosek_combinations
         concat_sample strategy_ask self candidate_count)); [|apply Hp; reflexivity].
    unfold Polytope._ask.
    apply preserves_bind; [apply read_only_preserves, read_only_read_domain|].
    intros d. destruct (Nat.ltb 0 _).
    - apply preserves_bind.
      + apply read_only_preserves.
        destruct (Nat.leb candidate_count _).
        * repeat read_only_step.
        * destruct (Nat.eqb _ 0); repeat read_only_step.
      + intros [combos num]. apply preserves_bind.
        * apply preserves_map_M. intros u. apply explore_preserves.
        * intros samples. apply read_only_preserves. repeat read_only_step.
    - apply read_only_preserves, sample_from_polytope_read_only. }
  split; [exact H|]. intros d Hd. apply (view_weaken _ _ _ _ H Hd).
Qed.

End SamplerStore.

Lemma ex_strategy_ask_frame sampler n (st : Polytope.state unit) l o :
  Polytope.heap unit st !! l = Some o ->
  l ∉ Polytope.footprint (Polytope.heap unit st) (Polytope.domain sampler) ->
  Polytope.heap unit (fst (Examples.ex_strategy_ask sampler n st)) !! l = Some o.
Proof.
  intros H _. unfold Examples.ex_strategy_ask.
  rewrite sample_from_polytope_read_only. exact H.
Defined.

Lemma ask_leaves_domain_unchanged_witness :
  Polytope.view
    (Polytope.heap unit
       (fst (Examples.ex_ask Examples.sampler_at_3 3
               (Polytope.mkState unit Examples.h_nchoosek tt []))))
    3%positive = Some Examples.d_nchoosek.
Proof.
  apply (proj2 (ask_leaves_domain_unchanged unit Examples.ex_next_seed Examples.ex_choice
                  Examples.ex_inputs_sample Examples.ex_interpoint Examples.ex_unfixed
                  Examples.ex_hit_and_run Examples.ex_feat_sample Examples.ex_combinations
                  Examples.ex_concat_sample Examples.ex_strategy_ask ex_strategy_ask_frame
                  Examples.sampler_at_3 3
                  (Polytope.mkState unit Examples.h_nchoosek tt []))).
  reflexivity.
Defined.

(** In that run the copies are pinned, the inputs of the sampler's own
    domain are not. *)
Lemma ask_pins_the_copies :
  let h := Polytope.heap unit
             (fst (Examples.ex_ask Examples.sampler_at_3 3
                     (Polytope.mkState unit Examples.h_nchoosek tt []))) in
  h !! 1%positive = Some (Polytope.FeatureObj (Examples.continuous "x1" 0 1)) /\
  h !! 4%positive = Some (Polytope.FeatureObj (Examples.continuous "x1" 0 0)) /\
  h !! 8%positive = Some (Polytope.FeatureObj (Examples.continuous "x2" 0 0)).
Proof. vm_compute. repeat split. Qed.

(** Pinning through the domain itself, without a copy, does change it: the
    store models sharing. *)
Lemma pin_without_copy_changes_domain :
  Polytope.view
    (Polytope.heap unit
       (fst (Polytope.pin_feature unit 3%positive "x1"
               (Polytope.mkState unit Examples.h_nchoosek tt []))))
    3%positive
  = Some (Constraints.mkDomain
            [Examples.continuous "x1" 0 0; Examples.continuous "x2" 0 1]
            (Constraints.constraints Examples.d_nchoosek)).
Proof. vm_compute. reflexivity. Qed.

(** * Further properties *)

(** ** Filtering by class *)

Lemma class_in_spec (c : Util.Class) (l : list Util.Class) :
  Util.class_in c l = true <-> c ∈ l.
Proof. unfold Util.class_in. apply bool_decide_eq_true. Qed.

Lemma filter_nil_length {A} (f : A -> bool) (l : list A) :
  Nat.ltb 0 (List.length (List.filter f l)) = true <-> exists x, In x l /\ f x = true.
Proof.
  rewrite Nat.ltb_lt. split.
  - intros H. destruct (List.filter f l) as [|x r] eqn:E; [simpl in H; lia|].
    exists x. apply List.filter_In. rewrite E. left. reflexivity.
  - intros (x & Hx & Hf).
    assert (Hin : In x (List.filter f l)) by (apply List.filter_In; auto).
    destruct (List.filter f l); [destruct Hin | simpl; lia].
Qed.

(** X1. [filter_by_class] raises, and then a [ValueError], in exactly three
    situations: neither includes nor excludes are given; a class is both
    included and excluded; no includes are given and [object] is excluded
    (the includes then default to [object]).  In every other case it
    returns a list. *)
Theorem filter_by_class_raises_iff {A} (data : list A) (includes excludes : Util.TypeArg)
    (exact : bool) (type_of : A -> Util.Class) :
  (Util.filter_by_class data includes excludes exact type_of = Raise ValueError <->
   (Util.as_list includes = [] /\ Util.as_list excludes = []) \/
   (exists c, c ∈ Util.as_list includes /\ c ∈ Util.as_list excludes) \/
   (Util.as_list includes = [] /\ Util.object ∈ Util.as_list excludes)) /\
  (exists l, Util.filter_by_class data includes excludes exact type_of = Ok l \/
             Util.filter_by_class data includes excludes exact type_of = Raise ValueError).
Proof.
  unfold Util.filter_by_class.
  set (inc := Util.as_list includes). set (exc := Util.as_list excludes).
  destruct (Nat.eqb (List.length inc) (List.length exc) && Nat.eqb (List.length exc) 0)
    eqn:E0.
  - split; [|exists []; right; reflexivity].
    split; [intros _|reflexivity]. left.
    apply andb_true_iff in E0 as [E1 E2].
    apply Nat.eqb_eq in E1, E2. rewrite E2 in E1.
    destruct inc; [|discriminate]. destruct exc; [|discriminate]. auto.
  - set (inc' := if Nat.eqb (List.length inc) 0 then [Util.object] else inc).
    destruct (Nat.ltb 0 (List.length (List.filter (fun x => Util.class_in x exc) inc')))
      eqn:E1.
    + split; [|exists []; right; reflexivity].
      split; [intros _|reflexivity]. right.
      apply filter_nil_length in E1 as (c & Hc & Hce).
      apply class_in_spec in Hce. subst inc'.
      destruct inc as [|i inc]; simpl in Hc.
      * right. destruct Hc as [<-|[]]. auto.
      * left. exists c. split; [|exact Hce]. apply list_elem_of_In. exact Hc.
    + assert (Hno : forall c, In c inc' -> c ∈ exc -> False).
      { intros c Hc Hce.
        assert (H : Nat.ltb 0 (List.length (List.filter (fun x => Util.class_in x exc) inc'))
                    = true).
        { apply filter_nil_length. exists c. split; [exact Hc|].
          apply class_in_spec. exact Hce. }
        congruence. }
      split.
      * split.
        -- destruct exact; discriminate.
        -- intros [[Hi He]|[(c & Hci & Hce)|[Hi Ho]]]; exfalso.
           ++ rewrite Hi, He in E0. discriminate.
           ++ apply (Hno c); [|exact Hce]. subst inc'.
              destruct inc as [|i inc]; [inversion Hci|]. simpl.
              apply list_elem_of_In in Hci. exact Hci.
           ++ apply (Hno Util.object); [|exact Ho]. subst inc'. rewrite Hi. simpl. auto.
      * destruct exact; eexists; left; reflexivity.
Qed.

Lemma filter_ext_in_eq {A} (f g : A -> bool) (l : list A) :
  (forall x, In x l -> f x = g x) -> List.filter f l = List.filter g l.
Proof. apply List.filter_ext_in. Qed.

(** X2. The class filters the sampler and the design utilities ask for are
    the predicates of the embedding: on continuous, discrete and categorical
    inputs, [get(ContinuousInput)] keeps the continuous inputs,
    [get([CategoricalInput, DiscreteInput])] the others, and [get(Feature)],
    [get(InputFeature)] keep all of them, each sorted. *)
Theorem get_by_class_agrees (features : list Features.Feature) :
  Util.get features (Util.OneType Util.ContinuousInput) Util.NoTypes false
    = Ok (Features.get Features.is_continuous features) /\
  Util.get features (Util.TypeList [Util.CategoricalInput; Util.DiscreteInput])
    Util.NoTypes false
    = Ok (Features.get Features.is_categorical_or_discrete features) /\
  Util.get features (Util.OneType Util.Feature) Util.NoTypes false
    = Ok (Features.get Features.any_feature features) /\
  Util.get features (Util.OneType Util.InputFeature) Util.NoTypes false
    = Ok (Features.get Features.any_feature features).
Proof.
  unfold Util.get, Util.filter_by_class, Features.get. cbn [Util.as_list].
  repeat split;
    match goal with
    | |- context [Nat.ltb 0 ?n] => set (b := Nat.ltb 0 n); vm_compute in b; subst b
    end;
    cbn [List.length Nat.eqb andb mbind result_bind];
    do 2 f_equal; apply filter_ext_in_eq; intros [k [b|vs|cs al]] _; reflexivity.
Qed.

(** X3. With [exact=True] and no includes, [filter_by_class] keeps nothing:
    the includes default to [object], and no element has exactly that
    type. *)
Theorem filter_by_class_exact_without_includes {A} (data : list A)
    (excludes : Util.TypeArg) (type_of : A -> Util.Class) :
  Util.as_list excludes <> [] ->
  Util.object ∉ Util.as_list excludes ->
  (forall d, In d data -> type_of d <> Util.object) ->
  Util.filter_by_class data Util.NoTypes excludes true type_of = Ok [].
Proof.
  intros Hne Hobj Hty. unfold Util.filter_by_class. cbn [Util.as_list].
  destruct (Util.as_list excludes) as [|e exc] eqn:E; [congruence|].
  cbn [List.length Nat.eqb andb List.filter].
  destruct (Util.class_in Util.object (e :: exc)) eqn:Ein.
  { apply class_in_spec in Ein. contradiction. }
  cbn [List.length Nat.ltb Nat.leb]. f_equal.
  induction data as [|d data IH]; [reflexivity|].
  cbn [List.filter].
  assert (Hd : Util.class_in (type_of d) [Util.object] = false).
  { apply bool_decide_eq_false. intros H. apply list_elem_of_singleton in H.
    apply (Hty d); [left; reflexivity | exact H]. }
  rewrite Hd. cbn [andb]. apply IH. intros d' Hd'. apply Hty. right. exact Hd'.
Qed.

Lemma filter_by_class_exact_without_includes_witness :
  Util.filter_by_class
    [Examples.continuous "x1" 0 1; Examples.continuous "x2" 0 1]
    Util.NoTypes (Util.OneType Util.DiscreteInput) true Util.class_of = Ok [].
Proof.
  apply (filter_by_class_exact_without_includes
           [Examples.continuous "x1" 0 1; Examples.continuous "x2" 0 1]
           (Util.OneType Util.DiscreteInput) Util.class_of).
  - discriminate.
  - intros H. apply list_elem_of_singleton in H. discriminate.
  - intros d [<-|[<-|[]]]; discriminate.
Defined.

(** ** Categorical inputs *)

Lemma filter_neq_notin (x : string) (l : list string) :
  ~ In x l -> List.filter (fun y => negb (String.eqb x y)) l = l.
Proof.
  induction l as [|y l IH]; simpl; [reflexivity|]. intros H.
  destruct (String.eqb_spec x y) as [->|NE]; [exfalso; apply H; left; reflexivity|].
  simpl. f_equal. apply IH. intros Hin. apply H. right. exact Hin.
Qed.

Lemma dedupe_NoDup_id (l : list string) : List.NoDup l -> Np.dedupe l = l.
Proof.
  induction 1 as [|x l Hx Hl IH]; simpl; [reflexivity|].
  rewrite IH. f_equal. apply filter_neq_notin. exact Hx.
Qed.

Lemma NoDup_filter_list {A} (f : A -> bool) (l : list A) :
  List.NoDup l -> List.NoDup (List.filter f l).
Proof.
  induction 1 as [|x l Hx Hl IH]; simpl; [constructor|].
  destruct (f x); [|exact IH]. constructor; [|exact IH].
  intros H. apply List.filter_In in H. apply Hx, H.
Qed.

Lemma dedupe_NoDup (l : list string) : List.NoDup (Np.dedupe l).
Proof.
  induction l as [|x l IH]; simpl; [constructor|].
  constructor.
  - intros H. apply List.filter_In in H. destruct H as [_ H].
    rewrite String.eqb_refl in H. discriminate.
  - apply NoDup_filter_list. exact IH.
Qed.

Lemma dedupe_length_le (l : list string) :
  List.length (Np.dedupe l) <= List.length l.
Proof.
  induction l as [|x l IH]; simpl; [lia|].
  pose proof (filter_length_le (fun y => negb (String.eqb x y)) (Np.dedupe l)). lia.
Qed.

Lemma dedupe_length_NoDup (l : list string) :
  List.length (Np.dedupe l) = List.length l <-> List.NoDup l.
Proof.
  split; [|intros H; rewrite dedupe_NoDup_id by exact H; reflexivity].
  induction l as [|x l IH]; simpl; [constructor|]. intros H.
  pose proof (filter_length_le (fun y => negb (String.eqb x y)) (Np.dedupe l)) as H1.
  pose proof (dedupe_length_le l) as H2.
  assert (Hf : List.filter (fun y => negb (String.eqb x y)) (Np.dedupe l) = Np.dedupe l).
  { apply filter_full. lia. }
  constructor; [|apply IH; lia].
  intros Hin. apply dedupe_In in Hin. rewrite <- Hf in Hin.
  apply List.filter_In in Hin. destruct Hin as [_ Hin].
  rewrite String.eqb_refl in Hin. discriminate.
Qed.

Lemma count_true_In (a : list bool) :
  Nat.eqb (List.length (List.filter id a)) 0 = false <-> In true a.
Proof.
  rewrite Nat.eqb_neq. split.
  - intros H. destruct (List.filter id a) as [|b r] eqn:E; [contradiction|].
    assert (Hb : In b (List.filter id a)) by (rewrite E; left; reflexivity).
    apply List.filter_In in Hb. destruct Hb as [Hb Hid]. unfold id in Hid. subst b. exact Hb.
  - intros H E.
    assert (Hb : In true (List.filter id a)) by (apply List.filter_In; auto).
    destruct (List.filter id a); [destruct Hb | discriminate].
Qed.

(** X4. Constructing a categorical input succeeds exactly when there are at
    least two categories, no category occurs twice and, where [allowed] is
    given, it has one entry per category and allows at least one; the input
    then carries the categories as given and [allowed] as given, or all
    [True] where it was left out.  Every other call raises a [ValueError]. *)
Theorem categorical_input_new_iff (key : string) (categories : list string)
    (allowed : option (list bool)) :
  let ok :=
    2 <= List.length categories /\ List.NoDup categories /\
    match allowed with
    | None => True
    | Some a => List.length a = List.length categories /\ In true a
    end in
  (forall f, Categorical.new key categories allowed = Ok f <->
     ok /\
     f = Features.mkFeature key
           (Features.CategoricalInput categories
              (match allowed with
               | None => List.map (fun _ => true) categories
               | Some a => a
               end))) /\
  (Categorical.new key categories allowed = Raise ValueError <-> ~ ok).
Proof.
  cbv zeta. unfold Categorical.new, Categorical.validate_categories_unique,
    Categorical.init_allowed, Categorical.name2key.
  rewrite List.map_id.
  destruct (Nat.ltb_spec (List.length categories) 2) as [Hlt|Hge].
  { split; [intros f; split; [discriminate|intros [(H & _) _]; lia]|].
    split; [intros _ (H & _); lia | reflexivity]. }
  destruct (Nat.eqb_spec (List.length categories) (List.length (Np.dedupe categories)))
    as [Hu|Hu]; cbn [negb mbind result_bind].
  2:{ assert (Hnd : ~ List.NoDup categories).
      { intros H. apply Hu. rewrite dedupe_NoDup_id by exact H. reflexivity. }
      split; [intros f; split; [discriminate|intros [(_ & H & _) _]; contradiction]|].
      split; [intros _ (_ & H & _); contradiction | reflexivity]. }
  assert (Hnd : List.NoDup categories) by (apply dedupe_length_NoDup; congruence).
  destruct allowed as [a|].
  - destruct (Nat.ltb_spec (List.length a) 2) as [Ha|Ha]; cbn [mbind result_bind].
    { split; [intros f; split; [discriminate|intros [(_ & _ & H & _) _]; lia]|].
      split; [intros _ (_ & _ & H & _); lia | reflexivity]. }
    destruct (Nat.eqb_spec (List.length a) (List.length categories)) as [Hl|Hl];
      cbn [negb].
    2:{ split; [intros f; split; [discriminate|intros [(_ & _ & H & _) _]; contradiction]|].
        split; [intros _ (_ & _ & H & _); contradiction | reflexivity]. }
    destruct (Nat.eqb (List.length (List.filter id a)) 0) eqn:Ec.
    + assert (Hno : ~ In true a).
      { intros H. apply count_true_In in H. congruence. }
      split; [intros f; split; [discriminate|intros [(_ & _ & _ & H) _]; contradiction]|].
      split; [intros _ (_ & _ & _ & H); contradiction | reflexivity].
    + apply count_true_In in Ec. cbn [mbind result_bind].
      split; [intros f; split|split; [discriminate|intros H; exfalso; apply H; auto]].
      * intros H. injection H as <-. auto.
      * intros [_ ->]. reflexivity.
  - cbn [mbind result_bind]. rewrite List.length_map, Nat.eqb_refl. cbn [negb].
    assert (Ht : Nat.eqb (List.length (List.filter id (List.map (fun _ : string => true)
                                                           categories))) 0 = false).
    { apply count_true_In. destruct categories as [|c cs]; [simpl in Hge; lia|].
      left. reflexivity. }
    rewrite Ht. cbn [mbind result_bind].
    split; [intros f; split|split; [discriminate|intros H; exfalso; apply H; auto]].
    + intros H. injection H as <-. auto.
    + intros [_ ->]. reflexivity.
Qed.

Lemma allowed_categories_In (categories : list string) (allowed : list bool) (c : string) :
  In c (Categorical.get_allowed_categories categories allowed) -> In c categories.
Proof.
  unfold Categorical.get_allowed_categories. rewrite List.in_map_iff.
  intros ([c' b] & <- & H). apply List.filter_In in H. destruct H as [H _].
  apply List.in_combine_l in H. exact H.
Qed.

Lemma allowed_categories_length (categories : list string) (allowed : list bool) :
  List.length allowed = List.length categories ->
  List.length (Categorical.get_allowed_categories categories allowed)
  = List.length (List.filter id allowed).
Proof.
  unfold Categorical.get_allowed_categories. rewrite List.length_map.
  revert allowed. induction categories as [|c cs IH]; intros [|a al] H;
    try discriminate; [reflexivity|].
  simpl in *. destruct a; simpl; rewrite IH by lia; reflexivity.
Qed.

(** X5. A categorical input that was constructed and allows exactly one
    category is fixed to that category: [fixed_value] returns it, it is the
    only allowed category, and it is one of the categories.  For an input
    that is not fixed, [fixed_value] is [None]. *)
Theorem categorical_fixed_value (key : string) (cats : list string)
    (given : option (list bool)) (categories : list string) (allowed : list bool) :
  Categorical.new key cats given
    = Ok (Features.mkFeature key (Features.CategoricalInput categories allowed)) ->
  (Categorical.is_fixed allowed = true ->
   exists c, Categorical.fixed_value categories allowed = Ok (Some c) /\
             Categorical.get_allowed_categories categories allowed = [c] /\
             In c categories) /\
  (Categorical.is_fixed allowed = false ->
   Categorical.fixed_value categories allowed = Ok None).
Proof.
  intros Hnew.
  destruct (categorical_input_new_iff key cats given) as [Hiff _].
  apply Hiff in Hnew as [(Hlen & Hnd & Hal) E].
  injection E as E1 E2. subst categories allowed.
  set (allowed := match given with
                  | None => List.map (fun _ => true) cats
                  | Some a => a
                  end).
  assert (Hl : List.length allowed = List.length cats).
  { subst allowed. destruct given as [a|]; [apply Hal | apply List.length_map]. }
  unfold Categorical.fixed_value. split; intros Hf; rewrite Hf; [|reflexivity].
  unfold Categorical.is_fixed in Hf. apply Nat.eqb_eq in Hf.
  pose proof (allowed_categories_length cats allowed Hl) as Hc.
  rewrite Hf in Hc.
  destruct (Categorical.get_allowed_categories cats allowed) as [|c [|c' r]] eqn:E;
    try discriminate.
  exists c. split; [reflexivity|]. split; [reflexivity|].
  apply (allowed_categories_In cats allowed). rewrite E. left. reflexivity.
Qed.

Lemma categorical_fixed_value_witness :
  Categorical.fixed_value ["a"; "b"; "c"] [false; true; false] = Ok (Some "b").
Proof.
  destruct (categorical_fixed_value "cat" ["a"; "b"; "c"] (Some [false; true; false])
              ["a"; "b"; "c"] [false; true; false] eq_refl) as [H _].
  destruct (H eq_refl) as (c & Hc & Hal & _).
  rewrite Hc. injection Hal as <-. reflexivity.
Defined.

Lemma count_isin_full (values names : list string) :
  Nat.eqb (Categorical.count_isin values names) (List.length values) = true <->
  (forall v, In v values -> In v names).
Proof.
  unfold Categorical.count_isin. rewrite Nat.eqb_eq. split.
  - intros H v Hv. apply filter_full in H. rewrite <- H in Hv.
    apply List.filter_In in Hv. destruct Hv as [_ Hv]. apply contains_In. exact Hv.
  - intros H. f_equal. apply filter_all. apply forallb_forall.
    intros v Hv. apply contains_In. apply H. exact Hv.
Qed.

(** X6. For a categorical input whose categories are distinct, the strict
    validation of experimental values passes, returning the values, exactly
    when every value is a category and every category is either allowed or
    occurs among the values; otherwise it raises a [ValueError]. *)
Theorem categorical_validate_experimental_strict (categories : list string)
    (allowed : list bool) (values : list string) :
  List.NoDup categories ->
  let ok :=
    (forall v, In v values -> In v categories) /\
    (forall c, In c categories ->
       In c values \/ In c (Categorical.get_allowed_categories categories allowed)) in
  (Categorical.validate_experimental categories allowed values true = Ok values <-> ok) /\
  (Categorical.validate_experimental categories allowed values true = Raise ValueError
   <-> ~ ok).
Proof.
  intros Hnd. cbv zeta. unfold Categorical.validate_experimental.
  destruct (Nat.eqb (Categorical.count_isin values categories) (List.length values))
    eqn:E1; cbn [negb].
  2:{ assert (Hno : ~ forall v, In v values -> In v categories).
      { intros H. apply count_isin_full in H. congruence. }
      split; split; try discriminate; try reflexivity.
      - intros [H _]. contradiction.
      - intros _ [H _]. contradiction. }
  pose proof (proj1 (count_isin_full _ _) E1) as Hvals. clear E1. rename Hvals into E1.
  set (possible := Categorical.get_possible_categories categories allowed values).
  assert (Hin : forall c, In c possible <->
                  In c values \/ In c (Categorical.get_allowed_categories categories allowed)).
  { intros c. unfold possible, Categorical.get_possible_categories.
    rewrite unique_In, List.in_app_iff, dedupe_In. reflexivity. }
  assert (Hpnd : List.NoDup possible).
  { unfold possible, Categorical.get_possible_categories, Np.unique.
    eapply Permutation_NoDup; [apply sorted_perm | apply dedupe_NoDup]. }
  assert (Hsub : List.incl possible categories).
  { intros c Hc. apply Hin in Hc. destruct Hc as [Hc|Hc]; [apply E1; exact Hc|].
    eapply allowed_categories_In. exact Hc. }
  destruct (Nat.eqb_spec (List.length possible) (List.length categories)) as [El|El];
    cbn [negb].
  - assert (Hsup : List.incl categories possible).
    { apply List.NoDup_length_incl; [exact Hpnd | lia | exact Hsub]. }
    assert (Hok : forall c, In c categories ->
               In c values \/ In c (Categorical.get_allowed_categories categories allowed)).
    { intros c Hc. apply Hin. apply Hsup. exact Hc. }
    split; split; try discriminate; auto. intros H. exfalso. apply H. auto.
  - assert (Hno : ~ forall c, In c categories ->
               In c values \/ In c (Categorical.get_allowed_categories categories allowed)).
    { intros H. apply El. apply Nat.le_antisymm.
      - apply List.NoDup_incl_length; assumption.
      - apply List.NoDup_incl_length; [exact Hnd|].
        intros c Hc. apply Hin. apply H. exact Hc. }
    split; split; try discriminate; try reflexivity.
    + intros [_ H]. contradiction.
    + intros _ [_ H]. contradiction.
Qed.

Lemma categorical_validate_experimental_strict_witness :
  Categorical.validate_experimental ["a"; "b"; "c"] [true; false; false] ["b"; "c"; "b"] true
  = Ok ["b"; "c"; "b"].
Proof.
  assert (Hnd : List.NoDup ["a"; "b"; "c"]).
  { repeat constructor; simpl; intuition discriminate. }
  apply (categorical_validate_experimental_strict ["a"; "b"; "c"] [true; false; false]
           ["b"; "c"; "b"] Hnd).
  split.
  - simpl. intuition.
  - simpl. intuition.
Defined.

(** ** Ordinal encoding *)

Lemma positions_from_notin (start : nat) (v : string) (index : list string) :
  ~ In v index -> Encodings.positions_from start v index = [].
Proof.
  revert start. induction index as [|l index IH]; intros start H; simpl; [reflexivity|].
  destruct (String.eqb_spec l v) as [->|NE]; [exfalso; apply H; left; reflexivity|].
  apply IH. intros Hin. apply H. right. exact Hin.
Qed.

Lemma positions_from_NoDup (start : nat) (v : string) (index : list string) :
  List.NoDup index -> In v index ->
  exists i, Encodings.positions_from start v index = [start + i] /\ index !! i = Some v.
Proof.
  intros Hnd. revert start. induction Hnd as [|l index Hl Hnd IH]; intros start Hin;
    [destruct Hin|]. simpl.
  destruct (String.eqb_spec l v) as [->|NE].
  - exists 0. rewrite positions_from_notin by exact Hl.
    rewrite Nat.add_0_r. split; reflexivity.
  - destruct Hin as [E|Hin]; [contradiction|].
    destruct (IH (S start) Hin) as (i & E & Hi). exists (S i).
    rewrite E. split; [f_equal; lia | exact Hi].
Qed.

Lemma np_take_of_nat {A} (arr : list A) (i : nat) (x : A) :
  arr !! i = Some x -> Encodings.np_take arr (Z.of_nat i) = Ok x.
Proof.
  intros H. unfold Encodings.np_take.
  pose proof (lookup_lt_Some _ _ _ H) as Hlt.
  destruct (Z.ltb_spec (Z.of_nat i) 0) as [Hneg|_]; [lia|].
  destruct (Z.leb_spec 0 (Z.of_nat i)) as [_|Hneg]; [|lia].
  destruct (Z.ltb_spec (Z.of_nat i) (Z.of_nat (List.length arr))) as [_|Hge]; [|lia].
  cbn [andb]. rewrite Nat2Z.id, H. reflexivity.
Qed.

Lemma to_ordinal_rows (categories values : list string) :
  List.NoDup categories -> (forall v, In v values -> In v categories) ->
  exists idx,
    map_result (fun v => match Encodings.positions_from 0 v categories with
                         | [] => Raise KeyError
                         | ps => Ok ps
                         end) values = Ok (List.map (fun i => [i]) idx) /\
    Forall2 (fun v i => categories !! i = Some v) values idx.
Proof.
  intros Hnd. induction values as [|v values IH]; intros Hin.
  - exists []. split; [reflexivity|constructor].
  - destruct IH as (idx & E & HF); [intros w Hw; apply Hin; right; exact Hw|].
    destruct (positions_from_NoDup 0 v categories Hnd) as (i & Ei & Hi);
      [apply Hin; left; reflexivity|].
    exists (i :: idx). cbn [map_result]. rewrite Ei. cbn [mbind result_bind].
    rewrite E. cbn [mbind result_bind]. split; [reflexivity|].
    constructor; assumption.
Qed.

Lemma concat_singletons {A} (l : list A) : List.concat (List.map (fun i => [i]) l) = l.
Proof. induction l as [|x l IH]; simpl; [reflexivity|]. rewrite IH. reflexivity. Qed.

(** X7. The ordinal encoding of a categorical input with distinct
    categories round-trips: a series whose values are all categories is
    encoded by the positions of its values among the categories, and
    decoding these codes gives the series back.  A series with a value that
    is no category is refused by the encoder with a [KeyError]. *)
Theorem ordinal_encoding_roundtrip (categories values : list string) :
  List.NoDup categories ->
  ((forall v, In v values -> In v categories) ->
   exists codes,
     Encodings.to_ordinal_encoding categories values = Ok codes /\
     Forall2 (fun v c => (0 <= c)%Z /\ categories !! Z.to_nat c = Some v) values codes /\
     Encodings.from_ordinal_encoding categories codes = Ok values) /\
  ((exists v, In v values /\ ~ In v categories) ->
   Encodings.to_ordinal_encoding categories values = Raise KeyError).
Proof.
  intros Hnd. split.
  - intros Hin. destruct (to_ordinal_rows categories values Hnd Hin) as (idx & E & HF).
    exists (List.map Z.of_nat idx). unfold Encodings.to_ordinal_encoding.
    rewrite E. cbn [mbind result_bind]. rewrite concat_singletons.
    rewrite <- (Forall2_length _ _ _ HF), Nat.eqb_refl.
    split; [reflexivity|]. split.
    + clear E Hin. induction HF as [|v i values idx Hvi HF IH]; simpl; [constructor|].
      constructor; [|exact IH]. rewrite Nat2Z.id. split; [lia | exact Hvi].
    + unfold Encodings.from_ordinal_encoding. clear E Hin.
      induction HF as [|v i values idx Hvi HF IH]; [reflexivity|].
      cbn [List.map map_result]. rewrite (np_take_of_nat categories i v Hvi).
      cbn [mbind result_bind]. rewrite IH. reflexivity.
  - intros (v & Hv & Hnot). unfold Encodings.to_ordinal_encoding.
    assert (E : map_result
                  (fun v => match Encodings.positions_from 0 v categories with
                            | [] => Raise KeyError
                            | ps => Ok ps
                            end) values = Raise KeyError).
    { clear Hnd. induction values as [|w values IH]; [destruct Hv|].
      cbn [map_result].
      destruct (Encodings.positions_from 0 w categories) as [|p ps] eqn:Ew;
        [reflexivity|]. cbn [mbind result_bind].
      destruct Hv as [->|Hv].
      { rewrite positions_from_notin in Ew by exact Hnot. discriminate. }
      rewrite (IH Hv). reflexivity. }
    rewrite E. reflexivity.
Qed.

Lemma ordinal_encoding_roundtrip_witness :
  exists codes,
    Encodings.to_ordinal_encoding ["a"; "b"; "c"] ["c"; "a"; "c"] = Ok codes /\
    Encodings.from_ordinal_encoding ["a"; "b"; "c"] codes = Ok ["c"; "a"; "c"].
Proof.
  assert (Hnd : List.NoDup ["a"; "b"; "c"]).
  { repeat constructor; simpl; intuition discriminate. }
  destruct (ordinal_encoding_roundtrip ["a"; "b"; "c"] ["c"; "a"; "c"] Hnd) as [H _].
  destruct H as (codes & E1 & _ & E2); [simpl; intuition|].
  exists codes. split; assumption.
Defined.

(** ** Dummy encoding *)

Lemma find_app_l {A} (f : A -> bool) (l l' : list A) (x : A) :
  List.find f l = Some x -> List.find f (l ++ l') = Some x.
Proof.
  induction l as [|y l IH]; simpl; [discriminate|].
  destruct (f y); [auto | exact IH].
Qed.

Lemma find_app_r {A} (f : A -> bool) (l l' : list A) :
  List.find f l = None -> List.find f (l ++ l') = List.find f l'.
Proof.
  induction l as [|y l IH]; simpl; [reflexivity|].
  destruct (f y); [discriminate | exact IH].
Qed.

Lemma find_dict_has_false {V} (d : list (string * V)) (k : string) :
  Pandas.dict_has d k = false -> List.find (fun kv => String.eqb (fst kv) k) d = None.
Proof.
  unfold Pandas.dict_has. induction d as [|[k' v] d IH]; simpl; [reflexivity|].
  intros H. apply orb_false_iff in H. destruct H as [-> H]. apply IH. exact H.
Qed.

Lemma find_onehot_column (key : string) (g : string -> list Q) (cats : list string)
    (c : string) :
  In c cats ->
  List.find (fun kv => String.eqb (fst kv) (OneHot.column_name key c))
    (List.map (fun c => (OneHot.column_name key c, g c)) cats)
  = Some (OneHot.column_name key c, g c).
Proof.
  induction cats as [|c0 cats IH]; intros Hin; [destruct Hin|]. simpl.
  destruct (String.eqb_spec (OneHot.column_name key c0) (OneHot.column_name key c))
    as [E|NE].
  - apply column_name_inj in E. subst. reflexivity.
  - destruct Hin as [->|Hin]; [congruence|]. apply IH. exact Hin.
Qed.

Lemma indicator_sum (v : string) (cats : list string) (a : Z) :
  fold_left Qplus (List.map (fun c => if String.eqb v c then 1%Q else 0%Q) cats)
    (inject_Z a)
  = inject_Z (a + Z.of_nat (List.count_occ string_dec cats v)).
Proof.
  revert a. induction cats as [|c cats IH]; intros a; simpl.
  - f_equal. lia.
  - destruct (String.eqb_spec v c) as [->|NE].
    + destruct (string_dec c c) as [_|N]; [|congruence].
      replace (inject_Z a + 1)%Q with (inject_Z (a + 1)).
      * rewrite IH. f_equal. lia.
      * unfold Qplus, inject_Z. simpl. f_equal. lia.
    + destruct (string_dec c v) as [E|_]; [congruence|].
      replace (inject_Z a + 0)%Q with (inject_Z a).
      * apply IH.
      * unfold Qplus, inject_Z. simpl. f_equal. lia.
Qed.

(** the entry of the first category's column in the decoded frame *)
Lemma dummy_first_entry (v : string) (rest : list string) :
  List.NoDup rest ->
  (1 - fold_left Qplus (List.map (fun c => if String.eqb v c then 1%Q else 0%Q) rest) 0)%Q
  = if Np.contains rest v then 0%Q else 1%Q.
Proof.
  intros Hnd. pose proof (indicator_sum v rest 0) as Hs.
  change (inject_Z 0) with 0%Q in Hs. rewrite Hs. clear Hs.
  destruct (Np.contains rest v) eqn:E.
  - apply contains_In in E.
    assert (H1 : List.count_occ string_dec rest v = 1).
    { pose proof (proj1 (List.NoDup_count_occ string_dec rest) Hnd v) as Hle.
      pose proof (proj1 (List.count_occ_In string_dec rest v) E). lia. }
    rewrite H1. reflexivity.
  - assert (H0 : List.count_occ string_dec rest v = 0).
    { apply List.count_occ_not_In. intros H. apply contains_In in H. congruence. }
    rewrite H0. reflexivity.
Qed.

(** X8. The dummy encoding round-trips under the conditions of the one-hot
    encoding: for a key and categories without the separator, distinct
    categories and a non-empty series of categories, decoding the dummy
    columns (all categories but the first) gives the series back; the column
    of the first category is rebuilt as one minus the sum of the others. *)
Theorem dummy_roundtrip_without_separator (key : string) (categories values : list string) :
  OneHot.has_sep key = false ->
  (forall c, In c categories -> OneHot.has_sep c = false) ->
  List.NoDup categories ->
  values <> [] ->
  (forall v, In v values -> In v categories) ->
  Encodings.from_dummy_encoding key categories
    (Encodings.to_dummy_encoding key categories values) = Ok values.
Proof.
  intros Hkey Hcats Hnd Hne Hvals.
  destruct categories as [|c0 rest].
  { destruct values as [|v vs]; [congruence|]. destruct (Hvals v (or_introl eq_refl)). }
  pose proof (List.NoDup_cons_iff c0 rest) as Hc. apply Hc in Hnd as [Hc0 Hrest]. clear Hc.
  unfold Encodings.to_dummy_encoding. cbn [List.tl].
  pose proof (onehot_columns key (fun c => OneHot.indicator c values) rest [] Hrest) as Hcols.
  simpl in Hcols. rewrite Hcols. clear Hcols.
  set (cols := List.map (fun c => (OneHot.column_name key c, OneHot.indicator c values)) rest).
  unfold Encodings.from_dummy_encoding. cbn [List.map List.tl].
  assert (Hall : existsb (fun c => negb (OneHot.has_column
                                          (Pandas.mkFrame (List.length values) cols) c))
                   (List.map (OneHot.column_name key) rest) = false).
  { destruct (existsb _ _) eqn:E; [|reflexivity]. exfalso.
    apply existsb_exists in E. destruct E as (name & Hin & E).
    apply in_map_iff in Hin. destruct Hin as (c & <- & Hc).
    apply negb_true_iff in E. unfold OneHot.has_column in E. cbn [Pandas.columns] in E.
    pose proof (proj2 (dict_has_columns key (fun c0 => OneHot.indicator c0 values)
                        rest c) Hc) as H. cbv beta in H. subst cols. congruence. }
  rewrite Hall. cbn [Pandas.n_rows Pandas.columns].
  assert (Hfresh : Pandas.dict_has cols (OneHot.column_name key c0) = false).
  { destruct (Pandas.dict_has cols (OneHot.column_name key c0)) eqn:E; [|reflexivity].
    subst cols. apply dict_has_columns in E. contradiction. }
  rewrite (dict_set_fresh cols _ _ Hfresh).
  set (firstcol := List.map (fun s => (1 - s)%Q)
                     (Encodings.row_sums (Pandas.mkFrame (List.length values) cols)
                        (List.map (OneHot.column_name key) rest))).
  rewrite (onehot_map_result _
             (fun i => OneHot.column_name key (List.nth i values ""))).
  - cbn [mbind result_bind].
    destruct values as [|v0 vs]; [congruence|].
    change (Nat.eqb (List.length (v0 :: vs)) 0) with false. cbv iota. f_equal.
    rewrite List.map_map.
    rewrite <- (map_nth_seq (v0 :: vs) "") at 2.
    apply List.map_ext_in. intros i Hi. apply in_seq in Hi.
    apply split_column_name; [exact Hkey|]. apply Hcats, Hvals.
    apply List.nth_In. lia.
  - intros i Hi. apply in_seq in Hi.
    set (v := List.nth i values "").
    assert (Hv : In v (c0 :: rest)) by (apply Hvals, List.nth_In; lia).
    (* the columns of the other categories *)
    assert (Hrestcol : forall c, In c rest ->
              List.nth i (OneHot.column
                            (Pandas.mkFrame (List.length values)
                               (cols ++ [(OneHot.column_name key c0, firstcol)]))
                            (OneHot.column_name key c)) 0%Q
              = if String.eqb v c then 1%Q else 0%Q).
    { intros c Hc. unfold OneHot.column. cbn [Pandas.columns].
      rewrite (find_app_l _ cols _ (OneHot.column_name key c, OneHot.indicator c values))
        by (subst cols; apply (find_onehot_column key
                                 (fun c => OneHot.indicator c values) rest c Hc)).
      cbn [snd]. unfold OneHot.indicator.
      apply (nth_map_in (fun w => if String.eqb w c then 1%Q else 0%Q) values i 0%Q ""). lia. }
    assert (Hrestcol0 : forall c, In c rest ->
              List.nth i (OneHot.column (Pandas.mkFrame (List.length values) cols)
                            (OneHot.column_name key c)) 0%Q
              = if String.eqb v c then 1%Q else 0%Q).
    { intros c Hc. unfold OneHot.column. cbn [Pandas.columns]. subst cols.
      rewrite (find_onehot_column key (fun c => OneHot.indicator c values) rest c Hc).
      cbn [snd]. unfold OneHot.indicator.
      apply (nth_map_in (fun w => if String.eqb w c then 1%Q else 0%Q) values i 0%Q ""). lia. }
    (* the column of the first category *)
    assert (Hfirst : List.nth i (OneHot.column
                            (Pandas.mkFrame (List.length values)
                               (cols ++ [(OneHot.column_name key c0, firstcol)]))
                            (OneHot.column_name key c0)) 0%Q
                     = if Np.contains rest v then 0%Q else 1%Q).
    { unfold OneHot.column. cbn [Pandas.columns].
      rewrite find_app_r by (apply find_dict_has_false; exact Hfresh).
      cbn [List.find fst]. rewrite String.eqb_refl. cbn [snd].
      subst firstcol. unfold Encodings.row_sums. cbn [Pandas.n_rows].
      rewrite List.map_map.
      rewrite (nth_map_in _ (seq 0 (List.length values)) i 0%Q 0)
        by (rewrite List.length_seq; lia).
      rewrite List.seq_nth by lia. cbn [Nat.add].
      rewrite List.map_map.
      rewrite (List.map_ext_in _ (fun c => if String.eqb v c then 1%Q else 0%Q) rest)
        by (intros c Hc; apply Hrestcol0; exact Hc).
      apply dummy_first_entry. exact Hrest. }
    cbn [OneHot.idxmax]. rewrite Hfirst, List.map_map.
    rewrite (List.map_ext_in _
               (fun c => (OneHot.column_name key c, if String.eqb v c then 1%Q else 0%Q))
               rest)
      by (intros c Hc; rewrite (Hrestcol c Hc); reflexivity).
    destruct (Np.contains rest v) eqn:Ein.
    + apply contains_In in Ein. rewrite idxmax_from_zero by exact Ein. reflexivity.
    + destruct Hv as [<-|Hv].
      * rewrite idxmax_from_one. reflexivity.
      * apply contains_In in Hv. congruence.
Qed.

Lemma no_separator_abc :
  OneHot.has_sep "cat" = false /\
  (forall c, In c ["a"; "b"; "c"] -> OneHot.has_sep c = false) /\
  List.NoDup ["a"; "b"; "c"].
Proof.
  split; [reflexivity|]. split.
  - intros c [<-|[<-|[<-|[]]]]; reflexivity.
  - repeat constructor; simpl; intuition discriminate.
Defined.

Lemma dummy_roundtrip_without_separator_witness :
  Encodings.from_dummy_encoding "cat" ["a"; "b"; "c"]
    (Encodings.to_dummy_encoding "cat" ["a"; "b"; "c"] ["c"; "a"; "b"])
  = Ok ["c"; "a"; "b"].
Proof.
  destruct no_separator_abc as (Hk & Hc & Hnd).
  apply (dummy_roundtrip_without_separator "cat" ["a"; "b"; "c"] ["c"; "a"; "b"] Hk Hc Hnd).
  - discriminate.
  - simpl. intuition.
Defined.

(** X9. The one-hot encoding round-trips where neither the key nor a
    category holds the separator: for distinct categories and a non-empty
    series of categories, decoding the encoded frame gives the series
    back. *)
Theorem onehot_roundtrip (key : string) (categories values : list string) :
  OneHot.has_sep key = false ->
  (forall c, In c categories -> OneHot.has_sep c = false) ->
  List.NoDup categories ->
  values <> [] ->
  (forall v, In v values -> In v categories) ->
  OneHot.from_onehot_encoding key categories
    (OneHot.to_onehot_encoding key categories values) = Ok values.
Proof. exact (onehot_roundtrip_without_separator key categories values). Qed.

Lemma onehot_roundtrip_witness :
  OneHot.from_onehot_encoding "cat" ["a"; "b"; "c"]
    (OneHot.to_onehot_encoding "cat" ["a"; "b"; "c"] ["c"; "a"; "b"])
  = Ok ["c"; "a"; "b"].
Proof.
  destruct no_separator_abc as (Hk & Hc & Hnd).
  apply (onehot_roundtrip "cat" ["a"; "b"; "c"] ["c"; "a"; "b"] Hk Hc Hnd).
  - discriminate.
  - simpl. intuition.
Defined.

(** ** Combinations of categories *)

Lemma product_length {A} (lists : list (list A)) :
  List.length (Transform.product lists)
  = fold_right Nat.mul 1 (List.map (@List.length A) lists).
Proof.
  induction lists as [|l lists IH]; [reflexivity|].
  cbn [Transform.product List.map fold_right]. rewrite <- IH. clear IH.
  induction l as [|x l IHl]; [reflexivity|].
  cbn [List.flat_map]. rewrite List.length_app, List.length_map, IHl. simpl. reflexivity.
Qed.

Lemma product_members {A} (lists : list (list A)) (c : list A) :
  In c (Transform.product lists) <-> Forall2 (fun x l => In x l) c lists.
Proof.
  revert c. induction lists as [|l lists IH]; intros c.
  - simpl. split.
    + intros [<-|[]]. constructor.
    + intros H. inversion H. left. reflexivity.
  - cbn [Transform.product]. rewrite List.in_flat_map. split.
    + intros (x & Hx & Hc). apply List.in_map_iff in Hc. destruct Hc as (c' & <- & Hc').
      constructor; [exact Hx | apply IH; exact Hc'].
    + intros H. inversion H as [|x l' c' lists' Hx Hc']; subst.
      exists x. split; [exact Hx|]. apply List.in_map_iff. exists c'.
      split; [reflexivity | apply IH; exact Hc'].
Qed.

(** X10. [get_categorical_combinations] returns one combination for every
    choice of an allowed category per categorical input that is not fixed:
    their number is the product of the numbers of allowed categories, and
    every combination pairs the keys of these inputs, in the order of
    [get], with one of their allowed categories each.  Without such an
    input there is exactly one combination, the empty one. *)
Theorem get_categorical_combinations_spec (include : Features.Feature -> bool)
    (features : list Features.Feature) :
  let free :=
    List.filter (fun f => Transform.is_categorical f && negb (TorchTools.is_fixed f))
      (Features.get include features) in
  let allowed_of f :=
    match Features.kind f with
    | Features.CategoricalInput categories allowed =>
        Categorical.get_allowed_categories categories allowed
    | _ => []
    end in
  let combinations := Transform.get_categorical_combinations include features in
  List.length combinations
    = fold_right Nat.mul 1 (List.map (fun f => List.length (allowed_of f)) free) /\
  (forall c, In c combinations <->
     List.map fst c = List.map Features.key free /\
     Forall2 (fun kc f => In (snd kc) (allowed_of f)) c free) /\
  (free = [] -> combinations = [[]]).
Proof.
  cbv zeta. unfold Transform.get_categorical_combinations.
  set (free := List.filter _ (Features.get include features)).
  set (allowed_of := fun f : Features.Feature =>
         match Features.kind f with
         | Features.CategoricalInput categories allowed =>
             Categorical.get_allowed_categories categories allowed
         | _ => []
         end).
  assert (Hmap : List.map
            (fun f : Features.Feature =>
               match Features.kind f with
               | Features.CategoricalInput categories allowed =>
                   List.map (pair (Features.key f))
                     (Categorical.get_allowed_categories categories allowed)
               | _ => []
               end) free
          = List.map (fun f => List.map (pair (Features.key f)) (allowed_of f)) free).
  { apply List.map_ext. intros f. unfold allowed_of.
    destruct (Features.kind f); reflexivity. }
  rewrite Hmap. clear Hmap. split; [|split].
  - rewrite product_length, List.map_map. f_equal. apply List.map_ext.
    intros f. apply List.length_map.
  - intros c. rewrite product_members. clear. revert c.
    induction free as [|f free IH]; intros c.
    + simpl. split.
      * intros H. inversion H. split; [reflexivity|constructor].
      * intros [_ H]. inversion H. constructor.
    + cbn [List.map]. split.
      * intros H. inversion H as [|x l c' ls Hx Hc']; subst.
        apply IH in Hc'. destruct Hc' as [Hk Hf].
        apply List.in_map_iff in Hx. destruct Hx as (cat & <- & Hcat).
        split; [simpl; f_equal; exact Hk|]. constructor; [exact Hcat | exact Hf].
      * intros [Hk Hf]. inversion Hf as [|[k cat] f' c' free' Hcat Hf']; subst.
        simpl in Hk. injection Hk as -> Hk.
        constructor.
        -- apply List.in_map_iff. exists cat. split; [reflexivity|exact Hcat].
        -- apply IH. split; assumption.
  - intros ->. reflexivity.
Qed.

(** ** The columns of the transformed inputs *)

Lemma some_key_outside_false (keys names : list string) :
  Transform.some_key_outside keys names = false <-> (forall k, In k keys -> In k names).
Proof.
  unfold Transform.some_key_outside. split.
  - intros H k Hk. destruct (Np.contains names k) eqn:E; [apply contains_In; exact E|].
    assert (Hex : existsb (fun k => negb (Np.contains names k)) keys = true).
    { apply existsb_exists. exists k. split; [exact Hk|]. rewrite E. reflexivity. }
    congruence.
  - intros H. destruct (existsb _ keys) eqn:E; [|reflexivity].
    apply existsb_exists in E. destruct E as (k & Hk & E).
    apply negb_true_iff in E. apply H, contains_In in Hk. congruence.
Qed.

(** What the validation of the transform specs establishes. *)
Lemma validate_transform_specs_ok (features : list Features.Feature)
    (specs : gmap string Transform.CategoricalEncodingEnum) :
  Transform._validate_transform_specs features specs = Ok specs ->
  forall k v, specs !! k = Some v ->
    In k (Features.get_keys Transform.is_categorical features) /\
    v <> Transform.DESCRIPTOR.
Proof.
  unfold Transform._validate_transform_specs.
  destruct (Transform.some_key_outside (List.map fst (map_to_list specs))
              (Features.get_keys Transform.is_categorical features)) eqn:E1;
    [discriminate|].
  destruct (Transform.some_key_outside _
              (Features.get_keys Transform.is_categorical_descriptor features)) eqn:E2;
    [discriminate|].
  intros _ k v Hkv.
  pose proof (proj1 (some_key_outside_false _ _) E1) as H1.
  pose proof (proj1 (some_key_outside_false _ _) E2) as H2.
  assert (Hin : In (k, v) (map_to_list specs)).
  { apply list_elem_of_In. apply elem_of_map_to_list. exact Hkv. }
  split.
  - apply H1. apply List.in_map_iff. exists (k, v). split; [reflexivity|exact Hin].
  - intros ->.
    assert (Hd : In k (Features.get_keys Transform.is_categorical_descriptor features)).
    { apply H2. apply List.in_map_iff. exists (k, Transform.DESCRIPTOR).
      split; [reflexivity|]. apply List.filter_In. split; [exact Hin|].
      apply bool_decide_eq_true. reflexivity. }
    unfold Features.get_keys, Features.get in Hd.
    apply List.in_map_iff in Hd. destruct Hd as (f & _ & Hf).
    eapply Permutation_in in Hf; [|symmetry; apply sorted_perm].
    apply List.filter_In in Hf. destruct Hf as [_ Hf]. discriminate.
Qed.

Lemma index_range_app (a b : nat) (c : Z) :
  Transform.index_range (Z.of_nat a) c
    ++ Transform.index_range (Z.of_nat b) (c + Z.of_nat a)
  = Transform.index_range (Z.of_nat (a + b)) c.
Proof.
  unfold Transform.index_range. rewrite !Nat2Z.id.
  rewrite List.seq_app, List.map_app. f_equal.
  generalize 0 as s. induction b as [|b IH]; intros s; [reflexivity|].
  simpl. f_equal; [lia|]. apply (IH (S s)).
Qed.

Lemma dict_has_false_iff {V} (d : list (string * V)) (k : string) :
  Pandas.dict_has d k = false <-> ~ In k (List.map fst d).
Proof.
  unfold Pandas.dict_has. induction d as [|[k' v] d IH]; simpl.
  - split; [intros _ []|reflexivity].
  - rewrite orb_false_iff, IH. split.
    + intros [H1 H2] [E|H]; [|contradiction]. subst. rewrite String.eqb_refl in H1.
      discriminate.
    + intros H. split.
      * destruct (String.eqb_spec k' k) as [E|_]; [exfalso; apply H; left; exact E|].
        reflexivity.
      * intros Hin. apply H. right. exact Hin.
Qed.

Lemma NoDup_key_inj (l : list Features.Feature) (a b : Features.Feature) :
  List.NoDup (List.map Features.key l) -> In a l -> In b l ->
  Features.key a = Features.key b -> a = b.
Proof.
  induction l as [|x l IH]; intros Hnd Ha Hb E; [destruct Ha|].
  simpl in Hnd. apply List.NoDup_cons_iff in Hnd. destruct Hnd as [Hx Hnd].
  destruct Ha as [->|Ha], Hb as [->|Hb].
  - reflexivity.
  - exfalso. apply Hx. rewrite E. apply List.in_map. exact Hb.
  - exfalso. apply Hx. rewrite <- E. apply List.in_map. exact Ha.
  - apply IH; assumption.
Qed.

(** An input the specs treat consistently: an encoding is given to
    categorical inputs only, and it is not [DESCRIPTOR]; categorical inputs
    have a category. *)
Lemma transform_info_step_ok (specs : gmap string Transform.CategoricalEncodingEnum)
    (idx : list (string * list Z)) (names : list (string * list string)) (c : Z)
    (f : Features.Feature) :
  (forall v, specs !! Features.key f = Some v ->
     Transform.is_categorical f = true /\ v <> Transform.DESCRIPTOR) ->
  (forall cs al, Features.kind f = Features.CategoricalInput cs al -> cs <> []) ->
  Pandas.dict_has idx (Features.key f) = false ->
  Pandas.dict_has names (Features.key f) = false ->
  exists nm,
    List.length nm = Transform.width specs f /\
    Transform.transform_info_step specs (idx, names, c) f
    = Ok (idx ++ [(Features.key f,
                   Transform.index_range (Z.of_nat (Transform.width specs f)) c)],
          names ++ [(Features.key f, nm)],
          (c + Z.of_nat (Transform.width specs f))%Z).
Proof.
  intros Hvalid Hcats Hi Hn.
  unfold Transform.transform_info_step, Transform.width.
  destruct (specs !! Features.key f) as [v|] eqn:Es.
  - destruct (Hvalid v eq_refl) as [Hcat Hv].
    unfold Transform.is_categorical in Hcat.
    destruct (Features.kind f) as [b|vs|cs al] eqn:Ek; try discriminate.
    destruct v; try congruence.
    + eexists. split;
        [|rewrite (dict_set_fresh idx _ _ Hi), (dict_set_fresh names _ _ Hn); reflexivity].
      apply List.length_map.
    + eexists. split;
        [|rewrite (dict_set_fresh idx _ _ Hi), (dict_set_fresh names _ _ Hn); reflexivity].
      reflexivity.
    + assert (Hne : cs <> []) by (eapply Hcats; reflexivity).
      assert (Hz : (Z.of_nat (List.length cs) - 1)%Z = Z.of_nat (List.length cs - 1)).
      { destruct cs; [congruence|]. simpl List.length. lia. }
      rewrite Hz. eexists. split;
        [|rewrite (dict_set_fresh idx _ _ Hi), (dict_set_fresh names _ _ Hn); reflexivity].
      rewrite List.length_map. destruct cs; [congruence|]. simpl. lia.
  - eexists. split;
      [|rewrite (dict_set_fresh idx _ _ Hi), (dict_set_fresh names _ _ Hn);
        destruct (Features.kind f); reflexivity].
    destruct (Features.kind f); reflexivity.
Qed.

Lemma transform_info_fold (specs : gmap string Transform.CategoricalEncodingEnum)
    (L : list Features.Feature) :
  forall (idx : list (string * list Z)) (names : list (string * list string)) (c : Z),
  (forall f, In f L ->
     (forall v, specs !! Features.key f = Some v ->
        Transform.is_categorical f = true /\ v <> Transform.DESCRIPTOR) /\
     (forall cs al, Features.kind f = Features.CategoricalInput cs al -> cs <> [])) ->
  List.NoDup (List.map fst idx ++ List.map Features.key L) ->
  List.map fst names = List.map fst idx ->
  Forall2 (fun i n => List.length (snd i) = List.length (snd n)) idx names ->
  exists idx' names',
    fold_result (Transform.transform_info_step specs) L (idx, names, c)
    = Ok (idx', names', (c + Z.of_nat (list_sum (List.map (Transform.width specs) L)))%Z) /\
    List.map fst idx' = List.map fst idx ++ List.map Features.key L /\
    List.map fst names' = List.map fst idx' /\
    List.concat (List.map snd idx')
    = List.concat (List.map snd idx)
        ++ Transform.index_range
             (Z.of_nat (list_sum (List.map (Transform.width specs) L))) c /\
    Forall2 (fun i n => List.length (snd i) = List.length (snd n)) idx' names'.
Proof.
  induction L as [|f L IH]; intros idx names c Hvalid Hnd Hnames Hlen.
  - exists idx, names. cbn [fold_result List.map list_sum].
    rewrite Z.add_0_r, !app_nil_r. repeat split; auto.
  - assert (Hfresh : ~ In (Features.key f) (List.map fst idx)).
    { intros Hin. simpl in Hnd.
      apply List.NoDup_remove_2 in Hnd. apply Hnd. apply List.in_or_app. left. exact Hin. }
    destruct (Hvalid f (or_introl eq_refl)) as [Hv Hc].
    destruct (transform_info_step_ok specs idx names c f Hv Hc) as (nm & Hnm & Estep).
    { apply dict_has_false_iff. exact Hfresh. }
    { apply dict_has_false_iff. rewrite Hnames. exact Hfresh. }
    cbn [fold_result]. rewrite Estep. cbn [mbind result_bind].
    edestruct (IH (idx ++ [(Features.key f,
                           Transform.index_range (Z.of_nat (Transform.width specs f)) c)])
                 (names ++ [(Features.key f, nm)])
                 (c + Z.of_nat (Transform.width specs f))%Z)
      as (idx' & names' & Efold & Hk & Hk' & Hcat & Hlen').
    + intros g Hg. apply Hvalid. right. exact Hg.
    + rewrite List.map_app. cbn [List.map fst]. rewrite <- app_assoc. exact Hnd.
    + rewrite !List.map_app, Hnames. reflexivity.
    + apply Forall2_app; [exact Hlen|]. constructor; [|constructor].
      cbn [snd]. unfold Transform.index_range.
      rewrite List.length_map, List.length_seq, Nat2Z.id. symmetry. exact Hnm.
    + exists idx', names'.
      replace (list_sum (List.map (Transform.width specs) (f :: L)))
        with (Transform.width specs f + list_sum (List.map (Transform.width specs) L))
        by reflexivity.
      cbn [List.map].
      rewrite Nat2Z.inj_add, Z.add_assoc. split; [exact Efold|].
      split; [rewrite Hk, List.map_app, <- app_assoc; reflexivity|].
      split; [exact Hk'|]. split; [|exact Hlen'].
      rewrite Hcat, List.map_app, List.concat_app. cbn [List.map List.concat snd].
      rewrite app_nil_r, <- app_assoc. f_equal.
      rewrite <- Nat2Z.inj_add. apply index_range_app.
Qed.

Lemma index_range_zero (n : nat) :
  Transform.index_range (Z.of_nat n) 0 = List.map Z.of_nat (seq 0 n).
Proof.
  unfold Transform.index_range. rewrite Nat2Z.id. apply List.map_ext.
  intros i. lia.
Qed.

(** The inputs in the order of [get], and what the validation and distinct
    keys give for each of them. *)
Lemma validated_inputs (features : list Features.Feature)
    (specs : gmap string Transform.CategoricalEncodingEnum) :
  List.NoDup (List.map Features.key features) ->
  Transform._validate_transform_specs features specs = Ok specs ->
  forall f, In f (Features.get Features.any_feature features) ->
    forall v, specs !! Features.key f = Some v ->
      Transform.is_categorical f = true /\ v <> Transform.DESCRIPTOR.
Proof.
  intros Hnd Hval f Hf v Hv.
  destruct (validate_transform_specs_ok features specs Hval _ _ Hv) as [Hk Hd].
  split; [|exact Hd].
  unfold Features.get_keys, Features.get in Hk.
  apply List.in_map_iff in Hk. destruct Hk as (g & Hkey & Hg).
  eapply Permutation_in in Hg; [|symmetry; apply sorted_perm].
  apply List.filter_In in Hg. destruct Hg as [Hg Hcat].
  unfold Features.get in Hf. rewrite filter_any_feature in Hf.
  eapply Permutation_in in Hf; [|symmetry; apply sorted_perm].
  rewrite <- (NoDup_key_inj features g f Hnd Hg Hf Hkey). exact Hcat.
Qed.

Lemma get_transform_info_total (features : list Features.Feature)
    (specs : gmap string Transform.CategoricalEncodingEnum) :
  List.NoDup (List.map Features.key features) ->
  (forall f cs al, In f features ->
     Features.kind f = Features.CategoricalInput cs al -> cs <> []) ->
  Transform._validate_transform_specs features specs = Ok specs ->
  let L := Features.get Features.any_feature features in
  let N := list_sum (List.map (Transform.width specs) L) in
  exists idx names,
    Transform._get_transform_info features specs = Ok (idx, names) /\
    List.map fst idx = List.map Features.key L /\
    List.map fst names = List.map Features.key L /\
    List.concat (List.map snd idx) = List.map Z.of_nat (seq 0 N) /\
    Forall2 (fun i n => List.length (snd i) = List.length (snd n)) idx names.
Proof.
  intros Hnd Hcats Hval L N.
  assert (HL : Permutation features L).
  { unfold L, Features.get. rewrite filter_any_feature. apply sorted_perm. }
  destruct (transform_info_fold specs L [] [] 0%Z) as (idx & names & E & Hk & Hk' & Hc & Hl).
  - intros f Hf. split.
    + apply (validated_inputs features specs Hnd Hval f Hf).
    + intros cs al. apply Hcats. eapply Permutation_in; [symmetry; exact HL | exact Hf].
  - simpl. eapply Permutation_NoDup; [|exact Hnd]. apply Permutation_map. exact HL.
  - reflexivity.
  - constructor.
  - exists idx, names. unfold Transform._get_transform_info. rewrite Hval.
    cbn [mbind result_bind]. fold L. rewrite E. cbn [mbind result_bind].
    split; [reflexivity|]. split; [exact Hk|]. split; [rewrite Hk'; exact Hk|].
    split; [|exact Hl]. rewrite Hc. cbn [List.map List.concat app].
    apply index_range_zero.
Qed.

(** X11. For inputs with distinct keys whose categorical inputs have a
    category, and transform specs that pass the validation,
    [_get_transform_info] returns without a failed assertion and hands out
    the column indices without gaps: both dictionaries list the keys in the
    order of [get], the index tuples put one after the other are
    [0, 1, ..., N - 1], and every input has as many transformed names as
    indices. *)
Theorem get_transform_info_contiguous (features : list Features.Feature)
    (specs : gmap string Transform.CategoricalEncodingEnum) :
  List.NoDup (List.map Features.key features) ->
  (forall f cs al, In f features ->
     Features.kind f = Features.CategoricalInput cs al -> cs <> []) ->
  Transform._validate_transform_specs features specs = Ok specs ->
  exists idx names N,
    Transform._get_transform_info features specs = Ok (idx, names) /\
    List.map fst idx = Features.get_keys Features.any_feature features /\
    List.map fst names = Features.get_keys Features.any_feature features /\
    List.concat (List.map snd idx) = List.map Z.of_nat (seq 0 N) /\
    Forall2 (fun i n => List.length (snd i) = List.length (snd n)) idx names.
Proof.
  intros Hnd Hcats Hval.
  destruct (get_transform_info_total features specs Hnd Hcats Hval)
    as (idx & names & E & Hk & Hk' & Hc & Hl).
  eexists idx, names, _. split; [exact E|]. split; [exact Hk|]. split; [exact Hk'|].
  split; [exact Hc | exact Hl].
Qed.

Lemma get_transform_info_contiguous_witness :
  exists idx names N,
    Transform._get_transform_info Examples2.mixed_inputs Examples2.one_hot_c
      = Ok (idx, names) /\
    List.map fst idx = ["x"; "d"; "c"] /\
    List.concat (List.map snd idx) = List.map Z.of_nat (seq 0 N).
Proof.
  destruct (get_transform_info_contiguous Examples2.mixed_inputs Examples2.one_hot_c)
    as (idx & names & N & E & Hk & _ & Hc & _).
  - repeat constructor; simpl; intuition discriminate.
  - intros f cs al [<-|[<-|[<-|[]]]]; simpl; intros [= <- <-]; discriminate.
  - vm_compute. reflexivity.
  - exists idx, names, N. split; [exact E|]. split; [exact Hk | exact Hc].
Defined.

Lemma bounds_fold (Experiments : Type)
    (get_real_feature_bounds : Features.Feature -> Experiments -> result (Q * Q))
    (specs : gmap string Transform.CategoricalEncodingEnum)
    (experiments : option Experiments) (L : list Features.Feature) :
  forall lower upper lower' upper',
  fold_result (Transform.bounds_step Experiments get_real_feature_bounds specs experiments)
    L (lower, upper) = Ok (lower', upper') ->
  List.length lower' = List.length lower + list_sum (List.map (Transform.width specs) L) /\
  List.length upper' = List.length upper + list_sum (List.map (Transform.width specs) L).
Proof.
  induction L as [|f L IH]; intros lower upper lower' upper' H.
  - simpl in H. injection H as <- <-. simpl. lia.
  - cbn [fold_result] in H.
    destruct (Transform.bounds_step _ _ specs experiments (lower, upper) f)
      as [[lo up]|e] eqn:Es; [|discriminate].
    cbn [mbind result_bind] in H. apply IH in H. destruct H as [H1 H2].
    replace (list_sum (List.map (Transform.width specs) (f :: L)))
      with (Transform.width specs f + list_sum (List.map (Transform.width specs) L))
      by reflexivity.
    assert (Hstep : List.length lo = List.length lower + Transform.width specs f /\
                    List.length up = List.length upper + Transform.width specs f).
    { clear H1 H2 IH. unfold Transform.bounds_step, Transform.width in *.
      destruct (Features.kind f) as [b|vs|cs al].
      - assert (Hw : match specs !! Features.key f with
                     | Some Transform.ONE_HOT | Some Transform.DUMMY | _ => 1
                     end = 1)
          by (destruct (specs !! Features.key f) as [[]|]; reflexivity).
        rewrite Hw. destruct experiments as [e|].
        + destruct (get_real_feature_bounds _ e) as [[lb ub]|]; [|discriminate].
          injection Es as <- <-. rewrite !List.length_app. simpl. lia.
        + destruct (Numerical.lower_bound _) as [l|]; [|discriminate].
          destruct (Numerical.upper_bound _) as [u|]; [|discriminate].
          injection Es as <- <-. rewrite !List.length_app. simpl. lia.
      - assert (Hw : match specs !! Features.key f with
                     | Some Transform.ONE_HOT | Some Transform.DUMMY | _ => 1
                     end = 1)
          by (destruct (specs !! Features.key f) as [[]|]; reflexivity).
        rewrite Hw. destruct experiments as [e|].
        + destruct (get_real_feature_bounds _ e) as [[lb ub]|]; [|discriminate].
          injection Es as <- <-. rewrite !List.length_app. simpl. lia.
        + destruct (Numerical.lower_bound _) as [l|]; [|discriminate].
          destruct (Numerical.upper_bound _) as [u|]; [|discriminate].
          injection Es as <- <-. rewrite !List.length_app. simpl. lia.
      - destruct (specs !! Features.key f) as [[]|]; try discriminate.
        + destruct experiments as [e|].
          * injection Es as <- <-. rewrite !List.length_app, !List.length_map. lia.
          * destruct (Transform.allowed_upper cs al) as [u|] eqn:Eu; [|discriminate].
            injection Es as <- <-. rewrite !List.length_app, List.length_map.
            unfold Transform.allowed_upper in Eu.
            apply polytope_map_result_length in Eu. rewrite List.length_seq in Eu. lia.
        + injection Es as <- <-. rewrite !List.length_app. simpl. lia.
        + injection Es as <- <-. rewrite !List.length_app, !length_replicate. lia. }
    lia.
Qed.

(** X12. [get_bounds] and [_get_transform_info] agree on the columns: for
    inputs with distinct keys whose categorical inputs have a category,
    whenever [get_bounds] returns, with or without experiments,
    [_get_transform_info] returns for the same specs, and there are as many
    lower bounds, and as many upper bounds, as column indices. *)
Theorem get_bounds_one_pair_per_column (Experiments : Type)
    (get_real_feature_bounds : Features.Feature -> Experiments -> result (Q * Q))
    (features : list Features.Feature)
    (specs : gmap string Transform.CategoricalEncodingEnum)
    (experiments : option Experiments) (lower upper : list Q) :
  List.NoDup (List.map Features.key features) ->
  (forall f cs al, In f features ->
     Features.kind f = Features.CategoricalInput cs al -> cs <> []) ->
  Transform.get_bounds Experiments get_real_feature_bounds features specs experiments
    = Ok (lower, upper) ->
  exists idx names,
    Transform._get_transform_info features specs = Ok (idx, names) /\
    List.length lower = List.length (List.concat (List.map snd idx)) /\
    List.length upper = List.length (List.concat (List.map snd idx)).
Proof.
  intros Hnd Hcats Hb. unfold Transform.get_bounds in Hb.
  assert (Hval : Transform._validate_transform_specs features specs = Ok specs).
  { unfold Transform._validate_transform_specs in *.
    destruct (Transform.some_key_outside _ _); [discriminate|].
    destruct (Transform.some_key_outside _ _); [discriminate|]. reflexivity. }
  rewrite Hval in Hb. cbn [mbind result_bind] in Hb.
  apply bounds_fold in Hb. destruct Hb as [Hlo Hup].
  destruct (get_transform_info_total features specs Hnd Hcats Hval)
    as (idx & names & E & _ & _ & Hc & _).
  exists idx, names. split; [exact E|].
  rewrite Hc, List.length_map, List.length_seq. simpl in Hlo, Hup. lia.
Qed.

Lemma get_bounds_one_pair_per_column_witness :
  Transform.get_bounds unit Examples2.no_real_bounds Examples2.mixed_inputs
    Examples2.one_hot_c None
    = Ok ([0; 1; 0; 0; 0]%Q, [1; 2; 1; 1; 0]%Q) /\
  exists idx names,
    Transform._get_transform_info Examples2.mixed_inputs Examples2.one_hot_c
      = Ok (idx, names) /\
    List.length (List.concat (List.map snd idx)) = 5.
Proof.
  assert (Hb : Transform.get_bounds unit Examples2.no_real_bounds Examples2.mixed_inputs
                 Examples2.one_hot_c None
               = Ok ([0; 1; 0; 0; 0]%Q, [1; 2; 1; 1; 0]%Q)) by (vm_compute; reflexivity).
  split; [exact Hb|].
  destruct (get_bounds_one_pair_per_column unit Examples2.no_real_bounds
              Examples2.mixed_inputs Examples2.one_hot_c None
              [0; 1; 0; 0; 0]%Q [1; 2; 1; 1; 0]%Q)
    as (idx & names & E & Hlo & _).
  - repeat constructor; simpl; intuition discriminate.
  - intros f cs al [<-|[<-|[<-|[]]]]; simpl; intros [= <- <-]; discriminate.
  - exact Hb.
  - exists idx, names. split; [exact E|]. rewrite <- Hlo. reflexivity.
Defined.

(** ** The Jacobian of a wrapped constraint *)

Lemma row_assign_spec (cs : list nat) (xs : list Q) :
  forall row : list Q,
  List.length cs = List.length xs -> List.NoDup cs ->
  (forall c, In c cs -> c < List.length row) ->
  let row' := foldl (fun r (cx : nat * Q) => <[fst cx := snd cx]> r) row (zip cs xs) in
  List.length row' = List.length row /\
  (forall j c x, cs !! j = Some c -> xs !! j = Some x -> row' !! c = Some x) /\
  (forall c, ~ In c cs -> row' !! c = row !! c).
Proof.
  revert xs. induction cs as [|c0 cs IH]; intros [|x0 xs] row Hlen Hnd Hb; try discriminate.
  - simpl. split; [reflexivity|]. split; [|reflexivity]. intros j c x H. discriminate.
  - apply List.NoDup_cons_iff in Hnd. destruct Hnd as [Hc0 Hnd].
    cbn [zip_with foldl fst snd].
    destruct (IH xs (<[c0 := x0]> row)) as (Hl & Hin & Hout).
    + simpl in Hlen. lia.
    + exact Hnd.
    + intros c Hc. rewrite length_insert. apply Hb. right. exact Hc.
    + cbv zeta. split; [rewrite Hl; apply length_insert|]. split.
      * intros [|j] c x Hj Hx; simpl in Hj, Hx.
        -- injection Hj as <-. injection Hx as <-. rewrite (Hout c0 Hc0).
           apply list_lookup_insert_eq. apply Hb. left. reflexivity.
        -- apply (Hin j c x Hj Hx).
      * intros c Hc. rewrite Hout by (intros H; apply Hc; right; exact H).
        apply list_lookup_insert_ne. intros ->. apply Hc. left. reflexivity.
Qed.

Lemma block_assign (i : nat) (cs : list nat) (xs : list Q) :
  forall (J : list (list Q)) (row : list Q),
  J !! i = Some row -> List.length cs = List.length xs ->
  foldl Jacobian.assign_at J (zip (zip (replicate (List.length cs) i) cs) xs)
  = <[i := foldl (fun r (cx : nat * Q) => <[fst cx := snd cx]> r) row (zip cs xs)]> J.
Proof.
  revert xs. induction cs as [|c0 cs IH]; intros [|x0 xs] J row HJ Hlen; try discriminate.
  - simpl. symmetry. apply list_insert_id. exact HJ.
  - cbn [List.length replicate zip_with foldl fst snd Jacobian.assign_at].
    rewrite HJ.
    rewrite (IH xs (<[i := <[c0 := x0]> row]> J) (<[c0 := x0]> row)).
    + apply list_insert_insert_eq.
    + apply list_lookup_insert_eq. eapply lookup_lt_Some. exact HJ.
    + simpl in Hlen. lia.
Qed.

Lemma zip_blocks (D : nat) (idx : list nat) (I : list nat) :
  forall G : list (list Q),
  List.length I = List.length G ->
  (forall g, In g G -> List.length g = List.length idx) ->
  zip (zip (List.flat_map (fun i => replicate (List.length idx) i) I)
           (List.flat_map (fun i => List.map (fun j => D * i + j) idx) I))
      (List.concat G)
  = List.concat
      (zip_with (fun i g => zip (zip (replicate (List.length idx) i)
                                     (List.map (fun j => D * i + j) idx)) g) I G).
Proof.
  induction I as [|i I IH]; intros [|g G] Hlen Hg; try discriminate; [reflexivity|].
  cbn [List.flat_map List.concat zip_with].
  rewrite zip_with_app by (rewrite length_replicate, List.length_map; reflexivity).
  rewrite zip_with_app.
  - f_equal. apply IH; [simpl in Hlen; lia|]. intros g' Hg'. apply Hg. right. exact Hg'.
  - rewrite length_zip_with, length_replicate, List.length_map, (Hg g (or_introl eq_refl)).
    lia.
Qed.

Lemma blocks_assign (D : nat) (idx : list nat) (I : list nat) :
  forall (G J : list (list Q)),
  List.NoDup I -> (forall i, In i I -> i < List.length J) ->
  List.length I = List.length G ->
  (forall g, In g G -> List.length g = List.length idx) ->
  let R := foldl Jacobian.assign_at J
             (List.concat
                (zip_with (fun i g => zip (zip (replicate (List.length idx) i)
                                               (List.map (fun j => D * i + j) idx)) g) I G)) in
  List.length R = List.length J /\
  (forall p i g row, I !! p = Some i -> G !! p = Some g -> J !! i = Some row ->
     R !! i = Some (foldl (fun r (cx : nat * Q) => <[fst cx := snd cx]> r) row
                      (zip (List.map (fun j => D * i + j) idx) g))) /\
  (forall i, ~ In i I -> R !! i = J !! i).
Proof.
  induction I as [|i0 I IH]; intros [|g0 G] J Hnd Hb Hlen Hg; try discriminate.
  - simpl. split; [reflexivity|]. split; [|reflexivity]. intros p i g row H. discriminate.
  - apply List.NoDup_cons_iff in Hnd. destruct Hnd as [Hi0 Hnd].
    cbn [zip_with List.concat]. cbv zeta. rewrite foldl_app.
    destruct (lookup_lt_is_Some_2 J i0 (Hb i0 (or_introl eq_refl))) as [row0 Hrow0].
    pose proof (block_assign i0 (List.map (fun j => D * i0 + j) idx) g0 J row0 Hrow0) as Hblk.
    rewrite List.length_map in Hblk. rewrite Hblk
      by (rewrite (Hg g0 (or_introl eq_refl)); reflexivity).
    clear Hblk.
    set (row0' := foldl (fun r (cx : nat * Q) => <[fst cx := snd cx]> r) row0
                    (zip (List.map (fun j => D * i0 + j) idx) g0)).
    destruct (IH G (<[i0 := row0']> J)) as (Hl & Hin & Hout).
    + exact Hnd.
    + intros i Hi. rewrite length_insert. apply Hb. right. exact Hi.
    + simpl in Hlen. lia.
    + intros g Hgin. apply Hg. right. exact Hgin.
    + cbv zeta in Hl, Hin, Hout. split; [rewrite Hl; apply length_insert|]. split.
      * intros [|p] i g row Hp Hgp Hrow; simpl in Hp, Hgp.
        -- injection Hp as <-. injection Hgp as <-. rewrite (Hout i0 Hi0).
           rewrite list_lookup_insert_eq by (eapply lookup_lt_Some; exact Hrow0).
           rewrite Hrow0 in Hrow. injection Hrow as <-. reflexivity.
        -- apply (Hin p i g row Hp Hgp).
           rewrite list_lookup_insert_ne; [exact Hrow|].
           intros ->. apply Hi0. apply list_elem_of_In. eapply list_elem_of_lookup_2. exact Hp.
      * intros i Hi. rewrite Hout by (intros H; apply Hi; right; exact H).
        apply list_lookup_insert_ne. intros ->. apply Hi. left. reflexivity.
Qed.

(** X13. The Jacobian a wrapper hands to scipy is block structured.  For a
    wrapper over [D > 0] inputs and [n] experiments whose feature indices
    are distinct and below [D], a flattened design of whole rows and a
    gradient of the constraint with [n] rows of one entry per feature index:
    [jacobian] returns an array of [n] rows over [D * n] columns in which
    row [i] holds the gradient of experiment [i] in the columns
    [D * i + index] of the constraint's features and zero everywhere
    else. *)
Theorem jacobian_block_structure
    (constraint_jacobian :
       Constraints.Constraint Q -> list string -> list (list Q) -> result (list (list Q)))
    (self : ScipyConstraints.ConstraintWrapper Q) (x : list Q) (m : nat)
    (gradient : list (list Q)) :
  let D := ScipyConstraints.D Q self in
  let n := ScipyConstraints.n_experiments Q self in
  let idx := ScipyConstraints.constraint_feature_indices Q self in
  0 < D ->
  List.length x = m * D ->
  List.length (ScipyConstraints.names Q self) = D ->
  constraint_jacobian (ScipyConstraints.constraint Q self) (ScipyConstraints.names Q self)
    (Wrapper.reshape_rows m D x) = Ok gradient ->
  List.length gradient = n ->
  (forall g, In g gradient -> List.length g = List.length idx) ->
  List.NoDup idx ->
  (forall j, In j idx -> j < D) ->
  exists J,
    Jacobian.jacobian constraint_jacobian self x = Ok J /\
    List.length J = n /\
    (forall r, In r J -> List.length r = D * n) /\
    (forall i j, i < n -> j < List.length idx ->
       Optimality.entry J i (D * i + List.nth j idx 0) = Optimality.entry gradient i j) /\
    (forall i c, i < n -> c < D * n ->
       (forall j, j < List.length idx -> c <> D * i + List.nth j idx 0) ->
       Optimality.entry J i c = 0%Q).
Proof.
  intros D n idx HD Hx Hnames Hgrad Hn Hg Hnd Hidx.
  unfold Jacobian.jacobian. fold D n idx.
  unfold Wrapper.reshape.
  destruct (Nat.eqb_spec D 0) as [E|_]; [lia|].
  rewrite Hx, Nat.div_mul by lia. rewrite Nat.eqb_refl. cbn [mbind result_bind].
  rewrite Hnames, Nat.eqb_refl. cbn [mbind result_bind].
  rewrite Hgrad. cbn [mbind result_bind].
  unfold Jacobian.fancy_assign.
  assert (Hlr : List.length (List.flat_map (fun i => replicate (List.length idx) i) (seq 0 n))
                = n * List.length idx).
  { clear. generalize 0 as s. induction n as [|n IH]; intros s; [reflexivity|].
    cbn [seq List.flat_map]. rewrite List.length_app, length_replicate, IH. lia. }
  assert (Hlv : List.length (List.concat gradient) = n * List.length idx).
  { rewrite <- Hn. clear -Hg. induction gradient as [|g G IH]; [reflexivity|].
    cbn [List.concat]. rewrite List.length_app, (Hg g (or_introl eq_refl)), IH.
    - simpl. lia.
    - intros g' Hg'. apply Hg. right. exact Hg'. }
  rewrite Hlv, Hlr, Nat.eqb_refl. cbn [mbind result_bind].
  assert (Hrows : forallb (fun r => Nat.ltb r (List.length (replicate n (replicate (D * n) 0%Q))))
                    (List.flat_map (fun i => replicate (List.length idx) i) (seq 0 n)) = true).
  { apply forallb_forall. intros r Hr. apply Nat.ltb_lt. rewrite length_replicate.
    apply List.in_flat_map in Hr. destruct Hr as (i & Hi & Hr).
    apply list_elem_of_In, elem_of_replicate in Hr. destruct Hr as [-> _].
    apply List.in_seq in Hi. lia. }
  assert (Hcols : forallb (fun c => Nat.ltb c (D * n))
                    (List.flat_map (fun i => List.map (fun j => D * i + j) idx) (seq 0 n))
                  = true).
  { apply forallb_forall. intros c Hc. apply Nat.ltb_lt.
    apply List.in_flat_map in Hc. destruct Hc as (i & Hi & Hc).
    apply List.in_map_iff in Hc. destruct Hc as (j & <- & Hj).
    apply List.in_seq in Hi. specialize (Hidx j Hj). nia. }
  rewrite Hrows, Hcols. cbn [andb].
  rewrite (zip_blocks D idx (seq 0 n) gradient)
    by (rewrite ?List.length_seq; auto).
  destruct (blocks_assign D idx (seq 0 n) gradient (replicate n (replicate (D * n) 0%Q)))
    as (Hl & Hin & _).
  { apply List.seq_NoDup. }
  { intros i Hi. rewrite length_replicate. apply List.in_seq in Hi. lia. }
  { rewrite List.length_seq. auto. }
  { exact Hg. }
  cbv zeta in Hl, Hin. eexists. split; [reflexivity|].
  set (R := foldl Jacobian.assign_at _ _) in *.
  rewrite length_replicate in Hl.
  (* the rows of the result *)
  assert (Hrow : forall i, i < n ->
            exists g row,
              gradient !! i = Some g /\ R !! i = Some row /\
              List.length row = D * n /\
              (forall j c x, List.map (fun j => D * i + j) idx !! j = Some c ->
                 g !! j = Some x -> row !! c = Some x) /\
              (forall c, ~ In c (List.map (fun j => D * i + j) idx) ->
                 row !! c = replicate (D * n) 0%Q !! c)).
  { intros i Hi.
    destruct (lookup_lt_is_Some_2 gradient i) as [g Hgi]; [lia|].
    assert (Hgl : List.length g = List.length idx).
    { apply Hg. apply list_elem_of_In. eapply list_elem_of_lookup_2. exact Hgi. }
    exists g, (foldl (fun r (cx : nat * Q) => <[fst cx := snd cx]> r)
                 (replicate (D * n) 0%Q) (zip (List.map (fun j => D * i + j) idx) g)).
    split; [exact Hgi|]. split.
    - apply (Hin i i g); [|exact Hgi|apply lookup_replicate_2; exact Hi].
      rewrite lookup_seq_lt by exact Hi. reflexivity.
    - destruct (row_assign_spec (List.map (fun j => D * i + j) idx) g
                  (replicate (D * n) 0%Q)) as (H1 & H2 & H3).
      + rewrite List.length_map. symmetry. exact Hgl.
      + apply List.NoDup_map_NoDup_ForallPairs; [|exact Hnd].
        intros a b _ _ E. nia.
      + intros c Hc. rewrite length_replicate.
        apply List.in_map_iff in Hc. destruct Hc as (j & <- & Hj).
        specialize (Hidx j Hj). nia.
      + cbv zeta in H1, H2, H3. rewrite length_replicate in H1. auto. }
  split; [exact Hl|]. split; [|split].
  - intros r Hr. apply list_elem_of_In, list_elem_of_lookup_1 in Hr.
    destruct Hr as (i & Hi).
    assert (Hlt : i < n) by (rewrite <- Hl; eapply lookup_lt_Some; exact Hi).
    destruct (Hrow i Hlt) as (g & row & _ & HR & Hlen & _).
    rewrite HR in Hi. injection Hi as <-. exact Hlen.
  - intros i j Hi Hj.
    destruct (Hrow i Hi) as (g & row & Hgi & HR & _ & Hset & _).
    assert (Hgl : List.length g = List.length idx).
    { apply Hg. apply list_elem_of_In. eapply list_elem_of_lookup_2. exact Hgi. }
    destruct (lookup_lt_is_Some_2 g j) as [xv Hxv]; [lia|].
    destruct (lookup_lt_is_Some_2 idx j) as [cj Hcj]; [lia|].
    unfold Optimality.entry.
    rewrite (nth_lookup_Some _ _ _ _ HR), (nth_lookup_Some _ _ _ _ Hgi).
    rewrite (nth_lookup_Some _ _ _ _ Hcj), (nth_lookup_Some _ _ _ _ Hxv).
    apply nth_lookup_Some. apply (Hset j); [|exact Hxv].
    rewrite list_lookup_fmap, Hcj. reflexivity.
  - intros i c Hi Hc Hno.
    destruct (Hrow i Hi) as (g & row & _ & HR & _ & _ & Hkeep).
    unfold Optimality.entry. rewrite (nth_lookup_Some _ _ _ _ HR).
    apply nth_lookup_Some. rewrite Hkeep.
    + apply lookup_replicate_2. exact Hc.
    + intros Hin'. apply list_elem_of_In, list_elem_of_lookup_1 in Hin'.
      destruct Hin' as (j & Hj).
      rewrite list_lookup_fmap in Hj.
      destruct (idx !! j) as [cj|] eqn:Ecj; [|discriminate].
      injection Hj as Hj.
      apply (Hno j); [eapply lookup_lt_Some; exact Ecj|].
      rewrite (nth_lookup_Some _ _ _ _ Ecj). symmetry. exact Hj.
Qed.

Lemma jacobian_block_structure_witness :
  exists J,
    Jacobian.jacobian Examples2.gradient_5_6 Examples2.wrapper_x2 [1; 2; 3; 4]%Q = Ok J /\
    Optimality.entry J 0 1 = 5%Q /\ Optimality.entry J 1 3 = 6%Q /\
    Optimality.entry J 0 3 = 0%Q.
Proof.
  destruct (jacobian_block_structure Examples2.gradient_5_6 Examples2.wrapper_x2
              [1; 2; 3; 4]%Q 2 [[5]; [6]]%Q)
    as (J & E & _ & _ & Hin & Hout).
  - simpl. lia.
  - reflexivity.
  - reflexivity.
  - reflexivity.
  - reflexivity.
  - intros g [<-|[<-|[]]]; reflexivity.
  - repeat constructor; simpl; intuition.
  - intros j [<-|[]]. simpl. lia.
  - exists J. split; [exact E|]. split; [|split].
    + apply (Hin 0 0); simpl; lia.
    + apply (Hin 1 0); simpl; lia.
    + apply (Hout 0 3); simpl; try lia. intros j Hj. assert (j = 0) as -> by lia.
      simpl. lia.
Defined.

(** ** Groups with quantities *)

Lemma check_arguments_raises (keys : list string) (pick_at_least pick_at_most : Z)
    (quantity_if_picked : list (Q * Q)) :
  List.length keys <> List.length quantity_if_picked \/
  (pick_at_most < pick_at_least)%Z \/
  (pick_at_least < 0)%Z \/
  (Z.of_nat (List.length keys) < pick_at_most)%Z \/
  In "pick_none" keys \/
  (exists q, In q quantity_if_picked /\ (0 == fst q \/ 0 == snd q)%Q) \/
  (exists k, In k keys /\ OneHot.has_sep k = true) ->
  QuantityGroup.check_arguments keys pick_at_least pick_at_most quantity_if_picked
  = Raise ValueError.
Proof.
  intros H. unfold QuantityGroup.check_arguments.
  destruct (Nat.eqb_spec (List.length keys) (List.length quantity_if_picked)) as [E1|E1];
    [|reflexivity]. cbn [negb].
  destruct (Z.ltb_spec pick_at_most pick_at_least) as [E2|E2]; [reflexivity|].
  destruct (Z.ltb_spec pick_at_least 0) as [E3|E3]; [reflexivity|].
  destruct (Z.ltb_spec (Z.of_nat (List.length keys)) pick_at_most) as [E4|E4]; [reflexivity|].
  destruct (Np.contains keys "pick_none") eqn:E5; [reflexivity|].
  destruct (existsb _ quantity_if_picked) eqn:E6; [reflexivity|].
  destruct (existsb OneHot.has_sep keys) eqn:E7; [reflexivity|].
  exfalso. destruct H as [H|[H|[H|[H|[H|[H|H]]]]]]; try lia.
  - apply contains_In in H. congruence.
  - destruct H as (q & Hq & Hz).
    assert (Hex : existsb (fun q => Qeq_bool 0 (fst q) || Qeq_bool 0 (snd q))
                    quantity_if_picked = true).
    { apply existsb_exists. exists q. split; [exact Hq|]. apply orb_true_iff.
      destruct Hz as [Hz|Hz]; [left|right]; apply Qeq_bool_iff; exact Hz. }
    congruence.
  - destruct H as (k & Hk & Hs).
    assert (Hex : existsb OneHot.has_sep keys = true).
    { apply existsb_exists. exists k. split; assumption. }
    congruence.
Qed.

(** X14. [NChooseKGroup_with_quantity] refuses its arguments with a
    [ValueError], before anything is constructed and leaving the list of
    keys as it was, whenever the keys and the quantities differ in number,
    [pick_at_least] exceeds [pick_at_most] or is negative, [pick_at_most]
    exceeds the number of keys, a key is [pick_none], a key holds the
    separator, or a quantity has 0 as a bound. *)
Theorem nchoosek_group_rejects
    (ContinuousInput_new : string -> Q * Q -> result Features.Feature)
    (CategoricalInput_new : string -> list string -> result Features.Feature)
    (LinearInequalityConstraint_new LinearEqualityConstraint_new :
       list string -> list Q -> Q -> result (Constraints.Constraint Q))
    (unique_group_identifier : string) (keys : list string)
    (pick_at_least pick_at_most : Z) (quantity_limit : Q)
    (quantity_if_picked : list (Q * Q)) (quantity_is_equality : bool) :
  List.length keys <> List.length quantity_if_picked \/
  (pick_at_most < pick_at_least)%Z \/
  (pick_at_least < 0)%Z \/
  (Z.of_nat (List.length keys) < pick_at_most)%Z \/
  In "pick_none" keys \/
  (exists q, In q quantity_if_picked /\ (0 == fst q \/ 0 == snd q)%Q) \/
  (exists k, In k keys /\ OneHot.has_sep k = true) ->
  QuantityGroup.NChooseKGroup_with_quantity ContinuousInput_new CategoricalInput_new
    LinearInequalityConstraint_new LinearEqualityConstraint_new
    unique_group_identifier keys pick_at_least pick_at_most quantity_limit
    quantity_if_picked quantity_is_equality
  = (keys, Raise ValueError).
Proof.
  intros H. unfold QuantityGroup.NChooseKGroup_with_quantity.
  rewrite (check_arguments_raises keys pick_at_least pick_at_most quantity_if_picked H).
  reflexivity.
Qed.

Lemma nchoosek_group_rejects_witness :
  QuantityGroup.NChooseKGroup_with_quantity Examples2.any_continuous
    Examples2.any_categorical Examples2.any_inequality Examples2.any_equality
    "g" ["a"; "b_c"] 0 1 1 [(1, 2); (1, 2)]%Q false
  = (["a"; "b_c"], Raise ValueError).
Proof.
  apply nchoosek_group_rejects.
  do 6 right. exists "b_c". split; [simpl; auto | reflexivity].
Defined.

(** X15. [pick_at_least] is only looked at to tell whether nothing may be
    picked: two calls that differ in nothing but a positive [pick_at_least]
    not above [pick_at_most] give the same result, the same input, the same
    quantity variables and the same constraints. *)
Theorem nchoosek_group_ignores_positive_pick_at_least
    (ContinuousInput_new : string -> Q * Q -> result Features.Feature)
    (CategoricalInput_new : string -> list string -> result Features.Feature)
    (LinearInequalityConstraint_new LinearEqualityConstraint_new :
       list string -> list Q -> Q -> result (Constraints.Constraint Q))
    (unique_group_identifier : string) (keys : list string)
    (least least' pick_at_most : Z) (quantity_limit : Q)
    (quantity_if_picked : list (Q * Q)) (quantity_is_equality : bool) :
  (0 < least <= pick_at_most)%Z ->
  (0 < least' <= pick_at_most)%Z ->
  QuantityGroup.NChooseKGroup_with_quantity ContinuousInput_new CategoricalInput_new
    LinearInequalityConstraint_new LinearEqualityConstraint_new
    unique_group_identifier keys least pick_at_most quantity_limit
    quantity_if_picked quantity_is_equality
  = QuantityGroup.NChooseKGroup_with_quantity ContinuousInput_new CategoricalInput_new
      LinearInequalityConstraint_new LinearEqualityConstraint_new
      unique_group_identifier keys least' pick_at_most quantity_limit
      quantity_if_picked quantity_is_equality.
Proof.
  intros H1 H2. unfold QuantityGroup.NChooseKGroup_with_quantity,
    QuantityGroup.check_arguments.
  destruct (Z.ltb_spec pick_at_most least) as [E|_]; [lia|].
  destruct (Z.ltb_spec pick_at_most least') as [E|_]; [lia|].
  destruct (Z.ltb_spec least 0) as [E|_]; [lia|].
  destruct (Z.ltb_spec least' 0) as [E|_]; [lia|].
  destruct (Z.eqb_spec least 0) as [E|_]; [lia|].
  destruct (Z.eqb_spec least' 0) as [E|_]; [lia|].
  reflexivity.
Qed.

Lemma nchoosek_group_ignores_positive_pick_at_least_witness :
  QuantityGroup.NChooseKGroup_with_quantity Examples2.any_continuous
    Examples2.any_categorical Examples2.any_inequality Examples2.any_equality
    "g" ["a"; "b"; "c"] 1 3 1 [(1, 2); (1, 2); (1, 2)]%Q false
  = QuantityGroup.NChooseKGroup_with_quantity Examples2.any_continuous
      Examples2.any_categorical Examples2.any_inequality Examples2.any_equality
      "g" ["a"; "b"; "c"] 3 3 1 [(1, 2); (1, 2); (1, 2)]%Q false.
Proof.
  apply nchoosek_group_ignores_positive_pick_at_least; lia.
Defined.

(** ** The formulas of the keywords *)

Lemma concat_empty_cons (x : string) (l : list string) :
  String.concat "" (x :: l) = x +:+ String.concat "" l.
Proof.
  destruct l as [|y l]; cbn [String.concat].
  - symmetry. apply append_nil_r.
  - rewrite append_nil_l. reflexivity.
Qed.

Lemma concat_empty_app (l1 l2 : list string) :
  String.concat "" (l1 ++ l2) = String.concat "" l1 +:+ String.concat "" l2.
Proof.
  induction l1 as [|x l1 IH]; [reflexivity|].
  change ((x :: l1) ++ l2) with (x :: (l1 ++ l2)).
  rewrite !concat_empty_cons, IH, string_app_assoc. reflexivity.
Qed.

Lemma concat_terms (terms : list string) :
  terms <> [] ->
  String.concat "" (List.map (fun t => t +:+ " + ") terms)
  = String.concat " + " terms +:+ " + ".
Proof.
  induction terms as [|t terms IH]; intros Hne; [congruence|].
  cbn [List.map]. rewrite concat_empty_cons.
  destruct terms as [|t' terms].
  - cbn [List.map String.concat]. rewrite append_nil_r. reflexivity.
  - rewrite IH by discriminate.
    change (String.concat " + " (t :: t' :: terms))
      with (t +:+ " + " +:+ String.concat " + " (t' :: terms)).
    rewrite !string_app_assoc. reflexivity.
Qed.

Lemma drop_last3_terms (terms : list string) :
  terms <> [] ->
  Formulas.drop_last3 (String.concat "" (List.map (fun t => t +:+ " + ") terms))
  = String.concat " + " terms.
Proof.
  intros Hne. rewrite concat_terms by exact Hne.
  unfold Formulas.drop_last3. rewrite length_append.
  change (String.length " + ") with 3.
  replace (String.length (String.concat " + " terms) + 3 - 3)
    with (String.length (String.concat " + " terms)) by lia.
  apply substring_prefix.
Qed.

Lemma main_effects_terms (d : Constraints.Domain Q) :
  Formulas.main_effects d
  = String.concat "" (List.map (fun t => t +:+ " + ")
                        (List.map Features.key (Constraints.inputs d))).
Proof. unfold Formulas.main_effects. rewrite List.map_map. reflexivity. Qed.

Lemma squares_terms (d : Constraints.Domain Q) :
  Formulas.squares d
  = String.concat "" (List.map (fun t => t +:+ " + ")
                        (List.map (fun input => "{" +:+ Features.key input +:+ "**2}")
                           (Constraints.inputs d))).
Proof.
  unfold Formulas.squares. rewrite List.map_map. f_equal. apply List.map_ext.
  intros input. rewrite !string_app_assoc. reflexivity.
Qed.

Lemma interactions_terms (d : Constraints.Domain Q) :
  Formulas.interactions d
  = String.concat ""
      (List.map (fun t => t +:+ " + ")
         (let keys := Features.get_keys Features.any_feature (Constraints.inputs d) in
          List.flat_map
            (fun i => List.map (fun j => Formulas.key_at keys j +:+ ":" +:+
                                         Formulas.key_at keys i) (seq 0 i))
            (seq 0 (List.length (Constraints.inputs d))))).
Proof.
  unfold Formulas.interactions. cbv zeta. f_equal.
  induction (seq 0 (List.length (Constraints.inputs d))) as [|i l IH]; [reflexivity|].
  cbn [List.flat_map]. rewrite List.map_app, <- IH. f_equal.
  rewrite List.map_map. apply List.map_ext. intros j.
  rewrite !string_app_assoc. reflexivity.
Qed.

(** X16. For a domain with at least one input, each model keyword reaches
    the formula parser as its terms joined by [" + "], without a dangling
    separator: [linear] gives the keys of the inputs in their order;
    [linear-and-quadratic] adds the squares [{key**2}];
    [linear-and-interactions] adds the products [key_j:key_i] of every pair
    of sorted keys with [j < i]; [fully-quadratic] has the keys, then the
    interactions, then the squares. *)
Theorem keyword_formulas (Formula : Type) (parse : string -> result Formula)
    (rhs_attr : Formula -> option Formula) (d : Constraints.Domain Q) (rhs_only : bool) :
  Constraints.inputs d <> [] ->
  let keys := List.map Features.key (Constraints.inputs d) in
  let squares :=
    List.map (fun input => "{" +:+ Features.key input +:+ "**2}") (Constraints.inputs d) in
  let interactions :=
    let sorted_keys := Features.get_keys Features.any_feature (Constraints.inputs d) in
    List.flat_map
      (fun i => List.map (fun j => Formulas.key_at sorted_keys j +:+ ":" +:+
                                   Formulas.key_at sorted_keys i) (seq 0 i))
      (seq 0 (List.length (Constraints.inputs d))) in
  let built terms :=
    formula ← parse (String.concat " + " terms);
    Ok (if rhs_only
        then match rhs_attr formula with Some r => r | None => formula end
        else formula) in
  let get s :=
    Formulas.get_formula_from_string Formula parse rhs_attr (Formulas.Str Formula s)
      (Some d) rhs_only in
  get "linear" = built keys /\
  get "linear-and-quadratic" = built (keys ++ squares) /\
  get "linear-and-interactions" = built (keys ++ interactions) /\
  get "fully-quadratic" = built (keys ++ interactions ++ squares).
Proof.
  intros Hne. cbv zeta.
  assert (Hk : List.map Features.key (Constraints.inputs d) <> []).
  { destruct (Constraints.inputs d); [congruence|discriminate]. }
  unfold Formulas.get_formula_from_string.
  cbn [String.eqb Ascii.eqb Bool.eqb andb].
  unfold Formulas.linear_formula, Formulas.linear_and_quadratic_formula,
    Formulas.linear_and_interactions_formula, Formulas.fully_quadratic_formula.
  cbn [mbind result_bind].
  rewrite main_effects_terms, squares_terms, interactions_terms. cbv zeta.
  rewrite <- !concat_empty_app, <- !List.map_app.
  rewrite !drop_last3_terms;
    try (intros H; apply List.app_eq_nil in H; destruct H as [H _]; contradiction);
    try exact Hk.
  repeat split; reflexivity.
Qed.

Lemma keyword_formulas_witness :
  Formulas.get_formula_from_string string Examples.toy_parse (fun _ => None)
    (Formulas.Str string "linear-and-quadratic")
    (Some (Constraints.mkDomain
             [Examples.continuous "x1" 0 1; Examples.continuous "x2" 0 1] []))
    true
  = Ok "x1 + x2 + {x1**2} + {x2**2}".
Proof.
  destruct (keyword_formulas string Examples.toy_parse (fun _ => None)
              (Constraints.mkDomain
                 [Examples.continuous "x1" 0 1; Examples.continuous "x2" 0 1] [])
              true) as (_ & H & _).
  - discriminate.
  - rewrite H. reflexivity.
Defined.

(** ** Linear constraints in index form *)









Lemma fold_result_fails {A S} (body : S -> A -> result S) (xs : list A) (x : A) :
  In x xs -> (forall s, exists e, body s x = Raise e) ->
  forall s, exists e, fold_result body xs s = Raise e.
Proof.
  induction xs as [|y xs IH]; intros Hin Hx s; [destruct Hin|].
  cbn [fold_result]. destruct Hin as [->|Hin].
  - destruct (Hx s) as (e & ->). exists e. reflexivity.
  - destruct (body s y) as [s'|e]; [|exists e; reflexivity].
    cbn [mbind result_bind]. apply IH; assumption.
Qed.

(** X18. A linear constraint of the asked class that names a categorical
    input, or a key that is no input of the domain, is never translated:
    [get_linear_constraints] raises, whatever the other constraints are. *)
Theorem get_linear_constraints_refuses (d : Constraints.Domain Q) (equality : bool)
    (fs : list string) (cs : list Q) (r : Q) (f : string) :
  In (fs, cs, r) (omap (TorchTools.linear_parts equality) (Constraints.constraints d)) ->
  In f fs ->
  LinearParts.is_numerical_input d f = false ->
  exists e, TorchTools.get_linear_constraints d equality = Raise e.
Proof.
  intros Hpart Hf Hnum. unfold TorchTools.get_linear_constraints.
  apply (fold_result_fails _ _ (fs, cs, r) Hpart). intros out.
  apply list_elem_of_In, list_elem_of_lookup_1 in Hf. destruct Hf as (i & Hi).
  destruct (fold_result_fails (TorchTools.lin_step d cs) (imap pair fs) (i, f))
    with (s := ([] : list nat, [] : list Q, 0%Q)) as (e & He).
  - apply list_elem_of_In. eapply list_elem_of_lookup_2.
    rewrite list_lookup_imap, Hi. reflexivity.
  - intros [[I C] R]. unfold TorchTools.lin_step.
    destruct (TorchTools.index_of f _) as [p|e]; [|exists e; reflexivity].
    cbn [mbind result_bind]. unfold Features.get_by_key.
    unfold LinearParts.is_numerical_input, LinearParts.input_of in Hnum.
    destruct (Features.find_last f (Constraints.inputs d)) as [feat|];
      [|exists KeyError; reflexivity].
    cbn [mbind result_bind]. apply negb_false_iff in Hnum.
    unfold Transform.is_categorical in Hnum.
    destruct (Features.kind feat) as [b|vs|cats al] eqn:Ek; try discriminate.
    destruct (TorchTools.is_fixed feat).
    + destruct (TorchTools.item cs i) as [ci|e]; [|exists e; reflexivity].
      cbn [mbind result_bind]. unfold TorchTools.fixed_times. rewrite Ek.
      exists TypeError. reflexivity.
    + unfold TorchTools.lower_bound. rewrite Ek. exists AttributeError. reflexivity.
  - exists e. rewrite He. reflexivity.
Qed.

Lemma get_linear_constraints_refuses_witness :
  TorchTools.get_linear_constraints Examples2.d_categorical_term false
  = Raise AttributeError.
Proof.
  destruct (get_linear_constraints_refuses Examples2.d_categorical_term false
              ["x1"; "c"] [1; 1]%Q 1%Q "c") as (e & He).
  - left. reflexivity.
  - right. left. reflexivity.
  - reflexivity.
  - rewrite He. vm_compute in He. symmetry. exact He.
Defined.

(** ** The table of the polytope sampler *)

Lemma dict_set_keys {V} (d : list (string * V)) (k : string) (v : V) :
  List.map fst (Pandas.dict_set d k v)
  = if Pandas.dict_has d k then List.map fst d else List.map fst d ++ [k].
Proof.
  induction d as [|[k' v'] d IH]; [reflexivity|].
  unfold Pandas.dict_has in *. cbn [Pandas.dict_set existsb fst].
  destruct (String.eqb_spec k' k) as [->|NE]; cbn [orb]; [reflexivity|].
  cbn [List.map fst]. rewrite IH. destruct (existsb _ d); reflexivity.
Qed.

Lemma dict_set_keys_In {V} (d : list (string * V)) (k k' : string) (v : V) :
  In k' (List.map fst (Pandas.dict_set d k v)) <-> k' = k \/ In k' (List.map fst d).
Proof.
  rewrite dict_set_keys. destruct (Pandas.dict_has d k) eqn:E.
  - split; [auto|]. intros [->|H]; [|exact H].
    destruct (in_dec string_dec k (List.map fst d)) as [Hin|Hout]; [exact Hin|].
    apply dict_has_false_iff in Hout. congruence.
  - rewrite List.in_app_iff. simpl. intuition.
Qed.

Lemma dict_set_NoDup {V} (d : list (string * V)) (k : string) (v : V) :
  List.NoDup (List.map fst d) -> List.NoDup (List.map fst (Pandas.dict_set d k v)).
Proof.
  intros H. rewrite dict_set_keys. destruct (Pandas.dict_has d k) eqn:E; [exact H|].
  apply dict_has_false_iff in E.
  apply List.NoDup_app; [exact H | repeat constructor; intros [] |].
  intros x Hx [<-|[]]. contradiction.
Qed.

Lemma dict_set_In {V} (d : list (string * V)) (k : string) (v : V) :
  In (k, v) (Pandas.dict_set d k v).
Proof.
  induction d as [|[k' v'] d IH]; simpl; [auto|].
  destruct (String.eqb_spec k' k) as [->|NE]; simpl; auto.
Qed.

Lemma dict_set_In_other {V} (d : list (string * V)) (k k' : string) (v v' : V) :
  k' <> k -> In (k', v') d -> In (k', v') (Pandas.dict_set d k v).
Proof.
  intros NE. induction d as [|[k0 v0] d IH]; simpl; [intros []|].
  destruct (String.eqb_spec k0 k) as [->|NE0]; simpl.
  - intros [[= <- <-]|H]; [contradiction|auto].
  - intros [H|H]; auto.
Qed.

Lemma foldl_dict_set_keys {A V} (g : A -> string) (h : A -> V) (l : list A) :
  forall d : list (string * V),
  let d' := foldl (fun d a => Pandas.dict_set d (g a) (h a)) d l in
  (List.NoDup (List.map fst d) -> List.NoDup (List.map fst d')) /\
  (forall k, In k (List.map fst d') <-> In k (List.map fst d) \/ In k (List.map g l)).
Proof.
  induction l as [|a l IH]; intros d; cbv zeta.
  - simpl. split; [auto|]. intros k. intuition.
  - cbn [foldl List.map]. destruct (IH (Pandas.dict_set d (g a) (h a))) as [H1 H2].
    cbv zeta in H1, H2. split.
    + intros Hnd. apply H1, dict_set_NoDup, Hnd.
    + intros k. rewrite H2, dict_set_keys_In. simpl. intuition.
Qed.

(** Setting the columns of the fixed inputs: each ends up with its value in
    every row. *)
Lemma fixed_columns_set (n : nat) (fixed : list (string * Polytope.number)) :
  forall samples : Pandas.DataFrame Polytope.cell,
  List.NoDup (List.map fst fixed) ->
  let table := foldl (fun samples kv =>
                        Polytope.set_column samples (fst kv)
                          (replicate n (Polytope.cell_of (snd kv))))
                 samples fixed in
  Pandas.n_rows table = Pandas.n_rows samples /\
  (List.NoDup (List.map fst (Pandas.columns samples)) ->
   List.NoDup (List.map fst (Pandas.columns table))) /\
  (forall k, In k (List.map fst (Pandas.columns table)) <->
     In k (List.map fst (Pandas.columns samples)) \/ In k (List.map fst fixed)) /\
  (forall k v, In (k, v) fixed ->
     In (k, replicate n (Polytope.cell_of v)) (Pandas.columns table)) /\
  (forall k col, ~ In k (List.map fst fixed) -> In (k, col) (Pandas.columns samples) ->
     In (k, col) (Pandas.columns table)).
Proof.
  induction fixed as [|[k0 v0] fixed IH]; intros samples Hnd; cbv zeta.
  - simpl. repeat split; auto; try tauto; try (intros k v []).
  - cbn [foldl fst snd]. simpl in Hnd. apply List.NoDup_cons_iff in Hnd.
    destruct Hnd as [Hk0 Hnd].
    destruct (IH (Polytope.set_column samples k0 (replicate n (Polytope.cell_of v0))) Hnd)
      as (H1 & H2 & H3 & H4 & H5).
    cbv zeta in H1, H2, H3, H4, H5. split; [rewrite H1; reflexivity|].
    split; [intros Hs; apply H2; cbn [Polytope.set_column Pandas.columns];
            apply dict_set_NoDup; exact Hs|].
    split.
    { intros k. rewrite H3. cbn [Polytope.set_column Pandas.columns].
      rewrite dict_set_keys_In. simpl. intuition. }
    split.
    + intros k v [[= <- <-]|Hin].
      * apply H5; [exact Hk0|]. cbn [Polytope.set_column Pandas.columns].
        apply dict_set_In.
      * apply H4. exact Hin.
    + intros k col Hk Hin. apply H5.
      * intros H. apply Hk. right. exact H.
      * cbn [Polytope.set_column Pandas.columns]. apply dict_set_In_other; [|exact Hin].
        intros ->. apply Hk. left. reflexivity.
Qed.

Lemma fixed_by_bounds_NoDup (d : Constraints.Domain Q) :
  List.NoDup (List.map fst (Polytope.fixed_by_bounds d)).
Proof.
  unfold Polytope.fixed_by_bounds.
  assert (H : forall (l : list Features.Feature) (acc : list (string * Polytope.number)),
             List.NoDup (List.map fst acc) ->
             List.NoDup (List.map fst
               (foldl (fun dict feat =>
                         match Features.kind feat with
                         | Features.ContinuousInput (lo, _) =>
                             if TorchTools.is_fixed feat
                             then Pandas.dict_set dict (Features.key feat)
                                    (Polytope.Real lo)
                             else dict
                         | _ => dict
                         end) acc l))).
  { induction l as [|f l IH]; intros acc Hacc; [exact Hacc|].
    cbn [foldl]. apply IH.
    destruct (Features.kind f) as [[lo hi]|vs|cs al]; try exact Hacc.
    destruct (TorchTools.is_fixed f); [apply dict_set_NoDup|]; exact Hacc. }
  apply H. constructor.
Qed.

Lemma fold_eq_NoDup (d : Constraints.Domain Q) (eqs : list TorchTools.lin) :
  forall fixed cleaned fixed' cleaned',
  List.NoDup (List.map fst fixed) ->
  fold_result (Polytope.fold_eq d) eqs (fixed, cleaned) = Ok (fixed', cleaned') ->
  List.NoDup (List.map fst fixed').
Proof.
  induction eqs as [|[[I C] R] eqs IH]; intros fixed cleaned fixed' cleaned' Hnd H.
  - simpl in H. injection H as <- <-. exact Hnd.
  - cbn [fold_result] in H.
    destruct (Polytope.fold_eq d (fixed, cleaned) (I, C, R)) as [[f1 c1]|e] eqn:E;
      [|discriminate].
    cbn [mbind result_bind] in H. apply (IH f1 c1 fixed' cleaned'); [|exact H].
    unfold Polytope.fold_eq in E.
    destruct (Nat.eqb (List.length I) 1).
    + destruct (TorchTools.item I 0) as [i|]; [|discriminate]. cbn [mbind result_bind] in E.
      destruct (TorchTools.item _ i) as [k|]; [|discriminate]. cbn [mbind result_bind] in E.
      destruct (TorchTools.item C 0) as [c0|]; [|discriminate]. cbn [mbind result_bind] in E.
      injection E as <- <-. apply dict_set_NoDup. exact Hnd.
    + injection E as <- <-. exact Hnd.
Qed.

Section SamplerFrame.

Variable rng : Type.
Variable next_seed : rng -> nat * rng.
Variable inputs_sample :
  list Features.Feature -> nat -> nat -> result (Pandas.DataFrame Polytope.cell).
Variable get_interpoint_constraints : Constraints.Domain Q -> nat -> list TorchTools.lin.
Variable generate_unfixed_lin_constraints :
  list TorchTools.lin -> bool -> list (nat * Polytope.number) -> nat ->
  result (list TorchTools.lin).
Variable sample_q_batches_from_polytope :
  nat -> list Q * list Q -> option (list TorchTools.lin) -> option (list TorchTools.lin) ->
  nat -> nat -> nat -> result (list (list Q)).
Variable feat_sample : Features.Feature -> nat -> nat -> list Polytope.cell.

#[local] Existing Instance Polytope.M_bind.

Lemma prepare_fixed_NoDup (d : Constraints.Domain Q) (n : nat) (p : Polytope.Prepared) :
  Polytope.prepare get_interpoint_constraints d n = Ok p ->
  List.NoDup (List.map fst (Polytope.fixed_features p)).
Proof.
  unfold Polytope.prepare.
  destruct (Polytope.get_linear_constraints d true) as [eqs|e]; simpl; [|discriminate].
  destruct (fold_result _ eqs _) as [[fixed cleaned]|e] eqn:Ef; simpl; [|discriminate].
  destruct (map_result _ fixed) as [idx|e]; simpl; [|discriminate].
  destruct (Polytope.get_linear_constraints d false) as [ineqs|e]; simpl; [|discriminate].
  destruct (map_result TorchTools.lower_bound _) as [lo|e]; simpl; [|discriminate].
  destruct (map_result TorchTools.upper_bound _) as [hi|e]; simpl; [|discriminate].
  intros [= <-]. simpl.
  apply (fold_eq_NoDup d eqs _ _ _ _ (fixed_by_bounds_NoDup d) Ef).
Qed.

Lemma sample_columns_table (n : nat) (feats : list Features.Feature) :
  forall (samples : Pandas.DataFrame Polytope.cell) (st : Polytope.state rng),
  exists st' table,
    Polytope.fold_M rng
      (fun samples feat =>
         seed ← Polytope._get_seed rng next_seed;
         Polytope.ret rng
           (Polytope.set_column samples (Features.key feat) (feat_sample feat n seed)))
      feats samples st = (st', Ok table) /\
    Pandas.n_rows table = Pandas.n_rows samples /\
    (List.NoDup (List.map fst (Pandas.columns samples)) ->
     List.NoDup (List.map fst (Pandas.columns table))) /\
    (forall k, In k (List.map fst (Pandas.columns table)) <->
       In k (List.map fst (Pandas.columns samples)) \/ In k (List.map Features.key feats)).
Proof.
  induction feats as [|feat feats IH]; intros samples st.
  - exists st, samples. split; [reflexivity|]. split; [reflexivity|].
    split; [auto|]. intros k. simpl. intuition.
  - cbn [Polytope.fold_M]. unfold mbind, Polytope.M_bind, Polytope.bind.
    unfold Polytope._get_seed at 1.
    destruct (next_seed (Polytope.gen rng st)) as [seed g]. unfold Polytope.ret at 1.
    destruct (IH (Polytope.set_column samples (Features.key feat) (feat_sample feat n seed))
                 (Polytope.mkState rng (Polytope.heap rng st) g (Polytope.warnings rng st)))
      as (st' & table & E & Hn & Hnd & Hk).
    exists st', table. split; [exact E|]. split; [exact Hn|]. split.
    + intros Hs. apply Hnd. cbn [Polytope.set_column Pandas.columns].
      apply dict_set_NoDup. exact Hs.
    + intros k. rewrite Hk. cbn [Polytope.set_column Pandas.columns].
      rewrite dict_set_keys_In. simpl. intuition.
Qed.

Lemma get_In (P : Features.Feature -> bool) (fs : list Features.Feature)
    (f : Features.Feature) :
  In f (Features.get P fs) <-> In f fs /\ P f = true.
Proof.
  unfold Features.get. rewrite <- List.filter_In. split; intros H.
  - eapply Permutation_in; [symmetry; apply sorted_perm | exact H].
  - eapply Permutation_in; [apply sorted_perm | exact H].
Qed.

(** X19. The table [_sample_from_polytope] returns for a domain with
    constraints is complete: it has [n] rows, its column labels differ from
    each other, every input of the domain has a column, and the column of
    every input that is fixed, by its bounds or by an equality with one
    coefficient, holds the fixed value in every row. *)
Theorem sample_from_polytope_table (self : Polytope.Sampler) (n : nat)
    (st st' : Polytope.state rng) (d : Constraints.Domain Q)
    (table : Pandas.DataFrame Polytope.cell) :
  Polytope.view (Polytope.heap rng st) (Polytope.domain self) = Some d ->
  Constraints.constraints d <> [] ->
  Polytope._sample_from_polytope rng next_seed inputs_sample get_interpoint_constraints
    generate_unfixed_lin_constraints sample_q_batches_from_polytope feat_sample self n st
  = (st', Ok table) ->
  exists p,
    Polytope.prepare get_interpoint_constraints d n = Ok p /\
    Pandas.n_rows table = n /\
    List.NoDup (List.map fst (Pandas.columns table)) /\
    (forall k, In k (Features.get_keys Features.any_feature (Constraints.inputs d)) ->
       In k (List.map fst (Pandas.columns table))) /\
    (forall k v, In (k, v) (Polytope.fixed_features p) ->
       In (k, replicate n (Polytope.cell_of v)) (Pandas.columns table)).
Proof.
  intros Hview Hcs Erun.
  unfold Polytope._sample_from_polytope in Erun.
  unfold mbind at 1 in Erun. unfold Polytope.M_bind at 1 in Erun.
  unfold Polytope.bind at 1 in Erun.
  unfold Polytope.read_domain in Erun. rewrite Hview in Erun.
  destruct (Constraints.constraints d) as [|c0 cs] eqn:Ecs; [congruence|].
  change (Nat.eqb (List.length (c0 :: cs)) 0) with false in Erun. cbv iota in Erun.
  unfold mbind at 1 in Erun. unfold Polytope.M_bind at 1 in Erun.
  unfold Polytope.bind at 1 in Erun. unfold Polytope.lift at 1 in Erun.
  destruct (Polytope.prepare get_interpoint_constraints d n) as [p|e] eqn:Ep;
    [|discriminate].
  exists p. split; [reflexivity|].
  pose proof (prepare_fixed_NoDup d n p Ep) as Hfixed.
  unfold mbind at 1 in Erun. unfold Polytope.M_bind at 1 in Erun.
  unfold Polytope.bind at 1 in Erun.
  (* the frame of the continuous inputs *)
  assert (Hframe : exists frame st1,
            Pandas.n_rows frame = n /\
            List.NoDup (List.map fst (Pandas.columns frame)) /\
            (forall feat, In feat (Polytope.free_features d (Polytope.fixed_features p)) ->
               In (Features.key feat) (List.map fst (Pandas.columns frame))) /\
            (samples ← Polytope.fold_M rng
                 (fun samples feat =>
                    seed ← Polytope._get_seed rng next_seed;
                    Polytope.ret rng
                      (Polytope.set_column samples (Features.key feat)
                         (feat_sample feat n seed)))
                 (Features.get Features.is_categorical_or_discrete (Constraints.inputs d))
                 frame;
             Polytope.ret rng
               (foldl (fun samples kv =>
                         Polytope.set_column samples (fst kv)
                           (replicate n (Polytope.cell_of (snd kv))))
                      samples (Polytope.fixed_features p))) st1 = (st', Ok table)).
  { destruct (Nat.eqb (List.length (Polytope.lower p)) 0).
    - unfold mbind at 1 in Erun. unfold Polytope.M_bind at 1 in Erun.
      unfold Polytope.bind at 1 in Erun.
      unfold Polytope.warn at 1 in Erun. unfold Polytope.ret at 1 in Erun.
      eexists. eexists. split; [|split; [|split; [|exact Erun]]].
      + reflexivity.
      + unfold Polytope.nan_frame. cbn [Pandas.columns].
        apply (foldl_dict_set_keys (fun k => k) (fun _ => replicate n Polytope.NaN)).
        constructor.
      + intros feat Hfeat. unfold Polytope.nan_frame. cbn [Pandas.columns].
        apply (foldl_dict_set_keys (fun k => k) (fun _ => replicate n Polytope.NaN)).
        right. rewrite List.map_id.
        unfold Polytope.free_features in Hfeat. apply List.filter_In in Hfeat.
        destruct Hfeat as [Hfeat _]. apply get_In in Hfeat. destruct Hfeat as [Hfeat _].
        unfold Features.get_keys. apply List.in_map. apply get_In. auto.
    - unfold Polytope.hit_and_run in Erun.
      unfold mbind at 1 in Erun. unfold Polytope.M_bind at 1 in Erun.
      unfold Polytope.bind at 1 in Erun.
      destruct (Polytope.draw_candidates _ _ _ _ self d p n st) as [st1 [candidates|e]];
        [|discriminate].
      unfold mbind at 1 in Erun. unfold Polytope.M_bind at 1 in Erun.
      unfold Polytope.bind at 1 in Erun.
      set (labels := List.map Features.key
                       (Polytope.free_features d (Polytope.fixed_features p))) in *.
      assert (Hfr : forall frame, Polytope.frame_of_rows n labels candidates = Ok frame ->
                Pandas.n_rows frame = n /\
                List.NoDup (List.map fst (Pandas.columns frame)) /\
                (forall feat, In feat (Polytope.free_features d (Polytope.fixed_features p)) ->
                   In (Features.key feat) (List.map fst (Pandas.columns frame)))).
      { intros frame Hf. unfold Polytope.frame_of_rows in Hf.
        match type of Hf with
        | (if ?b then _ else _) = _ => destruct b; [|discriminate]
        end.
        injection Hf as <-.
        split; [reflexivity|]. cbn [Pandas.columns]. split.
        - apply (foldl_dict_set_keys (fun jl : nat * string => snd jl)
                   (fun jl => List.map (fun r => Polytope.Num (List.nth (fst jl) r 0%Q))
                                candidates)).
          constructor.
        - intros feat Hfeat.
          apply (foldl_dict_set_keys (fun jl : nat * string => snd jl)
                   (fun jl => List.map (fun r => Polytope.Num (List.nth (fst jl) r 0%Q))
                                candidates)).
          right.
          assert (Hk : In (Features.key feat) labels) by (apply List.in_map; exact Hfeat).
          apply list_elem_of_In, list_elem_of_lookup_1 in Hk. destruct Hk as (j & Hj).
          apply List.in_map_iff. exists (j, Features.key feat). split; [reflexivity|].
          apply list_elem_of_In. eapply list_elem_of_lookup_2.
          rewrite list_lookup_imap, Hj. reflexivity. }
      destruct (negb _ && _).
      + unfold Polytope.warn at 1 in Erun. unfold Polytope.lift at 1 in Erun.
        destruct (Polytope.frame_of_rows n labels candidates) as [frame|e] eqn:Ef;
          [|discriminate].
        destruct (Hfr frame eq_refl) as (H1 & H2 & H3).
        eexists. eexists. split; [exact H1|]. split; [exact H2|]. split; [exact H3|].
        exact Erun.
      + unfold Polytope.ret at 1 in Erun. unfold Polytope.lift at 1 in Erun.
        destruct (Polytope.frame_of_rows n labels candidates) as [frame|e] eqn:Ef;
          [|discriminate].
        destruct (Hfr frame eq_refl) as (H1 & H2 & H3).
        eexists. eexists. split; [exact H1|]. split; [exact H2|]. split; [exact H3|].
        exact Erun. }
  clear Erun. destruct Hframe as (frame & st1 & Hrows & Hnd & Hfree & Erun).
  destruct (sample_columns_table n
              (Features.get Features.is_categorical_or_discrete (Constraints.inputs d))
              frame st1) as (st2 & t1 & E1 & Hn1 & Hnd1 & Hk1).
  unfold mbind at 1 in Erun. unfold Polytope.M_bind at 1 in Erun.
  unfold Polytope.bind at 1 in Erun. rewrite E1 in Erun.
  unfold Polytope.ret in Erun. injection Erun as _ <-.
  destruct (fixed_columns_set n (Polytope.fixed_features p) t1 Hfixed)
    as (Hn2 & Hnd2 & Hk2 & Hval & _).
  cbv zeta in Hn2, Hnd2, Hk2, Hval.
  split; [rewrite Hn2, Hn1; exact Hrows|].
  split; [apply Hnd2, Hnd1, Hnd|].
  split; [|exact Hval].
  intros k Hk. unfold Features.get_keys in Hk. apply List.in_map_iff in Hk.
  destruct Hk as (feat & <- & Hfeat). apply get_In in Hfeat. destruct Hfeat as [Hfeat _].
  apply Hk2. destruct (Features.is_continuous feat) eqn:Ec.
  - destruct (Pandas.dict_has (Polytope.fixed_features p) (Features.key feat)) eqn:Eh.
    + right. destruct (in_dec string_dec (Features.key feat)
                         (List.map fst (Polytope.fixed_features p))) as [Hin|Hout];
        [exact Hin|]. apply dict_has_false_iff in Hout. congruence.
    + left. apply Hk1. left. apply Hfree. unfold Polytope.free_features.
      apply List.filter_In. split; [apply get_In; auto|]. rewrite Eh. reflexivity.
  - left. apply Hk1. right. apply List.in_map. apply get_In. split; [exact Hfeat|].
    unfold Features.is_categorical_or_discrete. rewrite Ec. reflexivity.
Qed.

End SamplerFrame.

Lemma sample_from_polytope_table_witness :
  exists table,
    snd (Polytope._sample_from_polytope unit Examples.ex_next_seed
           Examples.ex_inputs_sample Examples.ex_interpoint Examples.ex_unfixed
           Examples.ex_no_hit_and_run Examples.ex_feat_sample Examples.sampler_at_3 2
           (Polytope.mkState unit Examples2.h_pseudo_fixed tt [])) = Ok table /\
    Pandas.n_rows table = 2 /\
    In ("x1", replicate 2 (Polytope.Num (1 # 2))) (Pandas.columns table) /\
    In ("x2", replicate 2 (Polytope.Num 1)) (Pandas.columns table).
Proof.
  assert (H : exists st' table,
            Polytope._sample_from_polytope unit Examples.ex_next_seed
              Examples.ex_inputs_sample Examples.ex_interpoint Examples.ex_unfixed
              Examples.ex_no_hit_and_run Examples.ex_feat_sample Examples.sampler_at_3 2
              (Polytope.mkState unit Examples2.h_pseudo_fixed tt []) = (st', Ok table)).
  { eexists. eexists. vm_compute. reflexivity. }
  destruct H as (st' & table & E).
  destruct (sample_from_polytope_table unit Examples.ex_next_seed
              Examples.ex_inputs_sample Examples.ex_interpoint Examples.ex_unfixed
              Examples.ex_no_hit_and_run Examples.ex_feat_sample Examples.sampler_at_3 2
              (Polytope.mkState unit Examples2.h_pseudo_fixed tt []) st'
              (Constraints.mkDomain
                 [Examples.continuous "x1" 0 1; Examples.continuous "x2" 1 1]
                 [Constraints.LinearEqualityConstraint ["x1"; "x2"] [2; 1]%Q 2%Q])
              table eq_refl)
    as (p & Hp & Hn & _ & _ & Hfixed).
  - discriminate.
  - exact E.
  - exists table. rewrite E. split; [reflexivity|]. split; [exact Hn|].
    vm_compute in Hp. injection Hp as <-. split.
    + apply (Hfixed "x1" (Polytope.Real (1 # 2))). simpl. auto.
    + apply (Hfixed "x2" (Polytope.Real 1)). simpl. auto.
Defined.

(** X20. [_sample_from_polytope] only reads the store: whatever it returns
    or raises, the domain of the sampler, its inputs and every other object
    are afterwards what they were. *)
Theorem sample_from_polytope_leaves_store (rng : Type) (next_seed : rng -> nat * rng)
    (inputs_sample :
       list Features.Feature -> nat -> nat -> result (Pandas.DataFrame Polytope.cell))
    (get_interpoint_constraints : Constraints.Domain Q -> nat -> list TorchTools.lin)
    (generate_unfixed_lin_constraints :
       list TorchTools.lin -> bool -> list (nat * Polytope.number) -> nat ->
  result (list TorchTools.lin))
    (sample_q_batches_from_polytope :
       nat -> list Q * list Q -> option (list TorchTools.lin) ->
       option (list TorchTools.lin) -> nat -> nat -> nat -> result (list (list Q)))
    (feat_sample : Features.Feature -> nat -> nat -> list Polytope.cell)
    (self : Polytope.Sampler) (n : nat) (st : Polytope.state rng) :
  Polytope.heap rng
    (fst (Polytope._sample_from_polytope rng next_seed inputs_sample
            get_interpoint_constraints generate_unfixed_lin_constraints
            sample_q_batches_from_polytope feat_sample self n st))
  = Polytope.heap rng st.
Proof.
  apply (sample_from_polytope_read_only rng next_seed inputs_sample
           get_interpoint_constraints generate_unfixed_lin_constraints
           sample_q_batches_from_polytope feat_sample self n).
Qed.

(** ** NChooseK constraints as bounds, on continuous inputs *)

(** X21. On a domain whose inputs are all continuous, with one NChooseK
    constraint that passes the check and leaves at least one of its
    features inactive, [nchoosek_constraints_as_bounds] returns [n * D]
    bounds: experiment [i] has the inputs of the combination at position
    [i % len(ind)] of the shuffled combinations set to (0, 0) and every
    other input at its own bounds. *)
Theorem nchoosek_constraints_as_bounds_round_robin_continuous (rng : Type)
    (shuffle : rng -> list (list nat) -> list (list nat) * rng) (g : rng)
    (d : Constraints.Domain Q) (n : nat)
    (pre post : list (Constraints.Constraint Q))
    (features : list string) (min_count max_count : Z) (none_also_valid : bool) :
  (forall g l, Permutation l (fst (shuffle g l))) ->
  forallb Features.is_continuous (Constraints.inputs d) = true ->
  Constraints.constraints d
    = pre ++ Constraints.NChooseKConstraint features min_count max_count none_also_valid
          :: post ->
  (forall c, In c (pre ++ post) -> Constraints.is_nchoosek c = false) ->
  NChooseKBounds.check_nchoosek_constraints_as_bounds d = Ok tt ->
  let L := Features.get Features.any_feature (Constraints.inputs d) in
  let D := List.length (Constraints.inputs d) in
  let positions := Np.indices_from 0 (List.map Features.key L) features in
  let r := Z.to_nat (Z.of_nat (List.length features) - max_count) in
  (0 < r <= List.length positions) ->
  let ind := fst (shuffle g (Np.combinations positions r)) in
  Permutation (Np.combinations positions r) ind /\
  exists bounds,
    NChooseKBounds.nchoosek_constraints_as_bounds rng shuffle g d n
      = Ok (snd (shuffle g (Np.combinations positions r)), bounds) /\
    List.length bounds = n * D /\
    forall i j f b, i < n -> L !! j = Some f ->
      Features.kind f = Features.ContinuousInput b ->
      bounds !! (i * D + j)
      = Some (if bool_decide (j ∈ List.nth (i mod List.length ind) ind [])
              then (0, 0)%Q else b).
Proof.
  exact (nchoosek_constraints_as_bounds_continuous rng shuffle g d n pre post features
           min_count max_count none_also_valid).
Qed.

Lemma nchoosek_constraints_as_bounds_round_robin_continuous_witness :
  exists bounds,
    NChooseKBounds.nchoosek_constraints_as_bounds unit Examples.keep_order tt
      Examples.d_three 4 = Ok (tt, bounds) /\
    List.length bounds = 12 /\
    bounds !! 4 = Some (0, 0)%Q /\ bounds !! 5 = Some (-1, 1)%Q.
Proof.
  destruct (nchoosek_constraints_as_bounds_round_robin_continuous unit Examples.keep_order
              tt Examples.d_three 4 [] [] ["x1"; "x2"; "x3"] 0 2 true)
    as (_ & bounds & E & Hlen & Hb).
  - intros g l. reflexivity.
  - reflexivity.
  - reflexivity.
  - intros c [].
  - vm_compute. reflexivity.
  - simpl. lia.
  - exists bounds. split; [exact E|]. split; [exact Hlen|]. split.
    + apply (Hb 1 1 (Examples.continuous "x2" (-1) 1) (-1, 1)%Q); [lia|reflexivity|reflexivity].
    + apply (Hb 1 2 (Examples.continuous "x3" (-1) 1) (-1, 1)%Q); [lia|reflexivity|reflexivity].
Defined.

(** ** Calling a wrapped constraint *)

(** The rows of the reshaped vector are the consecutive stretches of [D]
    entries: entry [j] of row [i] is entry [i * D + j] of the vector. *)
Lemma reshape_rows_entries (n D : nat) (x : list Q) :
  List.length x = n * D ->
  (forall r, In r (Wrapper.reshape_rows n D x) -> List.length r = D) /\
  (forall i j, i < n -> j < D ->
     List.nth j (List.nth i (Wrapper.reshape_rows n D x) []) 0%Q
     = List.nth (i * D + j) x 0%Q).
Proof.
  revert x. induction n as [|n IH]; intros x Hlen; simpl.
  - split; [intros r []|intros i j Hi; lia].
  - assert (Hd : List.length (drop D x) = n * D) by (rewrite length_drop; lia).
    destruct (IH (drop D x) Hd) as [IH1 IH2]. split.
    + intros r [<-|Hr]; [rewrite length_take; lia|apply IH1; exact Hr].
    + intros [|i] j Hi Hj.
      * simpl. rewrite <- (take_drop D x) at 2.
        rewrite List.app_nth1 by (rewrite length_take; lia). reflexivity.
      * rewrite IH2 by lia. rewrite <- (take_drop D x) at 2.
        rewrite List.app_nth2 by (rewrite length_take; lia).
        f_equal. rewrite length_take. lia.
Qed.

(** X22. [ConstraintWrapper.__call__] hands the constraint the flattened
    vector row by row.  With [D = 0] inputs it raises a
    [ZeroDivisionError]; with a vector whose length is no multiple of [D]
    the reshape raises a [ValueError]; with a vector of [n * D] numbers it
    returns, or raises, what the constraint does on the frame of [n] rows
    of [D] numbers in which entry [j] of row [i] is entry [i * D + j] of
    the vector. *)
Theorem call_reshapes
    (constraint_call :
       Constraints.Constraint Q -> list string -> list (list Q) -> result (list Q))
    (self : ScipyConstraints.ConstraintWrapper Q) (x : list Q) :
  let D := ScipyConstraints.D Q self in
  (D = 0 -> Wrapper.call constraint_call self x = Raise ZeroDivisionError) /\
  (0 < D -> List.length x mod D <> 0 ->
   Wrapper.call constraint_call self x = Raise ValueError) /\
  (forall n, 0 < D -> List.length x = n * D ->
   exists rows,
     Wrapper.call constraint_call self x
     = constraint_call (ScipyConstraints.constraint Q self)
         (ScipyConstraints.names Q self) rows /\
     List.length rows = n /\
     (forall r, In r rows -> List.length r = D) /\
     (forall i j, i < n -> j < D ->
        List.nth j (List.nth i rows []) 0%Q = List.nth (i * D + j) x 0%Q)).
Proof.
  cbv zeta. unfold Wrapper.call, Wrapper.reshape. split; [|split].
  - intros ->. reflexivity.
  - intros HD Hmod.
    destruct (Nat.eqb_spec (ScipyConstraints.D Q self) 0) as [E|_]; [lia|].
    destruct (Nat.eqb_spec (List.length x / ScipyConstraints.D Q self
                            * ScipyConstraints.D Q self) (List.length x)) as [E|_];
      [|reflexivity].
    exfalso. apply Hmod. apply Nat.Div0.mod_divides.
    exists (List.length x / ScipyConstraints.D Q self). lia.
  - intros n HD Hlen.
    exists (Wrapper.reshape_rows n (ScipyConstraints.D Q self) x).
    destruct (reshape_rows_entries n (ScipyConstraints.D Q self) x Hlen) as [Hr Hnth].
    split; [|split; [apply reshape_rows_length|split; assumption]].
    destruct (Nat.eqb_spec (ScipyConstraints.D Q self) 0) as [E|_]; [lia|].
    rewrite Hlen, Nat.div_mul by lia. rewrite Nat.eqb_refl. cbn [mbind result_bind].
    destruct (constraint_call _ _ _) as [violation|e]; simpl; [|reflexivity].
    rewrite clip_violation_id. reflexivity.
Qed.

Lemma call_reshapes_witness :
  let row_sums (c : Constraints.Constraint Q) (names : list string)
               (rows : list (list Q)) :=
    Ok (List.map (fun r => List.nth 0 r 0 + 10 * List.nth 1 r 0)%Q rows) in
  Wrapper.call row_sums Examples2.wrapper_x2 [1; 2; 3]%Q = Raise ValueError /\
  Wrapper.call row_sums Examples2.wrapper_x2 [1; 2; 3; 4]%Q = Ok [1 + 10 * 2; 3 + 10 * 4]%Q.
Proof.
  intros row_sums.
  pose proof (call_reshapes row_sums Examples2.wrapper_x2 [1; 2; 3]%Q) as (_ & H3 & _).
  pose proof (call_reshapes row_sums Examples2.wrapper_x2 [1; 2; 3; 4]%Q) as (_ & _ & H4).
  split.
  - apply H3; simpl; lia.
  - destruct (H4 2) as (rows & -> & Hlen & _ & Hnth); [simpl; lia|reflexivity|].
    destruct rows as [|r0 [|r1 [|r2 rows]]]; try discriminate Hlen.
    unfold row_sums. cbn [List.map].
    pose proof (Hnth 0 0 ltac:(lia) ltac:(simpl; lia)) as H00.
    pose proof (Hnth 0 1 ltac:(lia) ltac:(simpl; lia)) as H01.
    pose proof (Hnth 1 0 ltac:(lia) ltac:(simpl; lia)) as H10.
    pose proof (Hnth 1 1 ltac:(lia) ltac:(simpl; lia)) as H11.
    cbn in H00, H01, H10, H11. rewrite H00, H01, H10, H11. reflexivity.
Defined.

(** ** Fixed numerical inputs *)

Lemma fold_min_le (vs : list Q) (v : Q) :
  let m := fold_left (fun m y => if Qlt_bool y m then y else m) vs v in
  (m <= v)%Q /\ forall y, In y vs -> (m <= y)%Q.
Proof.
  revert v. induction vs as [|w vs IH]; intros v; simpl.
  - split; [apply Qle_refl|intros y []].
  - destruct (Qlt_bool w v) eqn:E.
    + destruct (IH w) as [H1 H2]. apply Qlt_bool_true in E. split.
      * eapply Qle_trans; [exact H1|exact E].
      * intros y [<-|Hy]; [exact H1|apply H2; exact Hy].
    + destruct (IH v) as [H1 H2]. apply Qlt_bool_false in E. split; [exact H1|].
      intros y [<-|Hy]; [eapply Qle_trans; [exact H1|exact E]|apply H2; exact Hy].
Qed.

Lemma fold_max_ge (vs : list Q) (v : Q) :
  let m := fold_left (fun m y => if Qlt_bool m y then y else m) vs v in
  (v <= m)%Q /\ forall y, In y vs -> (y <= m)%Q.
Proof.
  revert v. induction vs as [|w vs IH]; intros v; simpl.
  - split; [apply Qle_refl|intros y []].
  - destruct (Qlt_bool v w) eqn:E.
    + destruct (IH w) as [H1 H2]. apply Qlt_bool_true in E. split.
      * eapply Qle_trans; [exact E|exact H1].
      * intros y [<-|Hy]; [exact H1|apply H2; exact Hy].
    + destruct (IH v) as [H1 H2]. apply Qlt_bool_false in E. split; [exact H1|].
      intros y [<-|Hy]; [eapply Qle_trans; [exact E|exact H1]|apply H2; exact Hy].
Qed.

(** X23. A [DiscreteInput] that was constructed is fixed exactly when it was
    given a single value, and [fixed_value] is then the float of that value
    and [None] otherwise. *)
Theorem constructed_discrete_input_fixed (key : string) (values : list Q)
    (f : Features.Feature) :
  Discrete.new key values = Ok f ->
  exists floats,
    map_result PyFloat.to_float values = Ok floats /\
    Numerical.is_fixed f = Ok (Nat.eqb (List.length values) 1) /\
    Numerical.fixed_value f = Ok (match floats with [v] => Some v | _ => None end).
Proof.
  unfold Discrete.new. intros H.
  destruct (Nat.eqb_spec (List.length values) 0) as [E0|E0]; [discriminate H|].
  destruct (map_result PyFloat.to_float values) as [floats|e] eqn:Ef;
    [|discriminate H].
  cbn [mbind result_bind] in H.
  exists floats. split; [reflexivity|].
  pose proof (polytope_map_result_length _ _ _ Ef) as Hlen. rewrite <- Hlen.
  rewrite <- Hlen in E0. clear Ef Hlen values. rename floats into values.
  unfold Discrete.validate_values_unique in H.
  destruct values as [|a values]; [contradiction E0; reflexivity|]. clear E0.
  destruct (Nat.eqb_spec (List.length (a :: values))
              (List.length (Discrete.distinct (a :: values)))) as [E|E];
    [|discriminate H].
  cbn [negb mbind result_bind] in H. injection H as <-.
  symmetry in E. apply distinct_length_iff in E.
  destruct values as [|b values].
  { unfold Numerical.fixed_value, Numerical.is_fixed. simpl.
    assert (Ea : Qeq_bool a a = true) by (apply Qeq_bool_iff; reflexivity).
    rewrite Ea. split; reflexivity. }
  set (s := Features.sorted Qlt_bool (a :: b :: values)).
  assert (Hp : Permutation (a :: b :: values) s) by apply sorted_perm.
  assert (Hfix : Numerical.is_fixed (Features.mkFeature key (Features.DiscreteInput s))
                 = Ok false).
  { unfold Numerical.is_fixed, Numerical.lower_bound, Numerical.upper_bound.
    cbn [Features.kind].
    assert (Ha : In a s) by (eapply Permutation_in; [exact Hp|left; reflexivity]).
    assert (Hb : In b s) by (eapply Permutation_in; [exact Hp|right; left; reflexivity]).
    destruct s as [|v vs]; [destruct Ha|].
    unfold Numerical.py_min, Numerical.py_max. cbn [mbind result_bind].
    destruct (fold_min_le vs v) as [Hm1 Hm2]. destruct (fold_max_ge vs v) as [HM1 HM2].
    cbv zeta in Hm1, Hm2, HM1, HM2.
    set (m := fold_left _ vs v) in *. set (M := fold_left _ vs v) in HM1, HM2 |- *.
    assert (Hall : forall y, In y (v :: vs) -> (m <= y)%Q /\ (y <= M)%Q).
    { intros y [<-|Hy]; [split; assumption|split; [apply Hm2|apply HM2]; exact Hy]. }
    f_equal. destruct (Qeq_bool m M) eqn:Eq; [|reflexivity]. exfalso.
    apply Qeq_bool_iff in Eq.
    destruct (Hall a Ha) as [A1 A2]. destruct (Hall b Hb) as [B1 B2].
    rewrite <- Eq in A2, B2.
    assert (Hab : (a == b)%Q).
    { transitivity m; [apply Qle_antisym; assumption|apply Qle_antisym; assumption]. }
    inversion E as [|x l Hnot _]; subst. apply Hnot. left. exact Hab. }
  split.
  - exact Hfix.
  - change (Numerical.fixed_value (Features.mkFeature key (Features.DiscreteInput s))
            = Ok None).
    unfold Numerical.fixed_value. rewrite Hfix. reflexivity.
Qed.

Lemma constructed_discrete_input_fixed_witness :
  exists f, Discrete.new "d" [2]%Q = Ok f /\
    Numerical.is_fixed f = Ok true /\ Numerical.fixed_value f = Ok (Some 2%Q).
Proof.
  eexists. split; [vm_compute; reflexivity|].
  destruct (constructed_discrete_input_fixed "d" [2]%Q
              (Features.mkFeature "d" (Features.DiscreteInput [2%Q])))
    as (floats & Ef & Hfix & Hval); [vm_compute; reflexivity|].
  vm_compute in Ef. injection Ef as <-.
  split; [exact Hfix|exact Hval].
Defined.

(** ** Candidates of a categorical input *)

(** X24. [CategoricalInput.validate_candidental] returns the values exactly
    when every value is an allowed category and raises a [ValueError]
    otherwise; values it accepts also pass the validation of experimental
    values that is not strict. *)
Theorem categorical_candidates_are_experiments (categories : list string)
    (allowed : list bool) (values : list string) :
  let all_allowed :=
    forall v, In v values ->
      In v (Categorical.get_allowed_categories categories allowed) in
  (Categorical.validate_candidental categories allowed values = Ok values
   <-> all_allowed) /\
  (Categorical.validate_candidental categories allowed values = Raise ValueError
   <-> ~ all_allowed) /\
  (Categorical.validate_candidental categories allowed values = Ok values ->
   Categorical.validate_experimental categories allowed values false = Ok values).
Proof.
  cbv zeta. unfold Categorical.validate_candidental, Categorical.validate_experimental.
  destruct (Nat.eqb (Categorical.count_isin values
                       (Categorical.get_allowed_categories categories allowed))
              (List.length values)) eqn:E; cbn [negb].
  - pose proof (proj1 (count_isin_full _ _) E) as Hall.
    assert (Hc : forall v, In v values -> In v categories).
    { intros v Hv. eapply allowed_categories_In. apply Hall. exact Hv. }
    apply count_isin_full in Hc. rewrite Hc. cbn [negb].
    split; [|split].
    + split; [intros _; exact Hall|reflexivity].
    + split; [discriminate|intros H; contradiction].
    + reflexivity.
  - assert (Hno : ~ forall v, In v values ->
                    In v (Categorical.get_allowed_categories categories allowed)).
    { intros H. apply count_isin_full in H. congruence. }
    split; [|split].
    + split; [discriminate|intros H; contradiction].
    + split; [intros _; exact Hno|reflexivity].
    + discriminate.
Qed.

Lemma categorical_candidates_are_experiments_witness :
  Categorical.validate_candidental ["a"; "b"; "c"] [true; true; false] ["b"; "a"; "b"]
    = Ok ["b"; "a"; "b"] /\
  Categorical.validate_experimental ["a"; "b"; "c"] [true; true; false] ["b"; "a"; "b"] false
    = Ok ["b"; "a"; "b"].
Proof.
  split; [reflexivity|].
  apply (proj2 (proj2 (categorical_candidates_are_experiments ["a"; "b"; "c"]
                         [true; true; false] ["b"; "a"; "b"]))).
  reflexivity.
Defined.

(** ** NChooseK constraints that leave nothing inactive *)

(** X25. When the first NChooseK constraint of a domain allows all of its
    features to be active ([max_count = len(features)]) and at least one
    experiment is asked for, [nchoosek_constraints_as_bounds] raises an
    [IndexError] although the check passes: the only combination is the
    empty tuple, and the index array numpy builds from it is an array of
    floats. *)
Theorem nchoosek_constraints_as_bounds_all_active (rng : Type)
    (shuffle : rng -> list (list nat) -> list (list nat) * rng) (g : rng)
    (d : Constraints.Domain Q) (n : nat)
    (pre post : list (Constraints.Constraint Q))
    (features : list string) (min_count : Z) (none_also_valid : bool) :
  (forall g l, Permutation l (fst (shuffle g l))) ->
  Constraints.constraints d
    = pre ++ Constraints.NChooseKConstraint features min_count
               (Z.of_nat (List.length features)) none_also_valid :: post ->
  (forall c, In c pre -> Constraints.is_nchoosek c = false) ->
  NChooseKBounds.check_nchoosek_constraints_as_bounds d = Ok tt ->
  0 < n ->
  NChooseKBounds.nchoosek_constraints_as_bounds rng shuffle g d n = Raise IndexError.
Proof.
  intros Hperm Hcs Hpre Hcheck Hn.
  unfold NChooseKBounds.nchoosek_constraints_as_bounds.
  rewrite Hcheck. cbn [mbind result_bind]. rewrite Hcs.
  assert (Hpos : Nat.ltb 0 (List.length (pre ++
            Constraints.NChooseKConstraint features min_count
              (Z.of_nat (List.length features)) none_also_valid :: post)) = true).
  { apply Nat.ltb_lt. rewrite length_app. simpl. lia. }
  rewrite Hpos. rewrite fold_result_app.
  rewrite pin_constraint_skip by exact Hpre.
  cbn [mbind result_bind fold_result].
  assert (Epin : forall st,
            NChooseKBounds.pin_constraint rng shuffle d n st
              (Constraints.NChooseKConstraint features min_count
                 (Z.of_nat (List.length features)) none_also_valid)
            = Raise IndexError).
  { intros st. unfold NChooseKBounds.pin_constraint.
    cbn [Constraints.is_nchoosek Constraints.nchoosek_features
         Constraints.nchoosek_max_count].
    cbv zeta. rewrite Z.sub_diag. change (0 <? 0)%Z with false. cbv iota.
    change (Z.to_nat 0) with 0.
    set (positions := Np.indices_from 0 _ features).
    assert (Ec : Np.combinations positions 0 = [[]]) by (destruct positions; reflexivity).
    rewrite Ec.
    pose proof (Hperm (fst st) [[]]) as Hp.
    destruct (shuffle (fst st) [[]]) as [ind g'] eqn:Es. cbn [fst] in Hp.
    apply Permutation_length_1_inv in Hp. subst ind.
    destruct n as [|m]; [lia|].
    cbn [seq fold_result]. unfold NChooseKBounds.pin_experiment at 1.
    reflexivity. }
  rewrite Epin. reflexivity.
Qed.

Lemma nchoosek_constraints_as_bounds_all_active_witness :
  NChooseKBounds.check_nchoosek_constraints_as_bounds Examples.d_all_active = Ok tt /\
  NChooseKBounds.nchoosek_constraints_as_bounds unit Examples.keep_order tt
    Examples.d_all_active 1 = Raise IndexError.
Proof.
  split; [vm_compute; reflexivity|].
  apply (nchoosek_constraints_as_bounds_all_active unit Examples.keep_order tt
           Examples.d_all_active 1 [] [] ["x1"; "x2"; "x3"] 0 true).
  - intros g l. reflexivity.
  - reflexivity.
  - intros c [].
  - vm_compute. reflexivity.
  - lia.
Defined.

